(** * Circulation core of the Library Management System

    A shallow embedding of the TypeScript classes [Book], [BorrowingRecord],
    [Borrower] and [Library] (src/models, src/domains, src/policies) and the
    properties of the borrow / return / overdue operations.

    Conventions of the embedding:
    - a [Date] is its [getTime()] value, an integer number of milliseconds;
      every [new Date()] of the source is an explicit clock reading passed
      to the operation, in the order in which the source reads the clock;
    - the time zone of the host, which [getDate()] and [setDate()] read, is
      passed to the operation that computes a due date;
    - [uuidv4()] is an identifier handed in by the environment;
    - a JavaScript [Map] is an association list in insertion order, so that
      [values()], [find] and [filter] see the entries in the order the
      source sees them;
    - objects that the source shares by reference (a record stored in the
      ledger and pushed on two histories) are referred to by their key, and
      a mutation of the object is a read-modify-write of the store;
    - a thrown [Error] ends the operation and leaves the store as the
      statements executed so far have made it. *)

From Stdlib Require Import ZArith List String Bool Lia QArith.
Import ListNotations.

Local Open Scope string_scope.
Local Open Scope list_scope.
Local Open Scope Z_scope.

(** ** Basic types (src/types/common.types.ts) *)

Definition UUID : Type := string.
Definition Email : Type := string.
Definition PhoneNumber : Type := string.
Definition DateTime : Type := Z.

Record UserData : Type := mkUserData {
  ud_name : string;
  ud_firstname : string;
  ud_email : Email;
  ud_phone : PhoneNumber;
  ud_address : string
}.

(** ** Enumerations (src/enums) *)

Inductive BorrowingStatus : Type :=
| ACTIVE | RETURNED | OVERDUE | EXTENDED | CANCELLED | RESERVED.

Inductive PhysicalState : Type :=
| EXCELLENT | GOOD | FAIR | POOR | DAMAGED | LOST | IN_REPAIR.

(** Modelled from the spec: the declaration of the [BookCategory] enum
    (BookCategory.enum.ts) is not among the sources.  The spec tells a
    reference category from the default one; the members below are the ones
    the repository's enumeration guide lists. *)
Inductive BookCategory : Type :=
| FICTION | NON_FICTION | SCIENCE | TECHNOLOGY | HISTORY | BIOGRAPHY
| PHILOSOPHY | RELIGION | POETRY | DRAMA | CHILDREN | YOUNG_ADULT
| REFERENCE | EDUCATION | ART | MUSIC | TRAVEL | COOKING | HEALTH
| SELF_HELP | BUSINESS | ECONOMICS | LAW | POLITICS | OTHER.

Definition BorrowingStatus_eqb (a b : BorrowingStatus) : bool :=
  match a, b with
  | ACTIVE, ACTIVE | RETURNED, RETURNED | OVERDUE, OVERDUE
  | EXTENDED, EXTENDED | CANCELLED, CANCELLED | RESERVED, RESERVED => true
  | _, _ => false
  end.

(** ** Policy table (src/policies/business-rules.ts) *)

Module TIME_POLICIES.
Definition DEFAULT_BORROWING_PERIOD : Z := 14.
Definition REFERENCE_BORROWING_PERIOD : Z := 7.
Definition NEW_RELEASE_BORROWING_PERIOD : Z := 7.
Definition REMINDER_DAYS_BEFORE_DUE : list Z := [3; 1].
End TIME_POLICIES.

Module BORROWING_POLICIES.
Definition MAX_BOOKS_PER_USER : Z := 3.
Definition MAX_EXTENSION_COUNT : Z := 1.
End BORROWING_POLICIES.

Module FEE_POLICIES.
Definition LATE_FEE_PER_DAY : Q := 1 # 2.
Definition MAX_LATE_FEE : Q := 50 # 1.
Definition LATE_FEE_GRACE_PERIOD : Z := 1.
End FEE_POLICIES.

(** ** Dates

    The time value of a [Date] counts milliseconds in UTC; [getTime()] and
    the comparison of two dates read it as it is, [getDate()] and
    [setDate()] read and write it as the local time of the host. *)

Definition MS_PER_DAY : Z := 1000 * 60 * 60 * 24.

(** [n] days of 86 400 000 ms after [d]. *)
Definition addDays (d : DateTime) (n : Z) : DateTime := d + n * MS_PER_DAY.

Module TimeZone.

(** The time zone of the host: [LocalTZA zone t isUTC] is ECMAScript's
    LocalTZA(t, isUTC), the offset of local time from UTC in milliseconds,
    at the UTC time value [t] when [isUTC] holds and at the local time
    value [t] otherwise. *)
Record t : Type := mk { LocalTZA : Z -> bool -> Z }.

Definition UTC : t := mk (fun _ _ => 0).

(** A zone that moves from an offset of one hour to an offset of two
    hours on 2024-03-31 at 01:00 UTC, as Europe/Paris does; a local time in
    the hour that the change skips has the offset from before the change. *)
Definition CET_to_CEST_2024 : t :=
  mk (fun time isUTC =>
        if isUTC
        then if time <? 1711846800000 then 3600000 else 7200000
        else if time <? 1711854000000 then 3600000 else 7200000).

(** A zone whose offset never changes. *)
Definition fixed (zone : t) : Prop :=
  exists offset, forall time isUTC, LocalTZA zone time isUTC = offset.

End TimeZone.

(** ECMAScript's LocalTime(t) and UTC(t). *)
Definition LocalTime (zone : TimeZone.t) (t : Z) : Z :=
  t + TimeZone.LocalTZA zone t true.

Definition UTCTime (zone : TimeZone.t) (t : Z) : Z :=
  t - TimeZone.LocalTZA zone t false.

(** The time values of the valid dates are the integers of at most
    8.64e15 in absolute value.  The time value of an invalid [Date] is NaN:
    [invalid < d] is false for every date [d], and the difference of the
    two time values is no number of days.  It is represented by
    [INVALID_DATE], a value past the range and more than three days after
    every valid date, of which the same holds. *)
Definition MAX_TIME_VALUE : Z := 8640000000000000.

Definition in_Date_range (t : Z) : Prop := Z.abs t <= MAX_TIME_VALUE.

Definition INVALID_DATE : DateTime := 2 * MAX_TIME_VALUE.

(** ECMAScript's TimeClip(t). *)
Definition TimeClip (t : Z) : DateTime :=
  if Z.abs t <=? MAX_TIME_VALUE then t else INVALID_DATE.

(** [d.setDate(d.getDate() + n)] on a valid date: the local time of [d],
    [n] calendar days later at the same time of day, taken back to UTC
    with the offset of that local time. *)
Definition setDate_getDate_plus (zone : TimeZone.t) (d : DateTime) (n : Z)
    : DateTime :=
  TimeClip (UTCTime zone (LocalTime zone d + n * MS_PER_DAY)).

(** ** JavaScript [Map] with string keys, in insertion order *)

Module JsMap.

Definition t (V : Type) : Type := list (UUID * V).

Definition empty {V : Type} : t V := [].

Fixpoint get {V : Type} (k : UUID) (m : t V) : option V :=
  match m with
  | [] => None
  | (k', v) :: m' => if String.eqb k' k then Some v else get k m'
  end.

Definition has {V : Type} (k : UUID) (m : t V) : bool :=
  match get k m with Some _ => true | None => false end.

(** [set] overwrites the value of an existing key in place and appends a
    new key at the end. *)
Fixpoint set {V : Type} (k : UUID) (v : V) (m : t V) : t V :=
  match m with
  | [] => [(k, v)]
  | (k', v') :: m' =>
      if String.eqb k' k then (k, v) :: m' else (k', v') :: set k v m'
  end.

(** [delete] removes the key; on a map that holds each key once this is
    the removal of its one entry. *)
Fixpoint delete {V : Type} (k : UUID) (m : t V) : t V :=
  match m with
  | [] => []
  | (k', v') :: m' =>
      if String.eqb k' k then delete k m' else (k', v') :: delete k m'
  end.

Definition keys {V : Type} (m : t V) : list UUID := map fst m.

Definition values {V : Type} (m : t V) : list V := map snd m.

(** [Array.from(m.values()).find(p)], together with the key under which
    the object that was found is stored. *)
Fixpoint find {V : Type} (p : V -> bool) (m : t V) : option (UUID * V) :=
  match m with
  | [] => None
  | (k, v) :: m' => if p v then Some (k, v) else find p m'
  end.

(** A [Map] holds each key once. *)
Definition wf {V : Type} (m : t V) : Prop := NoDup (keys m).

End JsMap.

(** ** Models *)

Module BorrowingRecord.

Record t : Type := mk {
  id : UUID;
  bookId : UUID;
  borrowerId : UUID;
  borrowDate : DateTime;
  dueDate : DateTime;
  returnDate : option DateTime;
  isExtended : bool;
  extensionCount : Z;
  status : BorrowingStatus
}.

(** The constructor of src/models/BorrowingRecord.model.ts. *)
Definition new (id bookId borrowerId : UUID) (borrowDate dueDate : DateTime) : t :=
  mk id bookId borrowerId borrowDate dueDate None false 0 ACTIVE.

Definition set_returnDate (d : option DateTime) (r : t) : t :=
  mk (id r) (bookId r) (borrowerId r) (borrowDate r) (dueDate r) d
     (isExtended r) (extensionCount r) (status r).

Definition set_status (st : BorrowingStatus) (r : t) : t :=
  mk (id r) (bookId r) (borrowerId r) (borrowDate r) (dueDate r)
     (returnDate r) (isExtended r) (extensionCount r) st.

Definition set_dueDate (d : DateTime) (r : t) : t :=
  mk (id r) (bookId r) (borrowerId r) (borrowDate r) d
     (returnDate r) (isExtended r) (extensionCount r) (status r).

End BorrowingRecord.

Module Book.

(** [borrowingHistory] holds references to the records of the ledger: the
    keys of those records. *)
Record t : Type := mk {
  id : UUID;
  title : string;
  author : string;
  ISBN : string;
  publisher : string;
  publicationYear : Z;
  category : BookCategory;
  isAvailable : bool;
  physicalState : PhysicalState;
  borrowingHistory : list UUID;
  isRestricted : bool;
  addedDate : DateTime;
  lastModified : DateTime;
  description : string;
  coverImageUrl : string
}.

(** The constructor; [now1] and [now2] are its two clock readings. *)
Definition new (id : UUID) (title author ISBN publisher : string)
    (publicationYear : Z) (category : BookCategory)
    (description coverImageUrl : string) (now1 now2 : DateTime) : t :=
  mk id title author ISBN publisher publicationYear category
     true EXCELLENT [] false now1 now2 description coverImageUrl.

Definition set_isAvailable (v : bool) (b : t) : t :=
  mk (id b) (title b) (author b) (ISBN b) (publisher b) (publicationYear b)
     (category b) v (physicalState b) (borrowingHistory b) (isRestricted b)
     (addedDate b) (lastModified b) (description b) (coverImageUrl b).

Definition set_physicalState (v : PhysicalState) (b : t) : t :=
  mk (id b) (title b) (author b) (ISBN b) (publisher b) (publicationYear b)
     (category b) (isAvailable b) v (borrowingHistory b) (isRestricted b)
     (addedDate b) (lastModified b) (description b) (coverImageUrl b).

Definition set_borrowingHistory (v : list UUID) (b : t) : t :=
  mk (id b) (title b) (author b) (ISBN b) (publisher b) (publicationYear b)
     (category b) (isAvailable b) (physicalState b) v (isRestricted b)
     (addedDate b) (lastModified b) (description b) (coverImageUrl b).

Definition set_isRestricted (v : bool) (b : t) : t :=
  mk (id b) (title b) (author b) (ISBN b) (publisher b) (publicationYear b)
     (category b) (isAvailable b) (physicalState b) (borrowingHistory b) v
     (addedDate b) (lastModified b) (description b) (coverImageUrl b).

Definition set_lastModified (v : DateTime) (b : t) : t :=
  mk (id b) (title b) (author b) (ISBN b) (publisher b) (publicationYear b)
     (category b) (isAvailable b) (physicalState b) (borrowingHistory b)
     (isRestricted b) (addedDate b) v (description b) (coverImageUrl b).

End Book.

Module Borrower.

(** [borrowedBooks] is the array of the ids of the books on loan;
    [borrowingHistory] holds references to the records of the ledger. *)
Record t : Type := mk {
  id : UUID;
  name : string;
  firstname : string;
  email : Email;
  phone : PhoneNumber;
  address : string;
  registrationDate : DateTime;
  isAuthorized : bool;
  isActiveStatus : bool;
  suspensionEndDate : option DateTime;
  borrowedBooks : list UUID;
  borrowingHistory : list UUID;
  maxBooksAllowed : Z;
  notificationsEnabled : bool;
  lastLogin : DateTime
}.

(** The constructor; [now1] and [now2] are its two clock readings. *)
Definition new (id : UUID) (name firstname : string) (email : Email)
    (phone : PhoneNumber) (address : string) (now1 now2 : DateTime) : t :=
  mk id name firstname email phone address now1 false true None [] [] 3
     true now2.

Definition set_isAuthorized (v : bool) (u : t) : t :=
  mk (id u) (name u) (firstname u) (email u) (phone u) (address u)
     (registrationDate u) v (isActiveStatus u) (suspensionEndDate u)
     (borrowedBooks u) (borrowingHistory u) (maxBooksAllowed u)
     (notificationsEnabled u) (lastLogin u).

Definition set_suspensionEndDate (v : option DateTime) (u : t) : t :=
  mk (id u) (name u) (firstname u) (email u) (phone u) (address u)
     (registrationDate u) (isAuthorized u) (isActiveStatus u) v
     (borrowedBooks u) (borrowingHistory u) (maxBooksAllowed u)
     (notificationsEnabled u) (lastLogin u).

Definition set_borrowedBooks (v : list UUID) (u : t) : t :=
  mk (id u) (name u) (firstname u) (email u) (phone u) (address u)
     (registrationDate u) (isAuthorized u) (isActiveStatus u)
     (suspensionEndDate u) v (borrowingHistory u) (maxBooksAllowed u)
     (notificationsEnabled u) (lastLogin u).

Definition set_borrowingHistory (v : list UUID) (u : t) : t :=
  mk (id u) (name u) (firstname u) (email u) (phone u) (address u)
     (registrationDate u) (isAuthorized u) (isActiveStatus u)
     (suspensionEndDate u) (borrowedBooks u) v (maxBooksAllowed u)
     (notificationsEnabled u) (lastLogin u).

(** [isSuspended()]: no end date means not suspended; otherwise the clock is
    compared with the end date. *)
Definition isSuspended (now : DateTime) (u : t) : bool :=
  match suspensionEndDate u with
  | None => false
  | Some endDate => now <? endDate
  end.

(** [isActive()]. *)
Definition isActive (now : DateTime) (u : t) : bool :=
  isActiveStatus u && isAuthorized u && negb (isSuspended now u).

(** In [canBorrow] the source writes [this.isActive] without calling it: the
    operand is the method object, which is truthy whatever the account. *)
Definition isActive_method_reference (u : t) : bool := true.

(** [canBorrow()]. *)
Definition canBorrow (now : DateTime) (u : t) : bool :=
  (Z.of_nat (List.length (borrowedBooks u)) <? maxBooksAllowed u)
  && isActive_method_reference u
  && negb (isSuspended now u).

Inductive BorrowError : Type :=
| CannotBorrowLimitOrSuspended
| AccountNotAuthorized
| BorrowingServiceNotIntegrated.

(** [borrowBook(bookId)]: every path of the source ends in a throw. *)
Definition borrowBook (now : DateTime) (bookId : UUID) (u : t) : BorrowError :=
  if negb (canBorrow now u) then CannotBorrowLimitOrSuspended
  else if negb (isAuthorized u) then AccountNotAuthorized
  else BorrowingServiceNotIntegrated.

End Borrower.

(** ** The library: catalog, roster and loan ledger

    The descriptive fields of [Library] and its [librarians] and
    [notifications] maps, which no circulation method reads or writes, are
    left out of the state. *)

Module Library.

Record t : Type := mk {
  books : JsMap.t Book.t;
  users : JsMap.t Borrower.t;
  borrowingRecords : JsMap.t BorrowingRecord.t
}.

Definition new : t := mk JsMap.empty JsMap.empty JsMap.empty.

Definition set_books (v : JsMap.t Book.t) (s : t) : t :=
  mk v (users s) (borrowingRecords s).

Definition set_users (v : JsMap.t Borrower.t) (s : t) : t :=
  mk (books s) v (borrowingRecords s).

Definition set_borrowingRecords (v : JsMap.t BorrowingRecord.t) (s : t) : t :=
  mk (books s) (users s) v.

End Library.

(** ** Errors thrown by [Library] *)

Inductive LibraryError : Type :=
| BookAlreadyExists (bookId : UUID)
| BookNotFound (bookId : UUID)
| CannotRemoveBorrowedBook
| UserNotFound (userId : UUID)
| BookNotAvailable
| BookRestricted
| BorrowerNotAuthorized
| MaxBooksLimitReached
| NoActiveBorrowingRecord.

Definition error_message (e : LibraryError) : string :=
  match e with
  | BookAlreadyExists k => ("Book with ID " ++ k ++ " already exists.")%string
  | BookNotFound k => ("Book with ID " ++ k ++ " not found.")%string
  | CannotRemoveBorrowedBook => "Cannot remove a book that is currently borrowed."
  | UserNotFound k => ("User with ID " ++ k ++ " not found.")%string
  | BookNotAvailable => "Book is not available for borrowing."
  | BookRestricted => "Book is restricted and cannot be borrowed."
  | BorrowerNotAuthorized => "Borrower is not authorized to borrow books."
  | MaxBooksLimitReached => "Borrower has reached maximum books limit."
  | NoActiveBorrowingRecord =>
      "No active borrowing record found for this book and borrower."
  end.

(** The error kinds of the specification, as they classify the errors of
    the source. *)
Inductive ErrorKind : Type :=
| NotFound | DuplicateKey | Conflict | LimitExceeded | Unauthorized.

Definition error_kind (e : LibraryError) : ErrorKind :=
  match e with
  | BookAlreadyExists _ => DuplicateKey
  | BookNotFound _ | UserNotFound _ => NotFound
  | CannotRemoveBorrowedBook | BookNotAvailable | BookRestricted => Conflict
  | NoActiveBorrowingRecord => NotFound
  | BorrowerNotAuthorized => Unauthorized
  | MaxBooksLimitReached => LimitExceeded
  end.

(** ** A state and exception monad for the methods of [Library] *)

Definition M (A : Type) : Type :=
  Library.t -> (LibraryError + A) * Library.t.

Definition ret {A : Type} (a : A) : M A := fun s => (inr a, s).

Definition throw {A : Type} (e : LibraryError) : M A := fun s => (inl e, s).

Definition bind {A B : Type} (m : M A) (k : A -> M B) : M B :=
  fun s =>
    match m s with
    | (inl e, s') => (inl e, s')
    | (inr a, s') => k a s'
    end.

Definition gets {A : Type} (f : Library.t -> A) : M A := fun s => (inr (f s), s).

Definition modify (f : Library.t -> Library.t) : M unit :=
  fun s => (inr tt, f s).

(** [if (c) throw e;] *)
Definition throw_if (c : bool) (e : LibraryError) : M unit :=
  if c then throw e else ret tt.

Declare Scope lib_scope.
Delimit Scope lib_scope with lib.
Notation "x <- m ;; k" := (bind m (fun x => k))
  (at level 61, m at next level, right associativity) : lib_scope.
Notation "m ;; k" := (bind m (fun _ => k))
  (at level 61, right associativity) : lib_scope.
Local Open Scope lib_scope.

(** Mutation of the object stored under a key. *)
Definition update {V : Type} (k : UUID) (f : V -> V) (m : JsMap.t V) : JsMap.t V :=
  match JsMap.get k m with
  | Some v => JsMap.set k (f v) m
  | None => m
  end.

Definition update_book (k : UUID) (f : Book.t -> Book.t) : M unit :=
  modify (fun s => Library.set_books (update k f (Library.books s)) s).

Definition update_user (k : UUID) (f : Borrower.t -> Borrower.t) : M unit :=
  modify (fun s => Library.set_users (update k f (Library.users s)) s).

Definition update_record (k : UUID) (f : BorrowingRecord.t -> BorrowingRecord.t) : M unit :=
  modify (fun s =>
    Library.set_borrowingRecords (update k f (Library.borrowingRecords s)) s).

(** ** The methods of [Library] *)

Definition addBook (book : Book.t) : M unit :=
  exists_ <- gets (fun s => JsMap.has (Book.id book) (Library.books s)) ;;
  throw_if exists_ (BookAlreadyExists (Book.id book)) ;;
  modify (fun s =>
    Library.set_books (JsMap.set (Book.id book) book (Library.books s)) s).

Definition removeBook (bookId : UUID) : M unit :=
  found <- gets (fun s => JsMap.get bookId (Library.books s)) ;;
  match found with
  | None => throw (BookNotFound bookId)
  | Some book =>
      throw_if (negb (Book.isAvailable book)) CannotRemoveBorrowedBook ;;
      modify (fun s =>
        Library.set_books (JsMap.delete bookId (Library.books s)) s)
  end.

Definition getBook (bookId : UUID) : M Book.t :=
  found <- gets (fun s => JsMap.get bookId (Library.books s)) ;;
  match found with
  | None => throw (BookNotFound bookId)
  | Some book => ret book
  end.

Definition getAvailableBooks : M (list Book.t) :=
  gets (fun s =>
    filter (fun book => Book.isAvailable book && negb (Book.isRestricted book))
           (JsMap.values (Library.books s))).

(** [registerUser(userData)]; [userId] is the result of [uuidv4()]. *)
Definition registerUser (userData : UserData) (userId : UUID)
    (now1 now2 : DateTime) : M Borrower.t :=
  let borrower :=
    Borrower.new userId (ud_name userData) (ud_firstname userData)
      (ud_email userData) (ud_phone userData) (ud_address userData)
      now1 now2 in
  modify (fun s =>
    Library.set_users (JsMap.set userId borrower (Library.users s)) s) ;;
  ret borrower.

Definition getUser (userId : UUID) : M Borrower.t :=
  found <- gets (fun s => JsMap.get userId (Library.users s)) ;;
  match found with
  | None => throw (UserNotFound userId)
  | Some user => ret user
  end.

(** [calculateDueDate(borrowDate)]: a copy of [borrowDate] moved by
    [setDate(getDate() + DEFAULT_BORROWING_PERIOD)] in the time zone of the
    host; the category of the book is not a parameter of the method. *)
Definition calculateDueDate (zone : TimeZone.t) (borrowDate : DateTime)
    : DateTime :=
  setDate_getDate_plus zone borrowDate TIME_POLICIES.DEFAULT_BORROWING_PERIOD.

(** The three writes of [processBorrowing] on the book:
    [isAvailable = false], [borrowingHistory.push(record)] and
    [lastModified = new Date()]. *)
Definition book_lent (recordId : UUID) (now2 : DateTime) (b : Book.t) : Book.t :=
  Book.set_lastModified now2
    (Book.set_borrowingHistory (Book.borrowingHistory b ++ [recordId])
      (Book.set_isAvailable false b)).

(** The two writes of [processBorrowing] on the borrower:
    [borrowedBooks.push(bookId)] and [borrowingHistory.push(record)]. *)
Definition borrower_lent (bookId recordId : UUID) (u : Borrower.t) : Borrower.t :=
  Borrower.set_borrowingHistory (Borrower.borrowingHistory u ++ [recordId])
    (Borrower.set_borrowedBooks (Borrower.borrowedBooks u ++ [bookId]) u).

(** [processBorrowing(bookId, borrowerId)]; [zone] is the time zone of the
    host at the call, [now1] the clock reading taken for [borrowDate],
    [recordId] the result of [uuidv4()] and [now2] the clock reading taken
    for [lastModified]. *)
Definition processBorrowing (zone : TimeZone.t) (bookId borrowerId : UUID)
    (now1 : DateTime) (recordId : UUID) (now2 : DateTime)
    : M BorrowingRecord.t :=
  book <- getBook bookId ;;
  borrower <- getUser borrowerId ;;
  throw_if (negb (Book.isAvailable book)) BookNotAvailable ;;
  throw_if (Book.isRestricted book) BookRestricted ;;
  throw_if (negb (Borrower.isAuthorized borrower)) BorrowerNotAuthorized ;;
  throw_if (Borrower.maxBooksAllowed borrower
              <=? Z.of_nat (List.length (Borrower.borrowedBooks borrower)))
           MaxBooksLimitReached ;;
  let borrowDate := now1 in
  let dueDate := calculateDueDate zone borrowDate in
  let record := BorrowingRecord.new recordId bookId borrowerId borrowDate dueDate in
  update_book bookId (book_lent recordId now2) ;;
  update_user borrowerId (borrower_lent bookId recordId) ;;
  modify (fun s =>
    Library.set_borrowingRecords
      (JsMap.set recordId record (Library.borrowingRecords s)) s) ;;
  ret record.

(** The predicate of the [find] of [processReturn]. *)
Definition is_active_loan_of (bookId borrowerId : UUID)
    (record : BorrowingRecord.t) : bool :=
  String.eqb (BorrowingRecord.bookId record) bookId
  && String.eqb (BorrowingRecord.borrowerId record) borrowerId
  && BorrowingStatus_eqb (BorrowingRecord.status record) ACTIVE.

(** The writes of [processReturn] on the record that was found:
    [returnDate = new Date()] and [status = RETURNED]. *)
Definition record_returned (now1 : DateTime) (r : BorrowingRecord.t)
    : BorrowingRecord.t :=
  BorrowingRecord.set_status RETURNED
    (BorrowingRecord.set_returnDate (Some now1) r).

(** The writes of [processReturn] on the book: [isAvailable = true] and
    [lastModified = new Date()]. *)
Definition book_returned (now2 : DateTime) (b : Book.t) : Book.t :=
  Book.set_lastModified now2 (Book.set_isAvailable true b).

(** The write of [processReturn] on the borrower: [borrowedBooks] becomes
    [borrowedBooks.filter((id) => id !== bookId)]. *)
Definition borrower_returned (bookId : UUID) (u : Borrower.t) : Borrower.t :=
  Borrower.set_borrowedBooks
    (filter (fun id => negb (String.eqb id bookId)) (Borrower.borrowedBooks u)) u.

(** [processReturn(bookId, borrowerId)]; [now1] is the clock reading taken
    for [returnDate] and [now2] the one taken for [lastModified]. *)
Definition processReturn (bookId borrowerId : UUID) (now1 now2 : DateTime)
    : M unit :=
  book <- getBook bookId ;;
  borrower <- getUser borrowerId ;;
  activeRecord <- gets (fun s =>
    JsMap.find (is_active_loan_of bookId borrowerId)
               (Library.borrowingRecords s)) ;;
  match activeRecord with
  | None => throw NoActiveBorrowingRecord
  | Some (key, _) =>
      update_record key (record_returned now1) ;;
      update_book bookId (book_returned now2) ;;
      update_user borrowerId (borrower_returned bookId)
  end.

(** The predicate of the [filter] of [getOverdueBorrowings]. *)
Definition is_overdue (now : DateTime) (record : BorrowingRecord.t) : bool :=
  BorrowingStatus_eqb (BorrowingRecord.status record) ACTIVE
  && (BorrowingRecord.dueDate record <? now)
  && match BorrowingRecord.returnDate record with
     | None => true
     | Some _ => false
     end.

(** [getOverdueBorrowings()]; [now] is its clock reading. *)
Definition getOverdueBorrowings (now : DateTime) : M (list BorrowingRecord.t) :=
  gets (fun s =>
    filter (is_overdue now) (JsMap.values (Library.borrowingRecords s))).

(** ** Staff actions

    The methods of [Librarian] that stand for the staff actions
    (authorizeUser, revokeUserAuthorization, suspendUser, restrictBook,
    unrestrictBook, updatePhysicalState) check their arguments and log.
    The write each of them stands for, on one public field of one account
    or one entry, is the one the tests perform on the object itself. *)

(** Modelled from the spec: the write of the staff action that authorizes
    an account or revokes its authorization, which [Librarian.authorizeUser]
    and [Librarian.revokeUserAuthorization] do not perform. *)
Definition setAuthorized (userId : UUID) (v : bool) : M unit :=
  update_user userId (Borrower.set_isAuthorized v).

(** Modelled from the spec: the write of the staff action that sets or
    clears the suspension window of an account, which
    [Librarian.suspendUser] does not perform. *)
Definition setSuspensionEndDate (userId : UUID) (v : option DateTime) : M unit :=
  update_user userId (Borrower.set_suspensionEndDate v).

(** Modelled from the spec: the write of the staff action that restricts
    an entry or lifts the restriction, which [Librarian.restrictBook] and
    [Librarian.unrestrictBook] do not perform. *)
Definition setRestricted (bookId : UUID) (v : bool) : M unit :=
  update_book bookId (Book.set_isRestricted v).

(** Modelled from the spec: the write of the staff action that records the
    condition of an entry, which [Librarian.updatePhysicalState] does not
    perform. *)
Definition setPhysicalState (bookId : UUID) (v : PhysicalState) : M unit :=
  update_book bookId (Book.set_physicalState v).

(** ** The staff class *)

Module Librarian.

(** [authorizeUser(userId)] writes one line to the console and nothing
    else: a [Librarian] holds no reference to the library and the method
    reads no account.  The result stands for the line. *)
Definition authorizeUser (userId : UUID) : M string :=
  ret ("User " ++ userId ++ " authorized.")%string.

End Librarian.

(** ** Runs of the engine *)

Inductive Action : Type :=
| AddBook (book : Book.t)
| RemoveBook (bookId : UUID)
| RegisterUser (userData : UserData) (userId : UUID) (now1 now2 : DateTime)
| ProcessBorrowing (zone : TimeZone.t) (bookId borrowerId : UUID)
    (now1 : DateTime) (recordId : UUID) (now2 : DateTime)
| ProcessReturn (bookId borrowerId : UUID) (now1 now2 : DateTime)
| GetOverdueBorrowings (now : DateTime)
| SetAuthorized (userId : UUID) (v : bool)
| SetSuspensionEndDate (userId : UUID) (v : option DateTime)
| SetRestricted (bookId : UUID) (v : bool)
| SetPhysicalState (bookId : UUID) (v : PhysicalState).

Definition perform (a : Action) : M unit :=
  match a with
  | AddBook book => addBook book
  | RemoveBook bookId => removeBook bookId
  | RegisterUser userData userId now1 now2 =>
      registerUser userData userId now1 now2 ;; ret tt
  | ProcessBorrowing zone bookId borrowerId now1 recordId now2 =>
      processBorrowing zone bookId borrowerId now1 recordId now2 ;; ret tt
  | ProcessReturn bookId borrowerId now1 now2 =>
      processReturn bookId borrowerId now1 now2
  | GetOverdueBorrowings now => getOverdueBorrowings now ;; ret tt
  | SetAuthorized userId v => setAuthorized userId v
  | SetSuspensionEndDate userId v => setSuspensionEndDate userId v
  | SetRestricted bookId v => setRestricted bookId v
  | SetPhysicalState bookId v => setPhysicalState bookId v
  end.

(** The store an action leaves behind, whether it returned or threw. *)
Definition exec (a : Action) (s : Library.t) : Library.t := snd (perform a s).

(** An engine action is one of the methods of [Library]; the others are
    staff actions. *)
Definition is_engine_action (a : Action) : bool :=
  match a with
  | AddBook _ | RemoveBook _ | RegisterUser _ _ _ _
  | ProcessBorrowing _ _ _ _ _ _ | ProcessReturn _ _ _ _
  | GetOverdueBorrowings _ => true
  | _ => false
  end.

(** [uuidv4()] returns an identifier that the map it keys does not hold. *)
Definition fresh_uuid (s : Library.t) (a : Action) : Prop :=
  match a with
  | RegisterUser _ userId _ _ => JsMap.has userId (Library.users s) = false
  | ProcessBorrowing _ _ _ _ recordId _ =>
      JsMap.has recordId (Library.borrowingRecords s) = false
  | _ => True
  end.

(** The entries handed to [addBook] satisfy [P]. *)
Definition adds_only (P : Book.t -> Prop) (a : Action) : Prop :=
  match a with
  | AddBook book => P book
  | _ => True
  end.

(** The states the engine reaches from the empty library. *)
Inductive reachable (P : Book.t -> Prop) : Library.t -> Prop :=
| reachable_new : reachable P Library.new
| reachable_step : forall s a,
    reachable P s -> fresh_uuid s a -> adds_only P a ->
    reachable P (exec a s).

Definition any_entry (b : Book.t) : Prop := True.

Definition available_entry (b : Book.t) : Prop := Book.isAvailable b = true.

(** ** Properties of states *)

(** Some loan record on the entry [bookId] has status Active or Extended. *)
Definition on_loan (s : Library.t) (bookId : UUID) : Prop :=
  exists r, In r (JsMap.values (Library.borrowingRecords s))
    /\ BorrowingRecord.bookId r = bookId
    /\ (BorrowingRecord.status r = ACTIVE \/ BorrowingRecord.status r = EXTENDED).

(** The availability flag of every catalog entry tells whether the entry is
    on loan. *)
Definition availability_tracks_loans (s : Library.t) : Prop :=
  forall k b, JsMap.get k (Library.books s) = Some b ->
    (Book.isAvailable b = false <-> on_loan s (Book.id b)).

(** No account holds more loans than its cap. *)
Definition within_cap (s : Library.t) : Prop :=
  forall k u, JsMap.get k (Library.users s) = Some u ->
    Z.of_nat (List.length (Borrower.borrowedBooks u)) <= Borrower.maxBooksAllowed u.

(** The consistency the engine keeps between the catalog and the ledger. *)
Record consistent (s : Library.t) : Prop := mk_consistent {
  ledger_wf : JsMap.wf (Library.borrowingRecords s);
  ledger_status : forall k r,
    JsMap.get k (Library.borrowingRecords s) = Some r ->
    (BorrowingRecord.status r = ACTIVE /\ BorrowingRecord.returnDate r = None)
    \/ (BorrowingRecord.status r = RETURNED
        /\ BorrowingRecord.returnDate r <> None);
  active_unavailable : forall k r,
    JsMap.get k (Library.borrowingRecords s) = Some r ->
    BorrowingRecord.status r = ACTIVE ->
    exists b, JsMap.get (BorrowingRecord.bookId r) (Library.books s) = Some b
      /\ Book.isAvailable b = false;
  active_unique : forall k1 r1 k2 r2,
    JsMap.get k1 (Library.borrowingRecords s) = Some r1 ->
    JsMap.get k2 (Library.borrowingRecords s) = Some r2 ->
    BorrowingRecord.status r1 = ACTIVE ->
    BorrowingRecord.status r2 = ACTIVE ->
    BorrowingRecord.bookId r1 = BorrowingRecord.bookId r2 ->
    k1 = k2;
  catalog_keys : forall k b,
    JsMap.get k (Library.books s) = Some b -> Book.id b = k
}.

(** Every unavailable entry has an Active record in the ledger. *)
Definition unavailable_active (s : Library.t) : Prop :=
  forall k b, JsMap.get k (Library.books s) = Some b ->
    Book.isAvailable b = false ->
    exists kr r, JsMap.get kr (Library.borrowingRecords s) = Some r
      /\ BorrowingRecord.bookId r = k /\ BorrowingRecord.status r = ACTIVE.

(** An open loan record: not returned and not in a terminal status. *)
Definition is_open (r : BorrowingRecord.t) : Prop :=
  BorrowingRecord.returnDate r = None
  /\ BorrowingRecord.status r <> RETURNED
  /\ BorrowingRecord.status r <> CANCELLED.

(** [l1] is [l2] with some elements left out, the others in their order. *)
Inductive subsequence {A : Type} : list A -> list A -> Prop :=
| subsequence_nil : subsequence [] []
| subsequence_skip : forall x l1 l2, subsequence l1 l2 -> subsequence l1 (x :: l2)
| subsequence_keep : forall x l1 l2, subsequence l1 l2 -> subsequence (x :: l1) (x :: l2).

(** Ascending by due date. *)
Fixpoint sorted_by_dueDate (l : list BorrowingRecord.t) : bool :=
  match l with
  | [] => true
  | r :: l' =>
      match l' with
      | [] => true
      | r' :: _ => (BorrowingRecord.dueDate r <=? BorrowingRecord.dueDate r')
      end && sorted_by_dueDate l'
  end.

(** ** The eligibility gate and the loan period as the specification words
    them, for comparison with [Borrower.canBorrow] and [calculateDueDate] *)

Definition canBorrow_spec (now : DateTime) (u : Borrower.t) : bool :=
  Borrower.isAuthorized u
  && negb (Borrower.isSuspended now u)
  && (Z.of_nat (List.length (Borrower.borrowedBooks u)) <? Borrower.maxBooksAllowed u).

Definition policyPeriod_spec (c : BookCategory) : Z :=
  match c with
  | REFERENCE => TIME_POLICIES.REFERENCE_BORROWING_PERIOD
  | _ => TIME_POLICIES.DEFAULT_BORROWING_PERIOD
  end.

(** The account [userId] exists and is not authorized. *)
Definition unauthorized (s : Library.t) (userId : UUID) : Prop :=
  exists u, JsMap.get userId (Library.users s) = Some u
    /\ Borrower.isAuthorized u = false.

(** ** Runs from a list of actions, and sample data after
    tests/domains/Library.test.ts *)

Definition run (l : list Action) (s : Library.t) : Library.t :=
  fold_left (fun s' a => exec a s') l s.

Fixpoint run_ok (P : Book.t -> Prop) (l : list Action) (s : Library.t) : Prop :=
  match l with
  | [] => True
  | a :: l' => fresh_uuid s a /\ adds_only P a /\ run_ok P l' (exec a s)
  end.

Definition day (n : Z) : DateTime := n * MS_PER_DAY.

Definition testBook (id : UUID) (category : BookCategory) : Book.t :=
  Book.new id "Clean Code" "Robert C. Martin" "978-0132350884"
    "Prentice Hall" 2008 category "" "" (day 0) (day 0).

Definition testUserData : UserData :=
  mkUserData "Dupont" "Marie" "marie.dupont@example.com" "+33612345678"
    "10 rue Test".

(** One entry in the catalog and one registered, authorized account. *)
Definition member_actions (category : BookCategory) : list Action :=
  [ AddBook (testBook "book-001" category);
    RegisterUser testUserData "user-001" (day 0) (day 0);
    SetAuthorized "user-001" true ].

Definition s_member : Library.t := run (member_actions TECHNOLOGY) Library.new.

(** The account is suspended until day 7. *)
Definition s_suspended : Library.t :=
  exec (SetSuspensionEndDate "user-001" (Some (day 7))) s_member.

(** The entry is damaged. *)
Definition s_damaged : Library.t :=
  exec (SetPhysicalState "book-001" DAMAGED) s_member.

(** The entry is of the reference category. *)
Definition s_reference : Library.t := run (member_actions REFERENCE) Library.new.

(** The entry was borrowed on day 0. *)
Definition s_on_loan : Library.t :=
  exec (ProcessBorrowing TimeZone.UTC "book-001" "user-001" (day 0) "rec-001" (day 0)) s_member.

(** Four entries, three of them lent to the one account on day 0. *)
Definition at_cap_actions : list Action :=
  [ AddBook (testBook "book-001" TECHNOLOGY);
    AddBook (testBook "book-002" FICTION);
    AddBook (testBook "book-003" HISTORY);
    AddBook (testBook "book-004" SCIENCE);
    RegisterUser testUserData "user-001" (day 0) (day 0);
    SetAuthorized "user-001" true;
    ProcessBorrowing TimeZone.UTC "book-001" "user-001" (day 0) "rec-001" (day 0);
    ProcessBorrowing TimeZone.UTC "book-002" "user-001" (day 0) "rec-002" (day 0);
    ProcessBorrowing TimeZone.UTC "book-003" "user-001" (day 0) "rec-003" (day 0) ].

Definition s_at_cap : Library.t := run at_cap_actions Library.new.

(** An entry whose availability flag was cleared before it was handed to
    [addBook], as the test of [getAvailableBooks] does. *)
Definition s_unavailable_added : Library.t :=
  exec (AddBook (Book.set_isAvailable false (testBook "book-002" FICTION)))
       Library.new.

(** One restricted entry in the catalog and one account as registration
    leaves it. *)
Definition s_registered : Library.t :=
  run [ AddBook (testBook "book-001" TECHNOLOGY);
        SetRestricted "book-001" true;
        RegisterUser testUserData "user-001" (day 0) (day 0) ] Library.new.

(** An unreturned loan made on day 0 to user-001 whose due date and status
    were written afterwards. *)
Definition loan (recordId bookId : UUID) (due : DateTime) (st : BorrowingStatus)
    : BorrowingRecord.t :=
  BorrowingRecord.set_status st
    (BorrowingRecord.set_dueDate due
      (BorrowingRecord.new recordId bookId "user-001" (day 0)
         (calculateDueDate TimeZone.UTC (day 0)))).

(** A ledger of three unreturned loans whose due dates were written after
    the loans were made, as the tests of [getOverdueBorrowings] do: due on
    day 20, on day 10 and on day 5, the last one with status Extended. *)
Definition s_unsorted : Library.t :=
  Library.mk JsMap.empty JsMap.empty
    [ ("rec-001", loan "rec-001" "book-001" (day 20) ACTIVE);
      ("rec-002", loan "rec-002" "book-002" (day 10) ACTIVE);
      ("rec-003", loan "rec-003" "book-003" (day 5) EXTENDED) ].

(** Two loans made by the engine, the clock having been set back from day
    10 to day 0 between them. *)
Definition s_clock_set_back : Library.t :=
  run [ AddBook (testBook "book-001" TECHNOLOGY);
        AddBook (testBook "book-002" FICTION);
        RegisterUser testUserData "user-001" (day 0) (day 0);
        SetAuthorized "user-001" true;
        ProcessBorrowing TimeZone.UTC "book-001" "user-001" (day 10) "rec-001" (day 10);
        ProcessBorrowing TimeZone.UTC "book-002" "user-001" (day 0) "rec-002" (day 0) ]
      Library.new.

(** Three entries and one authorized account that borrowed book-001 on
    day 0 in UTC. *)
Definition one_loan_actions : list Action :=
  [ AddBook (testBook "book-001" TECHNOLOGY);
    AddBook (testBook "book-002" FICTION);
    AddBook (testBook "book-003" HISTORY);
    RegisterUser testUserData "user-001" (day 0) (day 0);
    SetAuthorized "user-001" true;
    ProcessBorrowing TimeZone.UTC "book-001" "user-001" (day 0) "rec-001" (day 0) ].

Definition s_one_loan : Library.t := run one_loan_actions Library.new.

(** The account then borrowed book-002 on day 1. *)
Definition two_loans_actions : list Action :=
  one_loan_actions
  ++ [ ProcessBorrowing TimeZone.UTC "book-002" "user-001" (day 1) "rec-002" (day 1) ].

Definition s_two_loans : Library.t := run two_loans_actions Library.new.

(** It then borrowed book-003 on day 2 and returned book-002 on day 5. *)
Definition three_loans_actions : list Action :=
  two_loans_actions
  ++ [ ProcessBorrowing TimeZone.UTC "book-003" "user-001" (day 2) "rec-003" (day 2);
       ProcessReturn "book-002" "user-001" (day 5) (day 5) ].

Definition s_three_loans : Library.t := run three_loans_actions Library.new.

(** One entry in the catalog and one account as registration leaves it. *)
Definition s_newcomer : Library.t :=
  run [ AddBook (testBook "book-001" TECHNOLOGY);
        RegisterUser testUserData "user-001" (day 0) (day 0) ] Library.new.

(** ** Further methods of [Library] and [Borrower] *)

(** [getAllBooks()] and [getAllUsers()]: the values of the maps in
    insertion order. *)
Definition getAllBooks : M (list Book.t) :=
  gets (fun s => JsMap.values (Library.books s)).

Definition getAllUsers : M (list Borrower.t) :=
  gets (fun s => JsMap.values (Library.users s)).

Module UserProfile.

(** The interface [UserProfile] of src/types/common.types.ts; [address] is
    its one optional field. *)
Record t : Type := mk {
  id : UUID;
  name : string;
  firstname : string;
  email : Email;
  phone : PhoneNumber;
  address : option string;
  isActive : bool;
  lastLogin : DateTime
}.

End UserProfile.

Module PartialUserProfile.

(** [PartialUpdate<UserProfile>]: every field may be left undefined. *)
Record t : Type := mk {
  id : option UUID;
  name : option string;
  firstname : option string;
  email : option Email;
  phone : option PhoneNumber;
  address : option string;
  isActive : option bool;
  lastLogin : option DateTime
}.

(** A profile handed over where a partial profile is expected. *)
Definition of_profile (p : UserProfile.t) : t :=
  mk (Some (UserProfile.id p)) (Some (UserProfile.name p))
     (Some (UserProfile.firstname p)) (Some (UserProfile.email p))
     (Some (UserProfile.phone p)) (UserProfile.address p)
     (Some (UserProfile.isActive p)) (Some (UserProfile.lastLogin p)).

(** [{...p, ...q}]: the fields of [q] that are defined, the fields of [p]
    for the others. *)
Definition merge (p q : t) : t :=
  let pick {A : Type} (a b : option A) : option A :=
    match b with Some _ => b | None => a end in
  mk (pick (id p) (id q)) (pick (name p) (name q))
     (pick (firstname p) (firstname q)) (pick (email p) (email q))
     (pick (phone p) (phone q)) (pick (address p) (address q))
     (pick (isActive p) (isActive q)) (pick (lastLogin p) (lastLogin q)).

End PartialUserProfile.

Module BorrowerMethods.

(** [getProfile()]; [now] is the clock reading of [isActive()]. *)
Definition getProfile (now : DateTime) (u : Borrower.t) : UserProfile.t :=
  UserProfile.mk (Borrower.id u) (Borrower.name u) (Borrower.firstname u)
    (Borrower.email u) (Borrower.phone u) (Some (Borrower.address u))
    (Borrower.isActive now u) (Borrower.lastLogin u).

(** [if (x !== undefined) field = x]. *)
Definition assign_if_defined {A : Type} (x : option A) (field : A) : A :=
  match x with
  | Some v => v
  | None => field
  end.

(** [updateProfile(profileData)]: five assignments, each guarded by its
    own field of [profileData]. *)
Definition updateProfile (profileData : PartialUserProfile.t) (u : Borrower.t)
    : Borrower.t :=
  Borrower.mk (Borrower.id u)
    (assign_if_defined (PartialUserProfile.name profileData) (Borrower.name u))
    (assign_if_defined (PartialUserProfile.firstname profileData)
       (Borrower.firstname u))
    (assign_if_defined (PartialUserProfile.email profileData) (Borrower.email u))
    (assign_if_defined (PartialUserProfile.phone profileData) (Borrower.phone u))
    (assign_if_defined (PartialUserProfile.address profileData)
       (Borrower.address u))
    (Borrower.registrationDate u) (Borrower.isAuthorized u)
    (Borrower.isActiveStatus u) (Borrower.suspensionEndDate u)
    (Borrower.borrowedBooks u) (Borrower.borrowingHistory u)
    (Borrower.maxBooksAllowed u) (Borrower.notificationsEnabled u)
    (Borrower.lastLogin u).

(** [getId()]. *)
Definition getId (u : Borrower.t) : UUID := Borrower.id u.

(** [getMyBorrowingHistory()]: a copy of the array of the account. *)
Definition getMyBorrowingHistory (u : Borrower.t) : list UUID :=
  Borrower.borrowingHistory u.

Inductive ReturnError : Type :=
| CannotReturnNotBorrowed
| ReturnServiceNotIntegrated.

(** [borrowedBooks.includes(bookId)]. *)
Definition includes (bookId : UUID) (l : list UUID) : bool :=
  existsb (fun id => String.eqb id bookId) l.

(** [returnBook(bookId)]: both paths of the source end in a throw, the
    second one after the write of [borrowedBooks]; the result is the error
    and the account as the call leaves it. *)
Definition returnBook (bookId : UUID) (u : Borrower.t)
    : ReturnError * Borrower.t :=
  if negb (includes bookId (Borrower.borrowedBooks u))
  then (CannotReturnNotBorrowed, u)
  else (ReturnServiceNotIntegrated, borrower_returned bookId u).

End BorrowerMethods.

(** [library.getUser(userId).returnBook(bookId)] with the throws caught:
    the account in the roster is the object the method writes to. *)
Definition call_returnBook (userId bookId : UUID) (s : Library.t) : Library.t :=
  match JsMap.get userId (Library.users s) with
  | Some u =>
      Library.set_users
        (JsMap.set userId (snd (BorrowerMethods.returnBook bookId u))
           (Library.users s)) s
  | None => s
  end.

(** ** What an action can do to the store *)

(** [outcome s a s']: the store [s'] is one that action [a] can leave
    behind from [s]; either nothing was written, or the action passed its
    guards and made its writes. *)
Inductive outcome (s : Library.t) : Action -> Library.t -> Prop :=
| outcome_unchanged : forall a, outcome s a s
| outcome_addBook : forall book,
    JsMap.get (Book.id book) (Library.books s) = None ->
    outcome s (AddBook book)
      (Library.set_books (JsMap.set (Book.id book) book (Library.books s)) s)
| outcome_removeBook : forall bookId book,
    JsMap.get bookId (Library.books s) = Some book ->
    Book.isAvailable book = true ->
    outcome s (RemoveBook bookId)
      (Library.set_books (JsMap.delete bookId (Library.books s)) s)
| outcome_registerUser : forall userData userId now1 now2,
    outcome s (RegisterUser userData userId now1 now2)
      (Library.set_users
         (JsMap.set userId
            (Borrower.new userId (ud_name userData) (ud_firstname userData)
               (ud_email userData) (ud_phone userData) (ud_address userData)
               now1 now2)
            (Library.users s)) s)
| outcome_borrow : forall zone bookId borrowerId now1 recordId now2 book u,
    JsMap.get bookId (Library.books s) = Some book ->
    JsMap.get borrowerId (Library.users s) = Some u ->
    Book.isAvailable book = true ->
    Book.isRestricted book = false ->
    Borrower.isAuthorized u = true ->
    Z.of_nat (List.length (Borrower.borrowedBooks u)) < Borrower.maxBooksAllowed u ->
    outcome s (ProcessBorrowing zone bookId borrowerId now1 recordId now2)
      (Library.mk
         (JsMap.set bookId (book_lent recordId now2 book) (Library.books s))
         (JsMap.set borrowerId (borrower_lent bookId recordId u) (Library.users s))
         (JsMap.set recordId
            (BorrowingRecord.new recordId bookId borrowerId now1
               (calculateDueDate zone now1))
            (Library.borrowingRecords s)))
| outcome_return : forall bookId borrowerId now1 now2 book u key r,
    JsMap.get bookId (Library.books s) = Some book ->
    JsMap.get borrowerId (Library.users s) = Some u ->
    JsMap.find (is_active_loan_of bookId borrowerId) (Library.borrowingRecords s)
      = Some (key, r) ->
    outcome s (ProcessReturn bookId borrowerId now1 now2)
      (Library.mk
         (JsMap.set bookId (book_returned now2 book) (Library.books s))
         (JsMap.set borrowerId (borrower_returned bookId u) (Library.users s))
         (update key (record_returned now1) (Library.borrowingRecords s)))
| outcome_setAuthorized : forall userId v,
    outcome s (SetAuthorized userId v)
      (Library.set_users
         (update userId (Borrower.set_isAuthorized v) (Library.users s)) s)
| outcome_setSuspensionEndDate : forall userId v,
    outcome s (SetSuspensionEndDate userId v)
      (Library.set_users
         (update userId (Borrower.set_suspensionEndDate v) (Library.users s)) s)
| outcome_setRestricted : forall bookId v,
    outcome s (SetRestricted bookId v)
      (Library.set_books
         (update bookId (Book.set_isRestricted v) (Library.books s)) s)
| outcome_setPhysicalState : forall bookId v,
    outcome s (SetPhysicalState bookId v)
      (Library.set_books
         (update bookId (Book.set_physicalState v) (Library.books s)) s).

(** ** Links between the roster and the ledger *)

(** The ledger holds an Active record of the entry [bookId] for the account
    [userId]. *)
Definition holds_active (s : Library.t) (userId bookId : UUID) : Prop :=
  exists k r, JsMap.get k (Library.borrowingRecords s) = Some r
    /\ BorrowingRecord.bookId r = bookId
    /\ BorrowingRecord.borrowerId r = userId
    /\ BorrowingRecord.status r = ACTIVE.

(** The books an account holds are the entries of its Active records. *)
Definition loans_match (s : Library.t) : Prop :=
  forall userId u, JsMap.get userId (Library.users s) = Some u ->
    forall bookId,
      In bookId (Borrower.borrowedBooks u) <-> holds_active s userId bookId.

(** The keys of the records of the account [userId], in ledger order. *)
Definition records_of (userId : UUID) (m : JsMap.t BorrowingRecord.t) : list UUID :=
  map fst
    (filter (fun kr => String.eqb (BorrowingRecord.borrowerId (snd kr)) userId) m).

(** The history of an account lists its records in the order of the
    ledger. *)
Definition history_matches (s : Library.t) : Prop :=
  forall userId u, JsMap.get userId (Library.users s) = Some u ->
    Borrower.borrowingHistory u = records_of userId (Library.borrowingRecords s).

(** Every object is stored under its own id, each map holds each key once,
    and every account has the cap the constructor gave it. *)
Record well_keyed (s : Library.t) : Prop := mk_well_keyed {
  books_wf : JsMap.wf (Library.books s);
  users_wf : JsMap.wf (Library.users s);
  users_keys : forall k u,
    JsMap.get k (Library.users s) = Some u -> Borrower.id u = k;
  ledger_keys : forall k r,
    JsMap.get k (Library.borrowingRecords s) = Some r -> BorrowingRecord.id r = k;
  cap_default : forall k u,
    JsMap.get k (Library.users s) = Some u -> Borrower.maxBooksAllowed u = 3
}.

(** Every record of the ledger names a registered account. *)
Definition borrowers_registered (s : Library.t) : Prop :=
  forall k r, JsMap.get k (Library.borrowingRecords s) = Some r ->
    exists u, JsMap.get (BorrowingRecord.borrowerId r) (Library.users s) = Some u.

(** What the roster and the ledger say of each other. *)
Record linked (s : Library.t) : Prop := mk_linked {
  linked_borrowers : borrowers_registered s;
  linked_loans : loans_match s;
  linked_nodup : forall k u,
    JsMap.get k (Library.users s) = Some u -> NoDup (Borrower.borrowedBooks u);
  linked_history : history_matches s
}.

(** A record keeps what identifies the loan: every field but the return
    date and the status. *)
Definition same_loan (r r' : BorrowingRecord.t) : Prop :=
  BorrowingRecord.id r' = BorrowingRecord.id r
  /\ BorrowingRecord.bookId r' = BorrowingRecord.bookId r
  /\ BorrowingRecord.borrowerId r' = BorrowingRecord.borrowerId r
  /\ BorrowingRecord.borrowDate r' = BorrowingRecord.borrowDate r
  /\ BorrowingRecord.dueDate r' = BorrowingRecord.dueDate r
  /\ BorrowingRecord.isExtended r' = BorrowingRecord.isExtended r
  /\ BorrowingRecord.extensionCount r' = BorrowingRecord.extensionCount r.

(** The catalog entry and the account an action names. *)
Definition book_of_action (a : Action) : option UUID :=
  match a with
  | AddBook book => Some (Book.id book)
  | RemoveBook bookId => Some bookId
  | ProcessBorrowing _ bookId _ _ _ _ => Some bookId
  | ProcessReturn bookId _ _ _ => Some bookId
  | SetRestricted bookId _ => Some bookId
  | SetPhysicalState bookId _ => Some bookId
  | _ => None
  end.

Definition user_of_action (a : Action) : option UUID :=
  match a with
  | RegisterUser _ userId _ _ => Some userId
  | ProcessBorrowing _ _ borrowerId _ _ _ => Some borrowerId
  | ProcessReturn _ borrowerId _ _ => Some borrowerId
  | SetAuthorized userId _ => Some userId
  | SetSuspensionEndDate userId _ => Some userId
  | _ => None
  end.

(** The states reached from the empty library by actions that satisfy
    [Q]. *)
Inductive reachable_by (Q : Action -> Prop) : Library.t -> Prop :=
| reachable_by_new : reachable_by Q Library.new
| reachable_by_step : forall s a,
    reachable_by Q s -> fresh_uuid s a -> Q a ->
    reachable_by Q (exec a s).

Fixpoint run_ok_by (Q : Action -> Prop) (l : list Action) (s : Library.t)
    : Prop :=
  match l with
  | [] => True
  | a :: l' => fresh_uuid s a /\ Q a /\ run_ok_by Q l' (exec a s)
  end.

(** A borrow made on a host whose zone has a fixed offset, at a clock
    reading that a loan period of days of 24 hours leaves in the range of
    [Date]. *)
Definition in_fixed_zone (a : Action) : Prop :=
  match a with
  | ProcessBorrowing zone _ _ now1 _ _ =>
      TimeZone.fixed zone
      /\ in_Date_range (addDays now1 TIME_POLICIES.DEFAULT_BORROWING_PERIOD)
  | _ => True
  end.

(** A record as [processBorrowing] makes it in a zone with a fixed offset:
    due a loan period of days of 24 hours after the borrow date, and never
    extended. *)
Definition as_made (r : BorrowingRecord.t) : Prop :=
  BorrowingRecord.dueDate r
  = addDays (BorrowingRecord.borrowDate r) TIME_POLICIES.DEFAULT_BORROWING_PERIOD
  /\ BorrowingRecord.isExtended r = false
  /\ BorrowingRecord.extensionCount r = 0.

(** ** Reminders *)

(** [Math.ceil(a / b)] for a positive [b].  The operands are clock
    readings of [Date], integers of at most 8.64e15 in absolute value: the
    quotient of the doubles has ceiling 1 or 3, the values
    [sendDueDateReminders] looks for, exactly when the quotient of the
    integers has. *)
Definition ceil_div (a b : Z) : Z := - ((- a) / b).

Definition daysUntilDue (now : DateTime) (record : BorrowingRecord.t) : Z :=
  ceil_div (BorrowingRecord.dueDate record - now) (1000 * 60 * 60 * 24).

(** The records that pass the early [return] of the [forEach] of
    [sendDueDateReminders]. *)
Definition is_unreturned (record : BorrowingRecord.t) : bool :=
  negb (negb (BorrowingStatus_eqb (BorrowingRecord.status record) ACTIVE)
        || match BorrowingRecord.returnDate record with
           | Some _ => true
           | None => false
           end).

(** [reminderDays.includes(daysUntilDue)]. *)
Definition is_reminder_day (d : Z) : bool :=
  existsb (Z.eqb d) TIME_POLICIES.REMINDER_DAYS_BEFORE_DUE.

(** [sendDueDateReminders()]; [now] is its clock reading.  The result
    stands for the lines written to the console: the number of days and
    the borrower of each reminder, in the order of the ledger. *)
Definition sendDueDateReminders (now : DateTime) : M (list (Z * UUID)) :=
  gets (fun s =>
    map (fun record => (daysUntilDue now record, BorrowingRecord.borrowerId record))
      (filter (fun record =>
                 is_unreturned record && is_reminder_day (daysUntilDue now record))
         (JsMap.values (Library.borrowingRecords s)))).

(** * Facts *)

(** ** Facts about [JsMap] *)

Module JsMapFacts.
Import JsMap.

Section Facts.
Context {V : Type}.
Implicit Types (k : UUID) (v : V) (m : JsMap.t V).

Lemma get_set_eq k v m : get k (set k v m) = Some v.
Proof.
  induction m as [|[k' v'] m IH]; simpl.
  - now rewrite String.eqb_refl.
  - destruct (String.eqb k' k) eqn:E; simpl.
    + now rewrite String.eqb_refl.
    + now rewrite E.
Qed.

Lemma get_set_neq k k' v m : k <> k' -> get k' (set k v m) = get k' m.
Proof.
  intros Hne. induction m as [|[k0 v0] m IH]; simpl.
  - apply String.eqb_neq in Hne. now rewrite Hne.
  - destruct (String.eqb k0 k) eqn:E; simpl.
    + apply String.eqb_eq in E. subst k0.
      apply String.eqb_neq in Hne. now rewrite Hne.
    + destruct (String.eqb k0 k'); auto.
Qed.

Lemma get_delete_eq k m : get k (delete k m) = None.
Proof.
  induction m as [|[k0 v0] m IH]; simpl; auto.
  destruct (String.eqb k0 k) eqn:E; simpl; auto.
  now rewrite E.
Qed.

Lemma get_delete_neq k k' m : k <> k' -> get k' (delete k m) = get k' m.
Proof.
  intros Hne. induction m as [|[k0 v0] m IH]; simpl; auto.
  destruct (String.eqb k0 k) eqn:E; simpl.
  - apply String.eqb_eq in E. subst k0.
    apply String.eqb_neq in Hne. now rewrite Hne.
  - destruct (String.eqb k0 k'); auto.
Qed.

Lemma has_false_get k m : has k m = false -> get k m = None.
Proof. unfold has. now destruct (get k m). Qed.

Lemma has_true_get k m : has k m = true -> exists v, get k m = Some v.
Proof. unfold has. destruct (get k m) as [v|]; [eauto | discriminate]. Qed.

Lemma get_In k v m : get k m = Some v -> In (k, v) m.
Proof.
  induction m as [|[k0 v0] m IH]; simpl; [discriminate|].
  destruct (String.eqb k0 k) eqn:E.
  - intros [= ->]. apply String.eqb_eq in E. subst. now left.
  - intros H. right. auto.
Qed.

Lemma In_keys k v m : In (k, v) m -> In k (keys m).
Proof. intros H. apply (in_map fst) in H. exact H. Qed.

Lemma In_get k v m : wf m -> In (k, v) m -> get k m = Some v.
Proof.
  unfold wf. induction m as [|[k0 v0] m IH]; simpl; [tauto|].
  intros Hnd [H | H].
  - injection H as -> ->. now rewrite String.eqb_refl.
  - inversion Hnd as [|? ? Hnotin Hnd']; subst.
    destruct (String.eqb k0 k) eqn:E.
    + apply String.eqb_eq in E. subst k0.
      exfalso. apply Hnotin. eapply In_keys; eauto.
    + auto.
Qed.

Lemma get_None_keys k m : get k m = None -> ~ In k (keys m).
Proof.
  induction m as [|[k0 v0] m IH]; simpl; [tauto|].
  destruct (String.eqb k0 k) eqn:E; [discriminate|].
  intros H [H1 | H1].
  - subst. now rewrite String.eqb_refl in E.
  - now apply IH.
Qed.

Lemma keys_set_present k v v0 m : get k m = Some v0 -> keys (set k v m) = keys m.
Proof.
  induction m as [|[k1 v1] m IH]; simpl; [discriminate|].
  destruct (String.eqb k1 k) eqn:E; simpl.
  - intros _. apply String.eqb_eq in E. now subst.
  - intros H. f_equal. auto.
Qed.

Lemma set_absent k v m : get k m = None -> set k v m = m ++ [(k, v)].
Proof.
  induction m as [|[k1 v1] m IH]; simpl; auto.
  destruct (String.eqb k1 k) eqn:E; [discriminate|].
  intros H. f_equal. auto.
Qed.

Lemma wf_set k v m : wf m -> wf (set k v m).
Proof.
  unfold wf. intros Hwf.
  destruct (get k m) as [v0|] eqn:E.
  - now rewrite (keys_set_present k v v0 m E).
  - rewrite (set_absent k v m E). unfold keys. rewrite map_app. simpl.
    apply NoDup_app; auto.
    + constructor; [simpl; tauto | constructor].
    + intros x Hx [<- | []]. revert Hx. now apply get_None_keys.
Qed.

Lemma wf_empty : wf (@empty V).
Proof. constructor. Qed.

Lemma find_Some p k v m : find p m = Some (k, v) -> In (k, v) m /\ p v = true.
Proof.
  induction m as [|[k0 v0] m IH]; simpl; [discriminate|].
  destruct (p v0) eqn:E.
  - intros [= -> ->]. auto.
  - intros H. destruct (IH H). auto.
Qed.

Lemma find_None p m : find p m = None -> forall k v, In (k, v) m -> p v = false.
Proof.
  induction m as [|[k0 v0] m IH]; simpl; [tauto|].
  destruct (p v0) eqn:E; [discriminate|].
  intros H k v [[= -> ->] | Hin]; eauto.
Qed.

Lemma find_app_skip p m k v :
  (forall k' v', In (k', v') m -> p v' = false) -> p v = true ->
  find p (m ++ [(k, v)]) = Some (k, v).
Proof.
  intros Hm Hv. induction m as [|[k0 v0] m IH]; simpl.
  - now rewrite Hv.
  - rewrite (Hm k0 v0) by now left. apply IH. intros; apply (Hm k'); now right.
Qed.

Lemma In_values v m : In v (values m) <-> exists k, In (k, v) m.
Proof.
  unfold values. rewrite in_map_iff. split.
  - intros [[k v'] [<- H]]. eauto.
  - intros [k H]. exists (k, v). auto.
Qed.

Lemma get_update_eq k (f : V -> V) m :
  get k (update k f m) = option_map f (get k m).
Proof.
  unfold update. destruct (get k m) as [v|] eqn:E; simpl.
  - apply get_set_eq.
  - exact E.
Qed.

Lemma get_update_neq k k' (f : V -> V) m :
  k <> k' -> get k' (update k f m) = get k' m.
Proof.
  intros Hne. unfold update. destruct (get k m); auto using get_set_neq.
Qed.

Lemma wf_update k (f : V -> V) m : wf m -> wf (update k f m).
Proof. unfold update. destruct (get k m); auto using wf_set. Qed.

End Facts.
End JsMapFacts.

(** ** The methods in closed form

    Each method is a sequence of guards followed by writes; no guard comes
    after a write. *)

Section Runs.
Import JsMapFacts.

Lemma addBook_run book s :
  addBook book s =
  if JsMap.has (Book.id book) (Library.books s)
  then (inl (BookAlreadyExists (Book.id book)), s)
  else (inr tt,
        Library.set_books (JsMap.set (Book.id book) book (Library.books s)) s).
Proof.
  unfold addBook, bind, gets, throw_if, modify; simpl.
  now destruct (JsMap.has (Book.id book) (Library.books s)).
Qed.

Lemma removeBook_run bookId s :
  removeBook bookId s =
  match JsMap.get bookId (Library.books s) with
  | None => (inl (BookNotFound bookId), s)
  | Some book =>
      if Book.isAvailable book
      then (inr tt,
            Library.set_books (JsMap.delete bookId (Library.books s)) s)
      else (inl CannotRemoveBorrowedBook, s)
  end.
Proof.
  unfold removeBook, bind, gets, throw_if, modify; simpl.
  destruct (JsMap.get bookId (Library.books s)) as [book|]; [|reflexivity].
  now destruct (Book.isAvailable book).
Qed.

Lemma registerUser_run userData userId now1 now2 s :
  registerUser userData userId now1 now2 s =
  let borrower :=
    Borrower.new userId (ud_name userData) (ud_firstname userData)
      (ud_email userData) (ud_phone userData) (ud_address userData) now1 now2 in
  (inr borrower,
   Library.set_users (JsMap.set userId borrower (Library.users s)) s).
Proof. reflexivity. Qed.

Lemma processBorrowing_run zone bookId borrowerId now1 recordId now2 s :
  processBorrowing zone bookId borrowerId now1 recordId now2 s =
  match JsMap.get bookId (Library.books s) with
  | None => (inl (BookNotFound bookId), s)
  | Some book =>
    match JsMap.get borrowerId (Library.users s) with
    | None => (inl (UserNotFound borrowerId), s)
    | Some borrower =>
      if negb (Book.isAvailable book) then (inl BookNotAvailable, s)
      else if Book.isRestricted book then (inl BookRestricted, s)
      else if negb (Borrower.isAuthorized borrower)
      then (inl BorrowerNotAuthorized, s)
      else if Borrower.maxBooksAllowed borrower
                <=? Z.of_nat (List.length (Borrower.borrowedBooks borrower))
      then (inl MaxBooksLimitReached, s)
      else
        (inr (BorrowingRecord.new recordId bookId borrowerId now1
                (calculateDueDate zone now1)),
         Library.mk
           (JsMap.set bookId (book_lent recordId now2 book) (Library.books s))
           (JsMap.set borrowerId (borrower_lent bookId recordId borrower)
              (Library.users s))
           (JsMap.set recordId
              (BorrowingRecord.new recordId bookId borrowerId now1
                 (calculateDueDate zone now1))
              (Library.borrowingRecords s)))
    end
  end.
Proof.
  unfold processBorrowing, getBook, getUser, bind, gets, throw_if, throw, ret; simpl.
  destruct (JsMap.get bookId (Library.books s)) as [book|] eqn:Hb; [|reflexivity].
  destruct (JsMap.get borrowerId (Library.users s)) as [u|] eqn:Hu; [|reflexivity].
  destruct (Book.isAvailable book); simpl; [|reflexivity].
  destruct (Book.isRestricted book); simpl; [reflexivity|].
  destruct (Borrower.isAuthorized u); simpl; [|reflexivity].
  destruct (Borrower.maxBooksAllowed u <=? _); simpl; [reflexivity|].
  unfold update_book, update_user, modify, update; simpl.
  now rewrite Hb, Hu.
Qed.

Lemma processReturn_run bookId borrowerId now1 now2 s :
  processReturn bookId borrowerId now1 now2 s =
  match JsMap.get bookId (Library.books s) with
  | None => (inl (BookNotFound bookId), s)
  | Some book =>
    match JsMap.get borrowerId (Library.users s) with
    | None => (inl (UserNotFound borrowerId), s)
    | Some borrower =>
      match JsMap.find (is_active_loan_of bookId borrowerId)
              (Library.borrowingRecords s) with
      | None => (inl NoActiveBorrowingRecord, s)
      | Some (key, _) =>
        (inr tt,
         Library.mk
           (JsMap.set bookId (book_returned now2 book) (Library.books s))
           (JsMap.set borrowerId (borrower_returned bookId borrower)
              (Library.users s))
           (update key (record_returned now1) (Library.borrowingRecords s)))
      end
    end
  end.
Proof.
  unfold processReturn, getBook, getUser, bind, gets, throw_if, throw, ret; simpl.
  destruct (JsMap.get bookId (Library.books s)) as [book|] eqn:Hb; [|reflexivity].
  destruct (JsMap.get borrowerId (Library.users s)) as [u|] eqn:Hu; [|reflexivity].
  destruct (JsMap.find _ _) as [[key r]|]; [|reflexivity].
  unfold update_record, update_book, update_user, modify; simpl.
  unfold update at 1 2. now rewrite Hb, Hu.
Qed.

Lemma getOverdueBorrowings_run now s :
  getOverdueBorrowings now s =
  (inr (filter (is_overdue now) (JsMap.values (Library.borrowingRecords s))), s).
Proof. reflexivity. Qed.

End Runs.

(** ** Consistency of catalog and ledger is kept by every action *)

Section Consistency.
Import JsMapFacts.

Lemma BorrowingStatus_eqb_eq a b : BorrowingStatus_eqb a b = true <-> a = b.
Proof. destruct a, b; simpl; split; congruence. Qed.

Lemma is_active_loan_of_true bookId borrowerId r :
  is_active_loan_of bookId borrowerId r = true ->
  BorrowingRecord.bookId r = bookId
  /\ BorrowingRecord.borrowerId r = borrowerId
  /\ BorrowingRecord.status r = ACTIVE.
Proof.
  unfold is_active_loan_of. rewrite !andb_true_iff.
  intros [[H1 H2] H3].
  apply String.eqb_eq in H1, H2. apply BorrowingStatus_eqb_eq in H3. auto.
Qed.

Lemma snd_bind_ret {A : Type} (m : M A) s : snd ((m ;; ret tt) s) = snd (m s).
Proof. unfold bind, ret. now destruct (m s) as [[e|a] s']. Qed.

Lemma fst_bind_ret_inl {A : Type} (m : M A) s e :
  fst ((m ;; ret tt) s) = inl e <-> fst (m s) = inl e.
Proof.
  unfold bind, ret. destruct (m s) as [[e'|a] s']; simpl; split; congruence.
Qed.

Lemma consistent_new : consistent Library.new.
Proof.
  constructor; simpl; try discriminate.
  apply wf_empty.
Qed.

(** Writes that touch neither the catalog nor the ledger. *)
Lemma consistent_set_users s v : consistent s -> consistent (Library.set_users v s).
Proof. intros [H1 H2 H3 H4 H5]. constructor; simpl; auto. Qed.

(** A write on one entry that keeps its identity and availability. *)
Lemma consistent_update_book s k f :
  (forall b, Book.isAvailable (f b) = Book.isAvailable b) ->
  (forall b, Book.id (f b) = Book.id b) ->
  consistent s ->
  consistent (Library.set_books (update k f (Library.books s)) s).
Proof.
  intros Hav Hid [H1 H2 H3 H4 H5]. constructor; simpl; auto.
  - intros kr r Hr Hact. destruct (H3 kr r Hr Hact) as [b [Hb Hb']].
    destruct (String.string_dec k (BorrowingRecord.bookId r)) as [E|Hne].
    + exists (f b). rewrite <- E in *. rewrite get_update_eq, Hb. simpl.
      now rewrite Hav.
    + exists b. now rewrite get_update_neq.
  - intros k' b. destruct (String.string_dec k k') as [<-|Hne].
    + rewrite get_update_eq.
      destruct (JsMap.get k (Library.books s)) as [b0|] eqn:E; simpl; [|discriminate].
      intros [= <-]. rewrite Hid. auto.
    + rewrite get_update_neq by auto. auto.
Qed.

Lemma consistent_addBook s book :
  JsMap.has (Book.id book) (Library.books s) = false ->
  consistent s ->
  consistent
    (Library.set_books (JsMap.set (Book.id book) book (Library.books s)) s).
Proof.
  intros Hfresh [H1 H2 H3 H4 H5]. apply has_false_get in Hfresh.
  constructor; simpl; auto.
  - intros kr r Hr Hact. destruct (H3 kr r Hr Hact) as [b [Hb Hb']].
    exists b. split; auto. rewrite get_set_neq; auto. congruence.
  - intros k b. destruct (String.string_dec (Book.id book) k) as [<-|Hne].
    + rewrite get_set_eq. now intros [= <-].
    + rewrite get_set_neq by auto. auto.
Qed.

Lemma consistent_removeBook s bookId book :
  JsMap.get bookId (Library.books s) = Some book ->
  Book.isAvailable book = true ->
  consistent s ->
  consistent (Library.set_books (JsMap.delete bookId (Library.books s)) s).
Proof.
  intros Hb Hav [H1 H2 H3 H4 H5]. constructor; simpl; auto.
  - intros kr r Hr Hact. destruct (H3 kr r Hr Hact) as [b [Hb0 Hb']].
    exists b. split; auto. rewrite get_delete_neq; auto. congruence.
  - intros k b. destruct (String.string_dec bookId k) as [<-|Hne].
    + now rewrite get_delete_eq.
    + rewrite get_delete_neq by auto. auto.
Qed.

Lemma consistent_borrow zone s bookId borrowerId book users' now1 recordId now2 :
  JsMap.get bookId (Library.books s) = Some book ->
  Book.isAvailable book = true ->
  JsMap.get recordId (Library.borrowingRecords s) = None ->
  consistent s ->
  consistent
    (Library.mk
       (JsMap.set bookId (book_lent recordId now2 book) (Library.books s))
       users'
       (JsMap.set recordId
          (BorrowingRecord.new recordId bookId borrowerId now1
             (calculateDueDate zone now1))
          (Library.borrowingRecords s))).
Proof.
  intros Hb Hav Hfresh [H1 H2 H3 H4 H5].
  assert (Hold : forall k r, JsMap.get k (Library.borrowingRecords s) = Some r ->
            BorrowingRecord.status r = ACTIVE ->
            BorrowingRecord.bookId r <> bookId).
  { intros k r Hr Hact E. destruct (H3 k r Hr Hact) as [b [Hb0 Hb']]. congruence. }
  constructor; simpl.
  - now apply wf_set.
  - intros k r. destruct (String.string_dec recordId k) as [<-|Hne].
    + rewrite get_set_eq. intros [= <-]. left. split; reflexivity.
    + rewrite get_set_neq by auto. apply H2.
  - intros k r. destruct (String.string_dec recordId k) as [<-|Hne].
    + rewrite get_set_eq. intros [= <-] _. simpl.
      exists (book_lent recordId now2 book). now rewrite get_set_eq.
    + rewrite get_set_neq by auto. intros Hr Hact.
      destruct (H3 k r Hr Hact) as [b [Hb0 Hb']].
      exists b. split; auto. rewrite get_set_neq; auto.
      intros E. apply (Hold k r); auto.
  - intros k1 r1 k2 r2.
    destruct (String.string_dec recordId k1) as [<-|Hne1];
      destruct (String.string_dec recordId k2) as [<-|Hne2]; auto.
    + rewrite get_set_eq, get_set_neq by auto.
      intros [= <-] Hr2 _ Hact2 E. simpl in E. exfalso. now apply (Hold k2 r2).
    + rewrite get_set_eq, get_set_neq by auto.
      intros Hr1 [= <-] Hact1 _ E. simpl in E. exfalso. now apply (Hold k1 r1).
    + rewrite !get_set_neq by auto. apply H4.
  - intros k b. destruct (String.string_dec bookId k) as [<-|Hne].
    + rewrite get_set_eq. intros [= <-]. simpl. auto.
    + rewrite get_set_neq by auto. auto.
Qed.

Lemma consistent_return s bookId borrowerId book users' now1 now2 key r :
  JsMap.get bookId (Library.books s) = Some book ->
  JsMap.find (is_active_loan_of bookId borrowerId) (Library.borrowingRecords s)
    = Some (key, r) ->
  consistent s ->
  consistent
    (Library.mk
       (JsMap.set bookId (book_returned now2 book) (Library.books s))
       users'
       (update key (record_returned now1) (Library.borrowingRecords s))).
Proof.
  intros Hb Hfind [H1 H2 H3 H4 H5].
  destruct (find_Some _ _ _ _ Hfind) as [Hin Hp].
  apply is_active_loan_of_true in Hp. destruct Hp as [Hrb [Hru Hract]].
  pose proof (In_get _ _ _ H1 Hin) as Hr.
  constructor; simpl.
  - now apply wf_update.
  - intros k x. destruct (String.string_dec key k) as [<-|Hne].
    + rewrite get_update_eq, Hr. simpl. intros [= <-]. right.
      split; [reflexivity | discriminate].
    + rewrite get_update_neq by auto. apply H2.
  - intros k x. destruct (String.string_dec key k) as [<-|Hne].
    + rewrite get_update_eq, Hr. simpl. intros [= <-]. discriminate.
    + rewrite get_update_neq by auto. intros Hx Hact.
      destruct (H3 k x Hx Hact) as [b [Hb0 Hb']].
      exists b. split; auto. rewrite get_set_neq; auto.
      intros E. apply Hne. symmetry. apply (H4 k x key r); auto. congruence.
  - intros k1 r1 k2 r2.
    destruct (String.string_dec key k1) as [<-|Hne1].
    { rewrite get_update_eq, Hr. simpl. intros [= <-]. discriminate. }
    destruct (String.string_dec key k2) as [<-|Hne2].
    { rewrite (get_update_eq key), Hr. simpl. intros _ [= <-]. discriminate. }
    rewrite !get_update_neq by auto. apply H4.
  - intros k b. destruct (String.string_dec bookId k) as [<-|Hne].
    + rewrite get_set_eq. intros [= <-]. simpl. auto.
    + rewrite get_set_neq by auto. auto.
Qed.

End Consistency.

Section Reachability.
Import JsMapFacts.

Lemma exec_consistent s a :
  fresh_uuid s a -> consistent s -> consistent (exec a s).
Proof.
  intros Hfresh Hc. unfold exec.
  destruct a as [book|bookId|ud uid n1 n2|zone bookId borrowerId n1 rid n2
                |bookId borrowerId n1 n2|now|uid v|uid v|bookId v|bookId v];
    cbn [perform fresh_uuid adds_only] in *.
  - rewrite addBook_run.
    destruct (JsMap.has (Book.id book) (Library.books s)) eqn:E; simpl; auto.
    now apply consistent_addBook.
  - rewrite removeBook_run.
    destruct (JsMap.get bookId (Library.books s)) as [book|] eqn:E; simpl; auto.
    destruct (Book.isAvailable book) eqn:Hav; simpl; auto.
    now apply (consistent_removeBook s bookId book).
  - rewrite snd_bind_ret, registerUser_run. simpl.
    now apply consistent_set_users.
  - rewrite snd_bind_ret, processBorrowing_run.
    destruct (JsMap.get bookId (Library.books s)) as [book|] eqn:Hb; simpl; auto.
    destruct (JsMap.get borrowerId (Library.users s)) as [u|] eqn:Hu; simpl; auto.
    destruct (Book.isAvailable book) eqn:Hav; simpl; auto.
    destruct (Book.isRestricted book); simpl; auto.
    destruct (Borrower.isAuthorized u); simpl; auto.
    destruct (Borrower.maxBooksAllowed u <=? _); simpl; auto.
    apply consistent_borrow; auto using has_false_get.
  - rewrite processReturn_run.
    destruct (JsMap.get bookId (Library.books s)) as [book|] eqn:Hb; simpl; auto.
    destruct (JsMap.get borrowerId (Library.users s)) as [u|] eqn:Hu; simpl; auto.
    destruct (JsMap.find _ _) as [[key r]|] eqn:Hf; simpl; auto.
    now apply (consistent_return s bookId borrowerId book _ n1 n2 key r).
  - exact Hc.
  - now apply consistent_set_users.
  - now apply consistent_set_users.
  - now apply consistent_update_book.
  - now apply consistent_update_book.
Qed.

Lemma reachable_consistent P s : reachable P s -> consistent s.
Proof.
  induction 1 as [|s a Hr IH Hfresh Hadd].
  - apply consistent_new.
  - now apply exec_consistent.
Qed.

(** A state reached with entries that satisfy [P] is reached with entries
    that satisfy any weaker [Q]. *)
Lemma reachable_weaken (P Q : Book.t -> Prop) s :
  (forall b, P b -> Q b) -> reachable P s -> reachable Q s.
Proof.
  intros HPQ. induction 1 as [|s a Hr IH Hfresh Hadd].
  - constructor.
  - constructor; auto. destruct a; simpl in *; auto.
Qed.

(** *** The loan cap *)

Lemma within_cap_update_user s k f :
  (forall u, Borrower.borrowedBooks (f u) = Borrower.borrowedBooks u) ->
  (forall u, Borrower.maxBooksAllowed (f u) = Borrower.maxBooksAllowed u) ->
  within_cap s ->
  within_cap (Library.set_users (update k f (Library.users s)) s).
Proof.
  intros Hb Hm Hcap k' u. simpl.
  destruct (String.string_dec k k') as [<-|Hne].
  - rewrite get_update_eq.
    destruct (JsMap.get k (Library.users s)) as [u0|] eqn:E; simpl; [|discriminate].
    intros [= <-]. rewrite Hb, Hm. now apply (Hcap k).
  - rewrite get_update_neq by auto. apply Hcap.
Qed.

Lemma filter_length_le {A : Type} (p : A -> bool) (l : list A) :
  (List.length (filter p l) <= List.length l)%nat.
Proof.
  induction l as [|x l IH]; simpl; auto.
  destruct (p x); simpl; lia.
Qed.

Lemma exec_within_cap s a : within_cap s -> within_cap (exec a s).
Proof.
  intros Hcap. unfold exec.
  destruct a as [book|bookId|ud uid n1 n2|zone bookId borrowerId n1 rid n2
                |bookId borrowerId n1 n2|now|uid v|uid v|bookId v|bookId v];
    cbn [perform fresh_uuid adds_only] in *.
  - rewrite addBook_run.
    destruct (JsMap.has (Book.id book) (Library.books s)); simpl; auto.
  - rewrite removeBook_run.
    destruct (JsMap.get bookId (Library.books s)) as [book|]; simpl; auto.
    destruct (Book.isAvailable book); simpl; auto.
  - rewrite snd_bind_ret, registerUser_run. simpl.
    intros k u. simpl. destruct (String.string_dec uid k) as [<-|Hne].
    + rewrite get_set_eq. intros [= <-]. simpl. lia.
    + rewrite get_set_neq by auto. apply Hcap.
  - rewrite snd_bind_ret, processBorrowing_run.
    destruct (JsMap.get bookId (Library.books s)) as [book|] eqn:Hb; simpl; auto.
    destruct (JsMap.get borrowerId (Library.users s)) as [u|] eqn:Hu; simpl; auto.
    destruct (Book.isAvailable book) eqn:Hav; simpl; auto.
    destruct (Book.isRestricted book); simpl; auto.
    destruct (Borrower.isAuthorized u); simpl; auto.
    destruct (Borrower.maxBooksAllowed u <=? _) eqn:Hmax; simpl; auto.
    apply Z.leb_gt in Hmax.
    intros k u'. simpl. destruct (String.string_dec borrowerId k) as [<-|Hne].
    + rewrite get_set_eq. intros [= <-]. simpl.
      rewrite length_app. simpl. lia.
    + rewrite get_set_neq by auto. apply Hcap.
  - rewrite processReturn_run.
    destruct (JsMap.get bookId (Library.books s)) as [book|] eqn:Hb; simpl; auto.
    destruct (JsMap.get borrowerId (Library.users s)) as [u|] eqn:Hu; simpl; auto.
    destruct (JsMap.find _ _) as [[key r]|] eqn:Hf; simpl; auto.
    intros k u'. simpl. destruct (String.string_dec borrowerId k) as [<-|Hne].
    + rewrite get_set_eq. intros [= <-]. simpl.
      eapply Z.le_trans; [|exact (Hcap _ _ Hu)].
      apply Nat2Z.inj_le, filter_length_le.
    + rewrite get_set_neq by auto. apply Hcap.
  - exact Hcap.
  - now apply within_cap_update_user.
  - now apply within_cap_update_user.
  - exact Hcap.
  - exact Hcap.
Qed.

Lemma reachable_within_cap P s : reachable P s -> within_cap s.
Proof.
  induction 1 as [|s a Hr IH Hfresh Hadd].
  - intros k u. discriminate.
  - now apply exec_within_cap.
Qed.

(** *** Unavailable entries are on loan *)

Lemma unavailable_active_update_book s k f :
  (forall b, Book.isAvailable (f b) = Book.isAvailable b) ->
  unavailable_active s ->
  unavailable_active (Library.set_books (update k f (Library.books s)) s).
Proof.
  intros Hav Hua k' b. simpl.
  destruct (String.string_dec k k') as [<-|Hne].
  - rewrite get_update_eq.
    destruct (JsMap.get k (Library.books s)) as [b0|] eqn:E; simpl; [|discriminate].
    intros [= <-]. rewrite Hav. now apply Hua.
  - rewrite get_update_neq by auto. apply Hua.
Qed.

Lemma exec_unavailable_active s a :
  fresh_uuid s a -> adds_only available_entry a ->
  consistent s -> unavailable_active s -> unavailable_active (exec a s).
Proof.
  intros Hfresh Hadd Hc Hua. unfold exec.
  destruct a as [book|bookId|ud uid n1 n2|zone bookId borrowerId n1 rid n2
                |bookId borrowerId n1 n2|now|uid v|uid v|bookId v|bookId v];
    cbn [perform fresh_uuid adds_only] in *.
  - rewrite addBook_run.
    destruct (JsMap.has (Book.id book) (Library.books s)) eqn:E; simpl; auto.
    intros k b. simpl. destruct (String.string_dec (Book.id book) k) as [<-|Hne].
    + rewrite get_set_eq. intros [= <-]. unfold available_entry in Hadd. congruence.
    + rewrite get_set_neq by auto. apply Hua.
  - rewrite removeBook_run.
    destruct (JsMap.get bookId (Library.books s)) as [book|] eqn:E; simpl; auto.
    destruct (Book.isAvailable book) eqn:Hav; simpl; auto.
    intros k b. simpl. destruct (String.string_dec bookId k) as [<-|Hne].
    + now rewrite get_delete_eq.
    + rewrite get_delete_neq by auto. apply Hua.
  - rewrite snd_bind_ret, registerUser_run. simpl. exact Hua.
  - rewrite snd_bind_ret, processBorrowing_run.
    destruct (JsMap.get bookId (Library.books s)) as [book|] eqn:Hb; simpl; auto.
    destruct (JsMap.get borrowerId (Library.users s)) as [u|] eqn:Hu; simpl; auto.
    destruct (Book.isAvailable book) eqn:Hav; simpl; auto.
    destruct (Book.isRestricted book); simpl; auto.
    destruct (Borrower.isAuthorized u); simpl; auto.
    destruct (Borrower.maxBooksAllowed u <=? _); simpl; auto.
    apply has_false_get in Hfresh.
    intros k b. simpl. destruct (String.string_dec bookId k) as [<-|Hne].
    + intros _ _. exists rid. eexists. rewrite get_set_eq. split; [reflexivity|].
      simpl. auto.
    + rewrite get_set_neq by auto. intros Hk Hkav.
      destruct (Hua k b Hk Hkav) as [kr [r [Hr [Hrb Hract]]]].
      exists kr, r. rewrite get_set_neq; auto. congruence.
  - rewrite processReturn_run.
    destruct (JsMap.get bookId (Library.books s)) as [book|] eqn:Hb; simpl; auto.
    destruct (JsMap.get borrowerId (Library.users s)) as [u|] eqn:Hu; simpl; auto.
    destruct (JsMap.find _ _) as [[key r]|] eqn:Hf; simpl; auto.
    destruct (find_Some _ _ _ _ Hf) as [Hin Hp].
    apply is_active_loan_of_true in Hp. destruct Hp as [Hrb [Hru Hract]].
    intros k b. simpl. destruct (String.string_dec bookId k) as [<-|Hne].
    + rewrite get_set_eq. intros [= <-]. simpl. discriminate.
    + rewrite get_set_neq by auto. intros Hk Hkav.
      destruct (Hua k b Hk Hkav) as [kr [x [Hx [Hxb Hxact]]]].
      exists kr, x. rewrite get_update_neq; auto.
      intros <-. pose proof (In_get _ _ _ (ledger_wf s Hc) Hin). congruence.
  - exact Hua.
  - exact Hua.
  - exact Hua.
  - now apply unavailable_active_update_book.
  - now apply unavailable_active_update_book.
Qed.

Lemma reachable_unavailable_active s :
  reachable available_entry s -> unavailable_active s.
Proof.
  induction 1 as [|s a Hr IH Hfresh Hadd].
  - intros k b. discriminate.
  - apply exec_unavailable_active; auto. eapply reachable_consistent; eauto.
Qed.

End Reachability.

(** ** Failed operations and runs *)

Section Failures.
Import JsMapFacts.

(** A method that throws leaves the catalog, the roster and the ledger as
    they were before the call. *)
Lemma processBorrowing_throws_unchanged zone bookId borrowerId now1 recordId now2 s e :
  fst (processBorrowing zone bookId borrowerId now1 recordId now2 s) = inl e ->
  snd (processBorrowing zone bookId borrowerId now1 recordId now2 s) = s.
Proof.
  rewrite processBorrowing_run.
  destruct (JsMap.get bookId (Library.books s)) as [book|]; simpl; auto.
  destruct (JsMap.get borrowerId (Library.users s)) as [u|]; simpl; auto.
  destruct (Book.isAvailable book); simpl; auto.
  destruct (Book.isRestricted book); simpl; auto.
  destruct (Borrower.isAuthorized u); simpl; auto.
  destruct (Borrower.maxBooksAllowed u <=? _); simpl; auto.
  discriminate.
Qed.

Lemma processReturn_throws_unchanged bookId borrowerId now1 now2 s e :
  fst (processReturn bookId borrowerId now1 now2 s) = inl e ->
  snd (processReturn bookId borrowerId now1 now2 s) = s.
Proof.
  rewrite processReturn_run.
  destruct (JsMap.get bookId (Library.books s)) as [book|]; simpl; auto.
  destruct (JsMap.get borrowerId (Library.users s)) as [u|]; simpl; auto.
  destruct (JsMap.find _ _) as [[key r]|]; simpl; auto.
  discriminate.
Qed.

(** X21: an action that throws has written nothing: the store it leaves is
    the store it was given. *)
Lemma perform_throws_unchanged a s e :
  fst (perform a s) = inl e -> exec a s = s.
Proof.
  unfold exec.
  destruct a as [book|bookId|ud uid n1 n2|zone bookId borrowerId n1 rid n2
                |bookId borrowerId n1 n2|now|uid v|uid v|bookId v|bookId v];
    cbn [perform]; try discriminate.
  - rewrite addBook_run.
    destruct (JsMap.has _ _); simpl; auto. discriminate.
  - rewrite removeBook_run.
    destruct (JsMap.get bookId (Library.books s)) as [book|]; simpl; auto.
    destruct (Book.isAvailable book); simpl; auto. discriminate.
  - rewrite fst_bind_ret_inl, snd_bind_ret.
    apply processBorrowing_throws_unchanged.
  - apply processReturn_throws_unchanged.
Qed.

(** The guards of [processBorrowing] in the order of the source: the error
    is the one of the first guard that fails. *)
Lemma processBorrowing_first_failure zone bookId borrowerId now1 recordId now2 s :
  fst (processBorrowing zone bookId borrowerId now1 recordId now2 s) =
  match JsMap.get bookId (Library.books s) with
  | None => inl (BookNotFound bookId)
  | Some book =>
    match JsMap.get borrowerId (Library.users s) with
    | None => inl (UserNotFound borrowerId)
    | Some borrower =>
      if negb (Book.isAvailable book) then inl BookNotAvailable
      else if Book.isRestricted book then inl BookRestricted
      else if negb (Borrower.isAuthorized borrower) then inl BorrowerNotAuthorized
      else if Borrower.maxBooksAllowed borrower
                <=? Z.of_nat (List.length (Borrower.borrowedBooks borrower))
      then inl MaxBooksLimitReached
      else inr (BorrowingRecord.new recordId bookId borrowerId now1
                  (calculateDueDate zone now1))
    end
  end.
Proof.
  rewrite processBorrowing_run.
  destruct (JsMap.get bookId (Library.books s)) as [book|]; simpl; auto.
  destruct (JsMap.get borrowerId (Library.users s)) as [u|]; simpl; auto.
  destruct (Book.isAvailable book); simpl; auto.
  destruct (Book.isRestricted book); simpl; auto.
  destruct (Borrower.isAuthorized u); simpl; auto.
  destruct (Borrower.maxBooksAllowed u <=? _); simpl; auto.
Qed.

(** What a successful [processBorrowing] has checked and written. *)
Lemma processBorrowing_returns zone bookId borrowerId now1 recordId now2 s record s1 :
  processBorrowing zone bookId borrowerId now1 recordId now2 s = (inr record, s1) ->
  exists book borrower,
    JsMap.get bookId (Library.books s) = Some book
    /\ JsMap.get borrowerId (Library.users s) = Some borrower
    /\ Book.isAvailable book = true
    /\ Book.isRestricted book = false
    /\ Borrower.isAuthorized borrower = true
    /\ Z.of_nat (List.length (Borrower.borrowedBooks borrower))
         < Borrower.maxBooksAllowed borrower
    /\ record = BorrowingRecord.new recordId bookId borrowerId now1
                  (calculateDueDate zone now1)
    /\ s1 = Library.mk
         (JsMap.set bookId (book_lent recordId now2 book) (Library.books s))
         (JsMap.set borrowerId (borrower_lent bookId recordId borrower)
            (Library.users s))
         (JsMap.set recordId record (Library.borrowingRecords s)).
Proof.
  rewrite processBorrowing_run.
  destruct (JsMap.get bookId (Library.books s)) as [book|]; [|discriminate].
  destruct (JsMap.get borrowerId (Library.users s)) as [u|]; [|discriminate].
  destruct (Book.isAvailable book) eqn:H1; simpl; [|discriminate].
  destruct (Book.isRestricted book) eqn:H2; simpl; [discriminate|].
  destruct (Borrower.isAuthorized u) eqn:H3; simpl; [|discriminate].
  destruct (Borrower.maxBooksAllowed u <=? _) eqn:H4; simpl; [discriminate|].
  apply Z.leb_gt in H4.
  intros [= <- <-]. exists book, u. repeat split; auto.
Qed.

Lemma reachable_run P l s : reachable P s -> run_ok P l s -> reachable P (run l s).
Proof.
  revert s. induction l as [|a l IH]; simpl; intros s Hr Hok; auto.
  destruct Hok as [Hf [Ha Hok]].
  apply IH; auto. now constructor.
Qed.

End Failures.

(** * The claims *)

(** ** C1 *)

(** C1: [processBorrowing] is claimed to refuse a suspended account and an
    entry in unacceptable condition.  The code has neither guard: on day 1
    it lends the entry to an authorized account that is suspended until
    day 7, an account that [Borrower.borrowBook] turns away, and it lends
    an entry whose physical state is [DAMAGED]. *)
Theorem C1_processBorrowing_lends_to_suspended_account :
  (exists u, JsMap.get "user-001" (Library.users s_suspended) = Some u
     /\ Borrower.isSuspended (day 1) u = true
     /\ Borrower.borrowBook (day 1) "book-001" u
          = Borrower.CannotBorrowLimitOrSuspended)
  /\ fst (processBorrowing TimeZone.UTC "book-001" "user-001" (day 1) "rec-001" (day 1)
            s_suspended)
     = inr (BorrowingRecord.new "rec-001" "book-001" "user-001" (day 1) (day 15))
  /\ (exists b, JsMap.get "book-001" (Library.books s_damaged) = Some b
        /\ Book.physicalState b = DAMAGED)
  /\ fst (processBorrowing TimeZone.UTC "book-001" "user-001" (day 1) "rec-001" (day 1)
            s_damaged)
     = inr (BorrowingRecord.new "rec-001" "book-001" "user-001" (day 1) (day 15)).
Proof.
  split; [|split; [|split]].
  - eexists. split; [reflexivity|]. split; reflexivity.
  - reflexivity.
  - eexists. split; reflexivity.
  - reflexivity.
Qed.

(** ** C3 *)

(** C3: [canBorrow] is claimed to require an authorized account.  The code
    tests the method object [this.isActive] instead of calling it, so the
    result depends on the loan count and the suspension only: for an
    account as the constructor creates it, unauthorized, the code answers
    true where the predicate of the specification answers false. *)
Theorem C3_canBorrow_ignores_authorization :
  (forall now u,
     Borrower.canBorrow now u =
     (Z.of_nat (List.length (Borrower.borrowedBooks u)) <? Borrower.maxBooksAllowed u)
     && negb (Borrower.isSuspended now u))
  /\ (let u := Borrower.new "user-001" "Dupont" "Marie"
                 "marie.dupont@example.com" "+33612345678" "10 rue Test"
                 (day 0) (day 0) in
      Borrower.isAuthorized u = false
      /\ Borrower.canBorrow (day 1) u = true
      /\ canBorrow_spec (day 1) u = false).
Proof.
  split.
  - intros now u. unfold Borrower.canBorrow, Borrower.isActive_method_reference.
    now rewrite andb_true_r.
  - repeat split.
Qed.

(** ** C5 *)

(** In a zone with a fixed offset a due date that is a valid date lies
    14 days of 24 hours after the borrow date. *)
Lemma calculateDueDate_fixed zone borrowDate :
  TimeZone.fixed zone ->
  in_Date_range (addDays borrowDate TIME_POLICIES.DEFAULT_BORROWING_PERIOD) ->
  calculateDueDate zone borrowDate
  = addDays borrowDate TIME_POLICIES.DEFAULT_BORROWING_PERIOD.
Proof.
  intros [offset Hz] Hrange.
  unfold calculateDueDate, setDate_getDate_plus, UTCTime, LocalTime, TimeClip.
  rewrite !Hz. unfold in_Date_range, addDays in *.
  replace (borrowDate + offset
           + TIME_POLICIES.DEFAULT_BORROWING_PERIOD * MS_PER_DAY - offset)
    with (borrowDate + TIME_POLICIES.DEFAULT_BORROWING_PERIOD * MS_PER_DAY)
    by lia.
  apply Z.leb_le in Hrange. now rewrite Hrange.
Qed.

(** Every loan the code creates is due 14 calendar days after it was made,
    which in a zone with a fixed offset are 14 days of 24 hours. *)
Lemma processBorrowing_dueDate zone bookId borrowerId now1 recordId now2 s record s1 :
  processBorrowing zone bookId borrowerId now1 recordId now2 s = (inr record, s1) ->
  BorrowingRecord.borrowDate record = now1
  /\ BorrowingRecord.dueDate record = calculateDueDate zone now1
  /\ (TimeZone.fixed zone -> in_Date_range (addDays now1 14) ->
      BorrowingRecord.dueDate record = addDays now1 14).
Proof.
  intros H. apply processBorrowing_returns in H.
  destruct H as (book & u & _ & _ & _ & _ & _ & _ & -> & _).
  split; [reflexivity|]. split; [reflexivity|].
  intros Hz Hrange. now apply calculateDueDate_fixed.
Qed.

(** C5: the due date is claimed to follow the category of the entry, 7 days
    for the reference category.  [calculateDueDate] does not look at the
    entry: an entry of the reference category borrowed on day 0 is due on
    day 14, not on day 7. *)
Theorem C5_reference_entry_due_after_14_days :
  (exists b, JsMap.get "book-001" (Library.books s_reference) = Some b
     /\ Book.category b = REFERENCE)
  /\ (exists record,
        fst (processBorrowing TimeZone.UTC "book-001" "user-001" (day 0) "rec-001" (day 0)
               s_reference) = inr record
        /\ BorrowingRecord.dueDate record = day 14
        /\ BorrowingRecord.dueDate record
             <> addDays (day 0) (policyPeriod_spec REFERENCE)).
Proof.
  split.
  - eexists. split; reflexivity.
  - eexists. split; [reflexivity|]. split; [reflexivity|]. discriminate.
Qed.

(** ** C4 *)

(** C4: a late return is claimed to compute a late fee from the fee policy.
    [processReturn] closes the record and frees the entry, and that is all
    it does: the loan made on day 0 and due on day 14 is returned on day
    24, ten days late, and the store after the call holds the return date
    and the new status and no fee, the method having no result. *)
Theorem C4_late_return_computes_no_fee :
  FEE_POLICIES.LATE_FEE_PER_DAY = (1 # 2)%Q
  /\ FEE_POLICIES.MAX_LATE_FEE = (50 # 1)%Q
  /\ FEE_POLICIES.LATE_FEE_GRACE_PERIOD = 1
  /\ JsMap.get "rec-001" (Library.borrowingRecords s_on_loan)
     = Some (BorrowingRecord.mk "rec-001" "book-001" "user-001"
               (day 0) (day 14) None false 0 ACTIVE)
  /\ day 14 < day 24
  /\ processReturn "book-001" "user-001" (day 24) (day 24) s_on_loan
     = (inr tt,
        Library.mk
          [("book-001",
            Book.set_lastModified (day 24)
              (Book.set_borrowingHistory ["rec-001"] (testBook "book-001" TECHNOLOGY)))]
          [("user-001",
            Borrower.set_borrowingHistory ["rec-001"]
              (Borrower.set_isAuthorized true
                 (Borrower.new "user-001" "Dupont" "Marie"
                    "marie.dupont@example.com" "+33612345678" "10 rue Test"
                    (day 0) (day 0))))]
          [("rec-001",
            BorrowingRecord.mk "rec-001" "book-001" "user-001"
              (day 0) (day 14) (Some (day 24)) false 0 RETURNED)]).
Proof. repeat split. Qed.

(** ** C2 *)

(** C2, as stated, fails: [addBook] stores the entry it is handed as it is,
    so an entry whose flag is already cleared is unavailable in the catalog
    while the ledger is empty. *)
Lemma C2_unavailable_entry_without_loan :
  reachable any_entry s_unavailable_added
  /\ ~ availability_tracks_loans s_unavailable_added.
Proof.
  split.
  - apply reachable_step; [constructor | exact I | exact I].
  - intros H.
    destruct (H "book-002" _ eq_refl) as [H1 _].
    destruct (H1 eq_refl) as [r [Hin _]]. exact Hin.
Qed.

(** Whatever entries are handed to [addBook], an entry of the catalog with
    an Active or Extended record in the ledger is unavailable. *)
Lemma reachable_on_loan_unavailable P s k b :
  reachable P s ->
  JsMap.get k (Library.books s) = Some b ->
  on_loan s (Book.id b) -> Book.isAvailable b = false.
Proof.
  intros Hr Hb (r & Hin & Hrb & Hst).
  pose proof (reachable_consistent _ _ Hr) as Hc.
  pose proof (catalog_keys s Hc k b Hb) as Hid.
  apply JsMapFacts.In_values in Hin. destruct Hin as [kr Hin].
  apply (JsMapFacts.In_get _ _ _ (ledger_wf s Hc)) in Hin.
  assert (Hact : BorrowingRecord.status r = ACTIVE).
  { destruct (ledger_status s Hc kr r Hin) as [[H _]|[H _]];
      destruct Hst; congruence. }
  destruct (active_unavailable s Hc kr r Hin Hact) as (b' & Hb' & Hav).
  congruence.
Qed.

(** C2, amended: in every state reached from the empty library by the
    methods of the engine and the staff actions, every entry being
    available when it is handed to [addBook], an entry of the catalog is
    unavailable if and only if some record of the ledger on that entry has
    status Active or Extended. *)
Theorem C2_availability_tracks_loans s :
  reachable available_entry s -> availability_tracks_loans s.
Proof.
  intros Hr.
  pose proof (reachable_consistent _ _ Hr) as Hc.
  pose proof (reachable_unavailable_active _ Hr) as Hua.
  intros k b Hb. pose proof (catalog_keys s Hc k b Hb) as Hid. split.
  - intros Hav. destruct (Hua k b Hb Hav) as (kr & r & Hr' & Hrb & Hact).
    exists r. split; [|split; [congruence | now left]].
    apply JsMapFacts.In_values. exists kr. now apply JsMapFacts.get_In.
  - now apply (reachable_on_loan_unavailable available_entry s k b).
Qed.

(** C2 in the library in which book-001 was borrowed on day 0. *)
Lemma C2_availability_tracks_loans_witness :
  availability_tracks_loans s_on_loan.
Proof.
  apply C2_availability_tracks_loans.
  apply reachable_step; [|reflexivity|exact I].
  apply reachable_run; [constructor|].
  simpl. repeat split.
Defined.

(** ** C6 *)

Section Overdue.
Import JsMapFacts.

Lemma filter_subsequence {A : Type} (p : A -> bool) (l : list A) :
  subsequence (filter p l) l.
Proof.
  induction l as [|x l IH]; simpl.
  - constructor.
  - destruct (p x); now constructor.
Qed.

Lemma sorted_by_dueDate_tail r l :
  sorted_by_dueDate (r :: l) = true -> sorted_by_dueDate l = true.
Proof. simpl. rewrite andb_true_iff. tauto. Qed.

Lemma sorted_by_dueDate_head r l :
  sorted_by_dueDate (r :: l) = true ->
  forall r', In r' l -> BorrowingRecord.dueDate r <= BorrowingRecord.dueDate r'.
Proof.
  revert r. induction l as [|x l IH]; intros r Hs r' Hin; [destruct Hin|].
  simpl in Hs. rewrite andb_true_iff in Hs. destruct Hs as [Hle Hs].
  apply Z.leb_le in Hle. destruct Hin as [<- | Hin]; auto.
  specialize (IH x Hs r' Hin). lia.
Qed.

Lemma sorted_by_dueDate_cons r l :
  (forall r', In r' l -> BorrowingRecord.dueDate r <= BorrowingRecord.dueDate r') ->
  sorted_by_dueDate l = true -> sorted_by_dueDate (r :: l) = true.
Proof.
  intros Hle Hs. destruct l as [|x l]; auto.
  change (sorted_by_dueDate (r :: x :: l))
    with ((BorrowingRecord.dueDate r <=? BorrowingRecord.dueDate x)
          && sorted_by_dueDate (x :: l)).
  rewrite Hs, andb_true_r. apply Z.leb_le, Hle. now left.
Qed.

Lemma sorted_by_dueDate_filter p l :
  sorted_by_dueDate l = true -> sorted_by_dueDate (filter p l) = true.
Proof.
  induction l as [|x l IH]; intros Hs; auto.
  pose proof (sorted_by_dueDate_tail _ _ Hs) as Ht.
  simpl. destruct (p x); auto.
  apply sorted_by_dueDate_cons; auto.
  intros r' Hin. apply filter_In in Hin.
  apply (sorted_by_dueDate_head _ _ Hs). tauto.
Qed.

Lemma is_overdue_true now r :
  is_overdue now r = true <->
  BorrowingRecord.status r = ACTIVE
  /\ BorrowingRecord.returnDate r = None
  /\ BorrowingRecord.dueDate r < now.
Proof.
  unfold is_overdue. rewrite !andb_true_iff, BorrowingStatus_eqb_eq, Z.ltb_lt.
  destruct (BorrowingRecord.returnDate r); split; intros H;
    repeat split; try tauto; try easy.
Qed.

End Overdue.

(** In the states the engine reaches the open records are the records
    with status Active and no return date. *)
Lemma reachable_open_active P s r :
  reachable P s ->
  In r (JsMap.values (Library.borrowingRecords s)) ->
  (is_open r <->
   BorrowingRecord.status r = ACTIVE /\ BorrowingRecord.returnDate r = None).
Proof.
  intros Hr Hin. pose proof (reachable_consistent _ _ Hr) as Hc.
  apply JsMapFacts.In_values in Hin. destruct Hin as [k Hin].
  apply (JsMapFacts.In_get _ _ _ (ledger_wf s Hc)) in Hin.
  unfold is_open.
  destruct (ledger_status s Hc k r Hin) as [[H1 H2]|[H1 H2]]; rewrite H1; split.
  - auto.
  - intros _. repeat split; auto; discriminate.
  - intros (_ & H & _). now elim H.
  - intros [H _]. discriminate.
Qed.

(** C6, as stated, fails: the result is not sorted.  With two loans made by
    the engine, the second one after the clock was set back, the scan of
    day 30 returns the loan due on day 24 before the loan due on day 14;
    with due dates written after the loans were made, as the tests of the
    method do, it returns the loan due on day 20 before the loan due on
    day 10, and it leaves out a loan with status Extended that is open and
    overdue. *)
Lemma C6_result_unsorted_and_active_only :
  (reachable any_entry s_clock_set_back
   /\ exists l, fst (getOverdueBorrowings (day 30) s_clock_set_back) = inr l
        /\ map BorrowingRecord.dueDate l = [day 24; day 14]
        /\ sorted_by_dueDate l = false)
  /\ fst (getOverdueBorrowings (day 30) s_unsorted)
     = inr [ loan "rec-001" "book-001" (day 20) ACTIVE;
             loan "rec-002" "book-002" (day 10) ACTIVE ]
  /\ sorted_by_dueDate [ loan "rec-001" "book-001" (day 20) ACTIVE;
                         loan "rec-002" "book-002" (day 10) ACTIVE ] = false
  /\ (let r := loan "rec-003" "book-003" (day 5) EXTENDED in
      In r (JsMap.values (Library.borrowingRecords s_unsorted))
      /\ is_open r
      /\ BorrowingRecord.dueDate r < day 30
      /\ ~ In r [ loan "rec-001" "book-001" (day 20) ACTIVE;
                   loan "rec-002" "book-002" (day 10) ACTIVE ]).
Proof.
  split; [|split; [reflexivity|]; split; [reflexivity|]].
  - split.
    + apply reachable_run; [constructor|]. simpl. repeat split.
    + eexists. split; [reflexivity|]. split; reflexivity.
  - repeat split; try discriminate.
    + simpl. tauto.
    + intros [H | [H | []]]; discriminate.
Qed.

(** C6, amended: [getOverdueBorrowings] never throws, writes nothing and
    returns exactly the records of the ledger that have status Active, no
    return date and a due date strictly before now, which in every state
    the engine reaches are exactly the open records with such a due date;
    it returns them in the order in which the ledger holds them and applies
    no sort, so the result is ascending by due date whenever the ledger
    is. *)
Theorem C6_getOverdueBorrowings_in_ledger_order now s :
  exists l,
    getOverdueBorrowings now s = (inr l, s)
    /\ (forall r, In r l <->
          In r (JsMap.values (Library.borrowingRecords s))
          /\ BorrowingRecord.status r = ACTIVE
          /\ BorrowingRecord.returnDate r = None
          /\ BorrowingRecord.dueDate r < now)
    /\ (reachable any_entry s ->
        forall r, In r l <->
          In r (JsMap.values (Library.borrowingRecords s))
          /\ is_open r
          /\ BorrowingRecord.dueDate r < now)
    /\ subsequence l (JsMap.values (Library.borrowingRecords s))
    /\ (sorted_by_dueDate (JsMap.values (Library.borrowingRecords s)) = true ->
        sorted_by_dueDate l = true).
Proof.
  eexists. split; [apply getOverdueBorrowings_run|].
  split; [|split; [|split]].
  - intros r. rewrite filter_In, is_overdue_true. tauto.
  - intros Hr r. rewrite filter_In, is_overdue_true. split.
    + intros (Hin & H1 & H2 & H3). split; [exact Hin|]. split; [|exact H3].
      apply (reachable_open_active _ _ _ Hr Hin). auto.
    + intros (Hin & Hopen & H3). split; [exact Hin|].
      apply (reachable_open_active _ _ _ Hr Hin) in Hopen. tauto.
  - apply filter_subsequence.
  - apply sorted_by_dueDate_filter.
Qed.

(** C6 on day 30 in the library with three loans, due on day 14, day 15
    and day 16 in the order of the ledger, the second of them returned:
    the result holds the first and the third, in that order. *)
Lemma C6_getOverdueBorrowings_in_ledger_order_witness :
  exists l,
    getOverdueBorrowings (day 30) s_three_loans = (inr l, s_three_loans)
    /\ map BorrowingRecord.dueDate
         (JsMap.values (Library.borrowingRecords s_three_loans))
       = [day 14; day 15; day 16]
    /\ map BorrowingRecord.id l = ["rec-001"; "rec-003"]
    /\ map BorrowingRecord.dueDate l = [day 14; day 16]
    /\ (forall r, In r l <->
          In r (JsMap.values (Library.borrowingRecords s_three_loans))
          /\ is_open r
          /\ BorrowingRecord.dueDate r < day 30)
    /\ subsequence l (JsMap.values (Library.borrowingRecords s_three_loans))
    /\ sorted_by_dueDate l = true.
Proof.
  destruct (C6_getOverdueBorrowings_in_ledger_order (day 30) s_three_loans)
    as (l & H1 & _ & H2 & H3 & H4).
  assert (El : l = filter (is_overdue (day 30))
                     (JsMap.values (Library.borrowingRecords s_three_loans))).
  { rewrite getOverdueBorrowings_run in H1. now injection H1. }
  exists l. split; [exact H1|]. split; [reflexivity|].
  split; [rewrite El; reflexivity|]. split; [rewrite El; reflexivity|].
  split; [|split; [exact H3|]].
  - apply H2. apply reachable_run; [constructor|]. simpl. repeat split.
  - apply H4. reflexivity.
Defined.

(** ** C7 *)

(** C7, as stated, fails: the overdue scan of the code is a query.  The
    loan made on day 0 is Active, unreturned and due on day 14; after the
    scan of day 30 its status is still Active, not Overdue. *)
Lemma C7_scan_leaves_status_active :
  JsMap.get "rec-001" (Library.borrowingRecords s_on_loan)
  = Some (BorrowingRecord.mk "rec-001" "book-001" "user-001"
            (day 0) (day 14) None false 0 ACTIVE)
  /\ day 14 < day 30
  /\ exists r,
       JsMap.get "rec-001"
         (Library.borrowingRecords (exec (GetOverdueBorrowings (day 30)) s_on_loan))
       = Some r
       /\ BorrowingRecord.status r = ACTIVE
       /\ BorrowingRecord.status r <> OVERDUE.
Proof.
  split; [reflexivity|]. split; [reflexivity|].
  eexists. split; [reflexivity|]. split; [reflexivity | discriminate].
Qed.

(** C7, amended: the overdue scan selects every loan with status Active,
    no return date and a due date before now, and writes nothing, so no
    loan changes status; it is idempotent: run a second time with the same
    clock reading it returns the same records, and neither run throws. *)
Theorem C7_overdue_scan_read_only_idempotent now s :
  exists l,
    getOverdueBorrowings now s = (inr l, s)
    /\ exec (GetOverdueBorrowings now) s = s
    /\ getOverdueBorrowings now (exec (GetOverdueBorrowings now) s) = (inr l, s)
    /\ forall r, In r (JsMap.values (Library.borrowingRecords s)) ->
         BorrowingRecord.status r = ACTIVE ->
         BorrowingRecord.returnDate r = None ->
         BorrowingRecord.dueDate r < now ->
         In r l.
Proof.
  eexists. split; [apply getOverdueBorrowings_run|].
  split; [reflexivity|]. split; [reflexivity|].
  intros r Hin Hst Hret Hdue. apply filter_In. split; auto.
  apply is_overdue_true. auto.
Qed.

(** C7 on day 30 in the library in which book-001 was borrowed on day 0. *)
Lemma C7_overdue_scan_read_only_idempotent_witness :
  exists l,
    getOverdueBorrowings (day 30) s_on_loan = (inr l, s_on_loan)
    /\ getOverdueBorrowings (day 30) (exec (GetOverdueBorrowings (day 30)) s_on_loan)
       = (inr l, s_on_loan)
    /\ In (BorrowingRecord.mk "rec-001" "book-001" "user-001"
             (day 0) (day 14) None false 0 ACTIVE) l.
Proof.
  destruct (C7_overdue_scan_read_only_idempotent (day 30) s_on_loan)
    as (l & H1 & H2 & H3 & H4).
  exists l. split; [exact H1|]. split; [exact H3|].
  apply H4; [simpl; tauto | reflexivity | reflexivity | reflexivity].
Defined.

(** ** C8 *)

Section Cap.
Import JsMapFacts.

(** A borrow by an account at its cap throws and writes nothing; the error
    is the one of the cap as soon as the earlier guards pass. *)
Lemma processBorrowing_at_cap zone bookId borrowerId now1 recordId now2 s u :
  JsMap.get borrowerId (Library.users s) = Some u ->
  Borrower.maxBooksAllowed u <= Z.of_nat (List.length (Borrower.borrowedBooks u)) ->
  (exists e, processBorrowing zone bookId borrowerId now1 recordId now2 s = (inl e, s))
  /\ (forall book,
        JsMap.get bookId (Library.books s) = Some book ->
        Book.isAvailable book = true ->
        Book.isRestricted book = false ->
        Borrower.isAuthorized u = true ->
        processBorrowing zone bookId borrowerId now1 recordId now2 s
        = (inl MaxBooksLimitReached, s)).
Proof.
  intros Hu Hcap. apply Z.leb_le in Hcap.
  rewrite processBorrowing_run, Hu. split.
  - destruct (JsMap.get bookId (Library.books s)) as [book|]; eauto.
    destruct (Book.isAvailable book); simpl; eauto.
    destruct (Book.isRestricted book); simpl; eauto.
    destruct (Borrower.isAuthorized u); simpl; eauto.
    rewrite Hcap. eauto.
  - intros book -> -> -> ->. simpl. now rewrite Hcap.
Qed.

End Cap.

(** C8: in every state reached from the empty library by the methods of the
    engine and the staff actions, no account holds more loans than its cap;
    a borrow by an account that holds as many loans as its cap allows
    throws and leaves the whole store, hence every loan of the account, as
    it was, and the error is the one of the loan cap (kind LimitExceeded)
    when the guards that come before the cap pass. *)
Theorem C8_loan_cap s :
  reachable any_entry s ->
  within_cap s
  /\ forall zone bookId borrowerId now1 recordId now2 u,
       JsMap.get borrowerId (Library.users s) = Some u ->
       Z.of_nat (List.length (Borrower.borrowedBooks u)) = Borrower.maxBooksAllowed u ->
       (exists e,
          processBorrowing zone bookId borrowerId now1 recordId now2 s = (inl e, s))
       /\ (forall book,
             JsMap.get bookId (Library.books s) = Some book ->
             Book.isAvailable book = true ->
             Book.isRestricted book = false ->
             Borrower.isAuthorized u = true ->
             processBorrowing zone bookId borrowerId now1 recordId now2 s
             = (inl MaxBooksLimitReached, s)
             /\ error_kind MaxBooksLimitReached = LimitExceeded).
Proof.
  intros Hr. split.
  - eapply reachable_within_cap; eauto.
  - intros zone bookId borrowerId now1 recordId now2 u Hu Hcap.
    destruct (processBorrowing_at_cap zone bookId borrowerId now1 recordId now2 s u Hu)
      as [H1 H2]; [lia|].
    split; [exact H1|]. intros book Hb Hav Hre Hau.
    split; [now apply (H2 book) | reflexivity].
Qed.

(** C8 for the account that holds three loans and asks for book-004. *)
Lemma C8_loan_cap_witness :
  within_cap s_at_cap
  /\ processBorrowing TimeZone.UTC "book-004" "user-001" (day 1) "rec-004" (day 1) s_at_cap
     = (inl MaxBooksLimitReached, s_at_cap).
Proof.
  assert (Hr : reachable any_entry s_at_cap).
  { apply reachable_run; [constructor|]. simpl. repeat split. }
  destruct (C8_loan_cap s_at_cap Hr) as [H1 H2]. split; [exact H1|].
  destruct (H2 TimeZone.UTC "book-004" "user-001" (day 1) "rec-004" (day 1) _
              eq_refl eq_refl)
    as [_ H3].
  destruct (H3 _ eq_refl eq_refl eq_refl eq_refl) as [H4 _]. exact H4.
Defined.

(** ** C9 *)

Section RoundTrip.
Import JsMapFacts.

(** In a consistent store the loan just made on an entry is the one that
    [processReturn] finds for that entry and borrower. *)
Lemma find_loan_just_made zone s bookId borrowerId book now1 recordId :
  consistent s ->
  JsMap.get bookId (Library.books s) = Some book ->
  Book.isAvailable book = true ->
  JsMap.get recordId (Library.borrowingRecords s) = None ->
  let record :=
    BorrowingRecord.new recordId bookId borrowerId now1 (calculateDueDate zone now1) in
  JsMap.find (is_active_loan_of bookId borrowerId)
    (JsMap.set recordId record (Library.borrowingRecords s))
  = Some (recordId, record).
Proof.
  intros Hc Hb Hav Hfresh record.
  rewrite (set_absent _ _ _ Hfresh). apply find_app_skip.
  - intros k' v' Hin.
    destruct (is_active_loan_of bookId borrowerId v') eqn:E; auto.
    exfalso. apply is_active_loan_of_true in E. destruct E as (E1 & E2 & E3).
    apply (In_get _ _ _ (ledger_wf s Hc)) in Hin.
    destruct (active_unavailable s Hc k' v' Hin E3) as (b & Hb' & Hav').
    congruence.
  - unfold is_active_loan_of, record. simpl. now rewrite !String.eqb_refl.
Qed.

End RoundTrip.

(** C9: in a state reached by the engine in which [processBorrowing] of an
    entry by an account returns, returning the entry right after succeeds,
    makes the entry available again, leaves the entry out of the books the
    account holds, and leaves the record that the borrow created in the
    ledger with status Returned and its return date set. *)
Theorem C9_borrow_then_return
    zone s bookId borrowerId now1 recordId now2 now3 now4 record s1 :
  reachable any_entry s ->
  JsMap.has recordId (Library.borrowingRecords s) = false ->
  processBorrowing zone bookId borrowerId now1 recordId now2 s = (inr record, s1) ->
  exists s2,
    processReturn bookId borrowerId now3 now4 s1 = (inr tt, s2)
    /\ (exists b, JsMap.get bookId (Library.books s2) = Some b
          /\ Book.isAvailable b = true)
    /\ (exists u, JsMap.get borrowerId (Library.users s2) = Some u
          /\ ~ In bookId (Borrower.borrowedBooks u))
    /\ (exists r, JsMap.get recordId (Library.borrowingRecords s2) = Some r
          /\ r = record_returned now3 record
          /\ BorrowingRecord.status r = RETURNED
          /\ BorrowingRecord.returnDate r = Some now3).
Proof.
  intros Hr Hfresh Hrun.
  pose proof (reachable_consistent _ _ Hr) as Hc.
  apply JsMapFacts.has_false_get in Hfresh.
  apply processBorrowing_returns in Hrun.
  destruct Hrun as (book & u & Hb & Hu & Hav & _ & _ & _ & -> & ->).
  pose proof (find_loan_just_made zone s bookId borrowerId book now1 recordId
                Hc Hb Hav Hfresh) as Hfind.
  rewrite processReturn_run.
  cbn [Library.books Library.users Library.borrowingRecords].
  rewrite !JsMapFacts.get_set_eq, Hfind.
  eexists. split; [reflexivity|].
  cbn [Library.books Library.users Library.borrowingRecords].
  split; [|split].
  - eexists. rewrite JsMapFacts.get_set_eq. split; reflexivity.
  - eexists. rewrite JsMapFacts.get_set_eq. split; [reflexivity|].
    simpl. intros Hin. apply filter_In in Hin. destruct Hin as [_ Hin].
    now rewrite String.eqb_refl in Hin.
  - eexists. rewrite JsMapFacts.get_update_eq, JsMapFacts.get_set_eq.
    split; [reflexivity|]. repeat split.
Qed.

(** C9 for book-001 borrowed on day 0 and returned on day 3. *)
Lemma C9_borrow_then_return_witness :
  exists s2,
    processReturn "book-001" "user-001" (day 3) (day 3) s_on_loan = (inr tt, s2)
    /\ (exists b, JsMap.get "book-001" (Library.books s2) = Some b
          /\ Book.isAvailable b = true)
    /\ (exists u, JsMap.get "user-001" (Library.users s2) = Some u
          /\ ~ In "book-001" (Borrower.borrowedBooks u))
    /\ (exists r, JsMap.get "rec-001" (Library.borrowingRecords s2) = Some r
          /\ BorrowingRecord.status r = RETURNED
          /\ BorrowingRecord.returnDate r = Some (day 3)).
Proof.
  assert (Hr : reachable any_entry s_member).
  { apply reachable_run; [constructor|]. simpl. repeat split. }
  destruct (C9_borrow_then_return TimeZone.UTC s_member "book-001" "user-001"
              (day 0) "rec-001" (day 0) (day 3) (day 3)
              (BorrowingRecord.new "rec-001" "book-001" "user-001" (day 0) (day 14))
              s_on_loan Hr eq_refl eq_refl)
    as (s2 & H1 & H2 & H3 & r & H4 & _ & H5 & H6).
  exists s2. split; [exact H1|]. split; [exact H2|]. split; [exact H3|].
  exists r. auto.
Defined.

(** ** C10 *)

Section Registration.
Import JsMapFacts.

(** No method of the engine authorizes an account. *)
Lemma exec_engine_keeps_unauthorized s a userId :
  is_engine_action a = true -> fresh_uuid s a ->
  unauthorized s userId -> unauthorized (exec a s) userId.
Proof.
  intros Ha Hfresh (u & Hu & Hau). unfold exec, unauthorized.
  destruct a as [book|bookId|ud uid n1 n2|zone bookId borrowerId n1 rid n2
                |bookId borrowerId n1 n2|now|uid v|uid v|bookId v|bookId v];
    cbn [perform fresh_uuid is_engine_action] in *; try discriminate.
  - rewrite addBook_run. destruct (JsMap.has _ _); simpl; eauto.
  - rewrite removeBook_run.
    destruct (JsMap.get bookId (Library.books s)) as [book|]; simpl; eauto.
    destruct (Book.isAvailable book); simpl; eauto.
  - rewrite snd_bind_ret, registerUser_run. simpl.
    exists u. split; auto. rewrite get_set_neq; auto.
    intros ->. apply has_false_get in Hfresh. congruence.
  - rewrite snd_bind_ret, processBorrowing_run.
    destruct (JsMap.get bookId (Library.books s)) as [book|]; simpl; eauto.
    destruct (JsMap.get borrowerId (Library.users s)) as [b|] eqn:Hb; simpl; eauto.
    destruct (Book.isAvailable book); simpl; eauto.
    destruct (Book.isRestricted book); simpl; eauto.
    destruct (Borrower.isAuthorized b) eqn:Hba; simpl; eauto.
    destruct (Borrower.maxBooksAllowed b <=? _); simpl; eauto.
    exists u. split; auto. rewrite get_set_neq; auto. congruence.
  - rewrite processReturn_run.
    destruct (JsMap.get bookId (Library.books s)) as [book|]; simpl; eauto.
    destruct (JsMap.get borrowerId (Library.users s)) as [b|] eqn:Hb; simpl; eauto.
    destruct (JsMap.find _ _) as [[key r]|]; simpl; eauto.
    destruct (String.string_dec borrowerId userId) as [->|Hne].
    + exists (borrower_returned bookId b). rewrite get_set_eq. split; auto.
      simpl. congruence.
    + exists u. rewrite get_set_neq; auto.
  - simpl. eauto.
Qed.

(** A borrow by an account that is not authorized throws and writes
    nothing; the error is the one of the first check that fails, in the
    order entry exists, entry available, entry not restricted, account
    authorized. *)
Lemma processBorrowing_unauthorized zone bookId userId now1 recordId now2 s :
  unauthorized s userId ->
  (exists e,
     processBorrowing zone bookId userId now1 recordId now2 s = (inl e, s))
  /\ (JsMap.get bookId (Library.books s) = None ->
      processBorrowing zone bookId userId now1 recordId now2 s
      = (inl (BookNotFound bookId), s))
  /\ (forall book,
        JsMap.get bookId (Library.books s) = Some book ->
        Book.isAvailable book = false ->
        processBorrowing zone bookId userId now1 recordId now2 s
        = (inl BookNotAvailable, s))
  /\ (forall book,
        JsMap.get bookId (Library.books s) = Some book ->
        Book.isAvailable book = true ->
        Book.isRestricted book = true ->
        processBorrowing zone bookId userId now1 recordId now2 s
        = (inl BookRestricted, s))
  /\ (forall book,
        JsMap.get bookId (Library.books s) = Some book ->
        Book.isAvailable book = true ->
        Book.isRestricted book = false ->
        processBorrowing zone bookId userId now1 recordId now2 s
        = (inl BorrowerNotAuthorized, s)).
Proof.
  intros (u & Hu & Hau). rewrite processBorrowing_run, Hu, Hau.
  split; [|split; [|split; [|split]]].
  - destruct (JsMap.get bookId (Library.books s)) as [book|]; eauto.
    destruct (Book.isAvailable book); simpl; eauto.
    destruct (Book.isRestricted book); simpl; eauto.
  - now intros ->.
  - now intros book -> ->.
  - now intros book -> -> ->.
  - now intros book -> -> ->.
Qed.

(** Once the field [isAuthorized] of an account was written to true, a
    borrow of an entry that exists, is available and is not restricted
    returns if the account holds fewer books than its cap. *)
Lemma processBorrowing_after_authorization zone bookId userId now1 recordId
    now2 s u book :
  JsMap.get userId (Library.users s) = Some u ->
  JsMap.get bookId (Library.books s) = Some book ->
  Book.isAvailable book = true ->
  Book.isRestricted book = false ->
  Z.of_nat (List.length (Borrower.borrowedBooks u)) < Borrower.maxBooksAllowed u ->
  exists record,
    fst (processBorrowing zone bookId userId now1 recordId now2
           (Library.set_users
              (update userId (Borrower.set_isAuthorized true) (Library.users s))
              s))
    = inr record.
Proof.
  intros Hu Hb Hav Hre Hcap. rewrite processBorrowing_run. simpl.
  rewrite Hb, get_update_eq, Hu. simpl. rewrite Hav, Hre. simpl.
  destruct (Z.leb_spec (Borrower.maxBooksAllowed u)
              (Z.of_nat (List.length (Borrower.borrowedBooks u)))); [lia|].
  eexists. reflexivity.
Qed.

End Registration.

(** C10, as stated, fails: the guards on the entry come before the guard on
    the authorization, so a freshly registered account that asks for an
    entry of the catalog that is restricted gets the error of the
    restriction, and one that asks for an entry the catalog does not hold
    gets the not-found error, not the not-authorized error. *)
Lemma C10_entry_guards_come_first :
  unauthorized s_registered "user-001"
  /\ processBorrowing TimeZone.UTC "book-001" "user-001" (day 1) "rec-001" (day 1) s_registered
     = (inl BookRestricted, s_registered)
  /\ BookRestricted <> BorrowerNotAuthorized
  /\ processBorrowing TimeZone.UTC "book-404" "user-001" (day 1) "rec-001" (day 1) s_registered
     = (inl (BookNotFound "book-404"), s_registered)
  /\ BookNotFound "book-404" <> BorrowerNotAuthorized.
Proof.
  split; [|split; [|split; [|split]]].
  - eexists. split; reflexivity.
  - reflexivity.
  - discriminate.
  - reflexivity.
  - discriminate.
Qed.

(** C10, amended: [registerUser] stores an account that is not authorized
    and has loan cap 3.  As long as an account is not authorized every
    borrow it attempts throws and writes nothing, whatever the entry, with
    the error of the first check that fails in the order entry exists,
    entry available, entry not restricted, account authorized: the
    not-found error for an entry the catalog does not hold, the
    not-available error for an unavailable entry, the error of the
    restriction for an available restricted entry, and the not-authorized
    error for an entry that exists, is available and is not restricted.
    No method of the engine authorizes an account and
    [Librarian.authorizeUser] writes a line to the console and nothing to
    the store, so the account stays as it is until its public field
    [isAuthorized] is written to true; after that write the account is
    authorized, and its borrow of an entry that exists, is available and is
    not restricted returns if it holds fewer books than its cap. *)
Theorem C10_registered_account_cannot_borrow userData userId now1 now2 s0 :
  let s1 := exec (RegisterUser userData userId now1 now2) s0 in
  (exists u, fst (registerUser userData userId now1 now2 s0) = inr u
     /\ JsMap.get userId (Library.users s1) = Some u
     /\ Borrower.isAuthorized u = false
     /\ Borrower.maxBooksAllowed u = 3)
  /\ (forall s, unauthorized s userId ->
        forall zone bookId now recordId now',
          (exists e,
             processBorrowing zone bookId userId now recordId now' s
             = (inl e, s))
          /\ (JsMap.get bookId (Library.books s) = None ->
              processBorrowing zone bookId userId now recordId now' s
              = (inl (BookNotFound bookId), s))
          /\ (forall book,
                JsMap.get bookId (Library.books s) = Some book ->
                Book.isAvailable book = false ->
                processBorrowing zone bookId userId now recordId now' s
                = (inl BookNotAvailable, s))
          /\ (forall book,
                JsMap.get bookId (Library.books s) = Some book ->
                Book.isAvailable book = true ->
                Book.isRestricted book = true ->
                processBorrowing zone bookId userId now recordId now' s
                = (inl BookRestricted, s))
          /\ (forall book,
                JsMap.get bookId (Library.books s) = Some book ->
                Book.isAvailable book = true ->
                Book.isRestricted book = false ->
                processBorrowing zone bookId userId now recordId now' s
                = (inl BorrowerNotAuthorized, s)))
  /\ (forall s a, is_engine_action a = true -> fresh_uuid s a ->
        unauthorized s userId -> unauthorized (exec a s) userId)
  /\ (forall s, exists line, Librarian.authorizeUser userId s = (inr line, s))
  /\ (forall s u,
        JsMap.get userId (Library.users s) = Some u ->
        Borrower.isAuthorized u = false ->
        let s' :=
          Library.set_users
            (update userId (Borrower.set_isAuthorized true) (Library.users s)) s in
        (exists u', JsMap.get userId (Library.users s') = Some u'
           /\ Borrower.isAuthorized u' = true)
        /\ (forall zone bookId now recordId now' book,
              JsMap.get bookId (Library.books s) = Some book ->
              Book.isAvailable book = true ->
              Book.isRestricted book = false ->
              Z.of_nat (List.length (Borrower.borrowedBooks u))
              < Borrower.maxBooksAllowed u ->
              exists record,
                fst (processBorrowing zone bookId userId now recordId now' s')
                = inr record)).
Proof.
  intros s1. split; [|split; [|split; [|split]]].
  - eexists. split; [reflexivity|]. unfold s1, exec. cbn [perform].
    rewrite snd_bind_ret, registerUser_run. simpl.
    rewrite JsMapFacts.get_set_eq. repeat split.
  - intros s Hs zone bookId now recordId now'.
    now apply processBorrowing_unauthorized.
  - intros s a. apply exec_engine_keeps_unauthorized.
  - intros s. eexists. reflexivity.
  - intros s u Hu Hau s'. split.
    + exists (Borrower.set_isAuthorized true u). unfold s'. simpl.
      rewrite JsMapFacts.get_update_eq, Hu. split; reflexivity.
    + intros zone bookId now recordId now' book Hb Hav Hre Hcap.
      now apply (processBorrowing_after_authorization zone bookId userId now
                   recordId now' s u book).
Qed.

(** C10 for the account registered next to book-001, which is available
    and not restricted, and for the same account asking for an entry the
    catalog does not hold. *)
Lemma C10_registered_account_cannot_borrow_witness :
  unauthorized s_newcomer "user-001"
  /\ processBorrowing TimeZone.UTC "book-001" "user-001" (day 1) "rec-001" (day 1)
       s_newcomer
     = (inl BorrowerNotAuthorized, s_newcomer)
  /\ processBorrowing TimeZone.UTC "book-404" "user-001" (day 1) "rec-001" (day 1)
       s_newcomer
     = (inl (BookNotFound "book-404"), s_newcomer).
Proof.
  destruct (C10_registered_account_cannot_borrow testUserData "user-001"
              (day 0) (day 0)
              (exec (AddBook (testBook "book-001" TECHNOLOGY)) Library.new))
    as ((u & H1 & H2 & H3 & H4) & H5 & _).
  assert (Hun : unauthorized s_newcomer "user-001").
  { exists u. split; [exact H2 | exact H3]. }
  split; [exact Hun|]. split.
  - destruct (H5 s_newcomer Hun TimeZone.UTC "book-001" (day 1) "rec-001" (day 1))
      as (_ & _ & _ & _ & H6).
    exact (H6 _ eq_refl eq_refl eq_refl).
  - destruct (H5 s_newcomer Hun TimeZone.UTC "book-404" (day 1) "rec-001" (day 1))
      as (_ & H6 & _).
    exact (H6 eq_refl).
Defined.

(** * Further properties of the engine *)

(** ** More facts about [JsMap] *)

Module JsMapMoreFacts.
Import JsMap JsMapFacts.

Section MoreFacts.
Context {V : Type}.
Implicit Types (k : UUID) (v : V) (m : JsMap.t V).

Lemma keys_delete k m :
  keys (delete k m) = filter (fun k' => negb (String.eqb k' k)) (keys m).
Proof.
  induction m as [|[k0 v0] m IH]; simpl; auto.
  destruct (String.eqb k0 k); simpl; auto. now rewrite IH.
Qed.

Lemma wf_delete k m : wf m -> wf (delete k m).
Proof. unfold wf. rewrite keys_delete. apply NoDup_filter. Qed.

Lemma delete_absent k m : get k m = None -> delete k m = m.
Proof.
  induction m as [|[k0 v0] m IH]; simpl; auto.
  destruct (String.eqb k0 k); [discriminate|]. intros H. now rewrite IH.
Qed.

Lemma delete_app k m m' : delete k (m ++ m') = delete k m ++ delete k m'.
Proof.
  induction m as [|[k0 v0] m IH]; simpl; auto.
  destruct (String.eqb k0 k); simpl; now rewrite IH.
Qed.

(** Adding a new key and deleting it gives the map back. *)
Lemma delete_set_absent k v m : get k m = None -> delete k (set k v m) = m.
Proof.
  intros H. rewrite (set_absent k v m H), delete_app, (delete_absent k m H).
  simpl. rewrite String.eqb_refl. apply app_nil_r.
Qed.

Lemma get_set_defined k k' v m :
  get k' m <> None -> get k' (set k v m) <> None.
Proof.
  destruct (String.string_dec k k') as [<-|Hne].
  - rewrite get_set_eq. discriminate.
  - now rewrite get_set_neq.
Qed.

Lemma get_update_defined k k' (f : V -> V) m :
  get k' m <> None -> get k' (update k f m) <> None.
Proof.
  unfold update. destruct (get k m); auto using get_set_defined.
Qed.

Lemma values_set_absent k v m :
  get k m = None -> values (set k v m) = values m ++ [v].
Proof.
  intros H. rewrite (set_absent k v m H). unfold values. now rewrite map_app.
Qed.

(** In a map that holds each key once, the values are those of the keys. *)
Lemma In_values_get v m : wf m -> (In v (values m) <-> exists k, get k m = Some v).
Proof.
  intros Hwf. rewrite In_values. split; intros [k H]; exists k.
  - now apply In_get.
  - now apply get_In.
Qed.

End MoreFacts.
End JsMapMoreFacts.

(** ** Every run of an action is one of its outcomes *)

Section Outcomes.
Import JsMapFacts JsMapMoreFacts.

Lemma exec_outcome s a : outcome s a (exec a s).
Proof.
  unfold exec.
  destruct a as [book|bookId|ud uid n1 n2|zone bookId borrowerId n1 rid n2
                |bookId borrowerId n1 n2|now|uid v|uid v|bookId v|bookId v];
    cbn [perform].
  - rewrite addBook_run.
    destruct (JsMap.has (Book.id book) (Library.books s)) eqn:E; simpl.
    + constructor.
    + apply outcome_addBook. now apply has_false_get.
  - rewrite removeBook_run.
    destruct (JsMap.get bookId (Library.books s)) as [book|] eqn:E; simpl.
    + destruct (Book.isAvailable book) eqn:Hav; simpl.
      * now apply (outcome_removeBook s bookId book).
      * constructor.
    + constructor.
  - rewrite snd_bind_ret, registerUser_run. simpl. constructor.
  - rewrite snd_bind_ret, processBorrowing_run.
    destruct (JsMap.get bookId (Library.books s)) as [book|] eqn:Hb; simpl;
      [|constructor].
    destruct (JsMap.get borrowerId (Library.users s)) as [u|] eqn:Hu; simpl;
      [|constructor].
    destruct (Book.isAvailable book) eqn:Hav; simpl; [|constructor].
    destruct (Book.isRestricted book) eqn:Hre; simpl; [constructor|].
    destruct (Borrower.isAuthorized u) eqn:Hau; simpl; [|constructor].
    destruct (Borrower.maxBooksAllowed u <=? _) eqn:Hmax; simpl; [constructor|].
    apply Z.leb_gt in Hmax. now apply outcome_borrow.
  - rewrite processReturn_run.
    destruct (JsMap.get bookId (Library.books s)) as [book|] eqn:Hb; simpl;
      [|constructor].
    destruct (JsMap.get borrowerId (Library.users s)) as [u|] eqn:Hu; simpl;
      [|constructor].
    destruct (JsMap.find _ _) as [[key r]|] eqn:Hf; simpl; [|constructor].
    now apply (outcome_return s bookId borrowerId n1 n2 book u key r).
  - rewrite snd_bind_ret. simpl. constructor.
  - apply outcome_setAuthorized.
  - apply outcome_setSuspensionEndDate.
  - apply outcome_setRestricted.
  - apply outcome_setPhysicalState.
Qed.

(** *** Keys, ids and the default cap *)

Lemma well_keyed_new : well_keyed Library.new.
Proof. constructor; simpl; try discriminate; apply wf_empty. Qed.

Lemma well_keyed_update_user s k f :
  (forall u, Borrower.id (f u) = Borrower.id u) ->
  (forall u, Borrower.maxBooksAllowed (f u) = Borrower.maxBooksAllowed u) ->
  well_keyed s ->
  well_keyed (Library.set_users (update k f (Library.users s)) s).
Proof.
  intros Hid Hmax [H1 H2 H3 H4 H5]. constructor; simpl; auto.
  - now apply wf_update.
  - intros k' u. destruct (String.string_dec k k') as [<-|Hne].
    + rewrite get_update_eq.
      destruct (JsMap.get k (Library.users s)) as [u0|] eqn:E; simpl; [|discriminate].
      intros [= <-]. rewrite Hid. auto.
    + rewrite get_update_neq by auto. auto.
  - intros k' u. destruct (String.string_dec k k') as [<-|Hne].
    + rewrite get_update_eq.
      destruct (JsMap.get k (Library.users s)) as [u0|] eqn:E; simpl; [|discriminate].
      intros [= <-]. rewrite Hmax. eauto.
    + rewrite get_update_neq by auto. eauto.
Qed.

Lemma well_keyed_set_user s k u :
  Borrower.id u = k -> Borrower.maxBooksAllowed u = 3 ->
  well_keyed s ->
  well_keyed (Library.mk (Library.books s) (JsMap.set k u (Library.users s))
                (Library.borrowingRecords s)).
Proof.
  intros Hid Hmax [H1 H2 H3 H4 H5]. constructor; simpl; auto.
  - now apply wf_set.
  - intros k' u'. destruct (String.string_dec k k') as [<-|Hne].
    + rewrite get_set_eq. now intros [= <-].
    + rewrite get_set_neq by auto. auto.
  - intros k' u'. destruct (String.string_dec k k') as [<-|Hne].
    + rewrite get_set_eq. now intros [= <-].
    + rewrite get_set_neq by auto. eauto.
Qed.

Lemma well_keyed_books s books' :
  JsMap.wf books' -> well_keyed s ->
  well_keyed (Library.mk books' (Library.users s) (Library.borrowingRecords s)).
Proof. intros Hwf [H1 H2 H3 H4 H5]. constructor; simpl; auto. Qed.

Lemma well_keyed_ledger s ledger' :
  (forall k r, JsMap.get k ledger' = Some r -> BorrowingRecord.id r = k) ->
  well_keyed s ->
  well_keyed (Library.mk (Library.books s) (Library.users s) ledger').
Proof. intros Hk [H1 H2 H3 H4 H5]. constructor; simpl; auto. Qed.

Lemma outcome_well_keyed s a s' :
  outcome s a s' -> well_keyed s -> well_keyed s'.
Proof.
  intros Ho Hw. destruct Ho; auto.
  - apply (well_keyed_books s). apply wf_set, Hw. exact Hw.
  - apply (well_keyed_books s). apply wf_delete, Hw. exact Hw.
  - apply (well_keyed_set_user s); auto.
  - pose proof (users_keys s Hw _ _ H0) as Hid.
    pose proof (cap_default s Hw _ _ H0) as Hcap.
    apply (well_keyed_ledger
             (Library.mk (JsMap.set bookId (book_lent recordId now2 book) (Library.books s))
                (JsMap.set borrowerId (borrower_lent bookId recordId u) (Library.users s))
                (Library.borrowingRecords s))).
    { intros k r. simpl. destruct (String.string_dec recordId k) as [<-|Hne].
      - rewrite get_set_eq. now intros [= <-].
      - rewrite get_set_neq by auto. apply (ledger_keys s Hw). }
    apply (well_keyed_books
             (Library.mk (Library.books s)
                (JsMap.set borrowerId (borrower_lent bookId recordId u) (Library.users s))
                (Library.borrowingRecords s))).
    { apply wf_set, Hw. }
    apply (well_keyed_set_user s); auto.
  - pose proof (users_keys s Hw _ _ H0) as Hid.
    pose proof (cap_default s Hw _ _ H0) as Hcap.
    apply (well_keyed_ledger
             (Library.mk (JsMap.set bookId (book_returned now2 book) (Library.books s))
                (JsMap.set borrowerId (borrower_returned bookId u) (Library.users s))
                (Library.borrowingRecords s))).
    { intros k x. simpl. destruct (String.string_dec key k) as [<-|Hne].
      - rewrite get_update_eq.
        destruct (JsMap.get key (Library.borrowingRecords s)) as [x0|] eqn:E;
          simpl; [|discriminate].
        intros [= <-]. simpl. apply (ledger_keys s Hw _ _ E).
      - rewrite get_update_neq by auto. apply (ledger_keys s Hw). }
    apply (well_keyed_books
             (Library.mk (Library.books s)
                (JsMap.set borrowerId (borrower_returned bookId u) (Library.users s))
                (Library.borrowingRecords s))).
    { apply wf_set, Hw. }
    apply (well_keyed_set_user s); auto.
  - now apply well_keyed_update_user.
  - now apply well_keyed_update_user.
  - apply (well_keyed_books s). apply wf_update, Hw. exact Hw.
  - apply (well_keyed_books s). apply wf_update, Hw. exact Hw.
Qed.

Lemma reachable_well_keyed P s : reachable P s -> well_keyed s.
Proof.
  induction 1 as [|s a Hr IH Hfresh Hadd].
  - apply well_keyed_new.
  - eapply outcome_well_keyed; [apply exec_outcome | exact IH].
Qed.

End Outcomes.

(** ** The roster and the ledger stay linked *)

Section Links.
Import JsMapFacts JsMapMoreFacts.

Lemma records_of_app userId m m' :
  records_of userId (m ++ m') = records_of userId m ++ records_of userId m'.
Proof. unfold records_of. now rewrite filter_app, map_app. Qed.

Lemma records_of_set_same userId k v v' m :
  JsMap.get k m = Some v ->
  BorrowingRecord.borrowerId v' = BorrowingRecord.borrowerId v ->
  records_of userId (JsMap.set k v' m) = records_of userId m.
Proof.
  intros Hget Hb. induction m as [|[k0 v0] m IH]; [discriminate|].
  simpl in *. destruct (String.eqb k0 k) eqn:E.
  - injection Hget as ->. apply String.eqb_eq in E. subst k0.
    unfold records_of. simpl. rewrite Hb.
    now destruct (String.eqb (BorrowingRecord.borrowerId v) userId).
  - unfold records_of in *. simpl.
    destruct (String.eqb (BorrowingRecord.borrowerId v0) userId); simpl;
      now rewrite IH.
Qed.

Lemma records_of_update userId k f m :
  (forall r, BorrowingRecord.borrowerId (f r) = BorrowingRecord.borrowerId r) ->
  records_of userId (update k f m) = records_of userId m.
Proof.
  intros Hf. unfold update. destruct (JsMap.get k m) as [v|] eqn:E; auto.
  now apply (records_of_set_same userId k v).
Qed.

Lemma records_of_none userId m :
  (forall k r, In (k, r) m -> BorrowingRecord.borrowerId r <> userId) ->
  records_of userId m = [].
Proof.
  intros H. induction m as [|[k0 v0] m IH]; auto.
  unfold records_of in *. simpl.
  destruct (String.eqb (BorrowingRecord.borrowerId v0) userId) eqn:E.
  - apply String.eqb_eq in E. exfalso. apply (H k0 v0); [now left | exact E].
  - apply IH. intros k r Hin. apply (H k r). now right.
Qed.

Lemma holds_active_set_new s s' recordId bookId borrowerId now1 due :
  Library.borrowingRecords s'
  = JsMap.set recordId
      (BorrowingRecord.new recordId bookId borrowerId now1 due)
      (Library.borrowingRecords s) ->
  JsMap.get recordId (Library.borrowingRecords s) = None ->
  forall userId k,
    holds_active s' userId k <->
    holds_active s userId k \/ (userId = borrowerId /\ k = bookId).
Proof.
  intros Hl Hfresh userId k. unfold holds_active. rewrite Hl. split.
  - intros (kr & r & Hr & Hb & Hu & Hst).
    destruct (String.string_dec recordId kr) as [<-|Hne].
    + rewrite get_set_eq in Hr. injection Hr as <-. simpl in *. right. auto.
    + rewrite get_set_neq in Hr by auto. left. eauto 6.
  - intros [(kr & r & Hr & Hb & Hu & Hst) | [-> ->]].
    + exists kr, r. rewrite get_set_neq; auto. congruence.
    + eexists recordId, _. rewrite get_set_eq. split; [reflexivity|]. simpl. auto.
Qed.

Lemma holds_active_returned s s' key r now1 :
  consistent s ->
  Library.borrowingRecords s'
  = update key (record_returned now1) (Library.borrowingRecords s) ->
  JsMap.get key (Library.borrowingRecords s) = Some r ->
  BorrowingRecord.status r = ACTIVE ->
  forall userId k,
    holds_active s' userId k <->
    holds_active s userId k /\ k <> BorrowingRecord.bookId r.
Proof.
  intros Hc Hl Hr Hact userId k. unfold holds_active. rewrite Hl. split.
  - intros (kr & x & Hx & Hb & Hu & Hst).
    destruct (String.string_dec key kr) as [<-|Hne].
    + rewrite get_update_eq, Hr in Hx. simpl in Hx. injection Hx as <-.
      discriminate.
    + rewrite get_update_neq in Hx by auto. split; [eauto 6|].
      intros E. apply Hne. symmetry.
      apply (active_unique s Hc kr x key r); auto. congruence.
  - intros [(kr & x & Hx & Hb & Hu & Hst) Hk].
    exists kr, x. rewrite get_update_neq; auto. congruence.
Qed.

Lemma borrowers_registered_users s users' :
  (forall k, JsMap.get k (Library.users s) <> None -> JsMap.get k users' <> None) ->
  borrowers_registered s ->
  borrowers_registered
    (Library.mk (Library.books s) users' (Library.borrowingRecords s)).
Proof.
  intros Hu Hb k r Hr. simpl in *. destruct (Hb k r Hr) as [u Hget].
  destruct (JsMap.get (BorrowingRecord.borrowerId r) users') as [u'|] eqn:E; eauto.
  exfalso. apply (Hu (BorrowingRecord.borrowerId r)); congruence.
Qed.

End Links.

Section LinkedInvariant.
Import JsMapFacts JsMapMoreFacts.

Lemma linked_new : linked Library.new.
Proof. constructor; intros k u; discriminate. Qed.

Lemma linked_books s books' :
  linked s ->
  linked (Library.mk books' (Library.users s) (Library.borrowingRecords s)).
Proof. intros [H1 H2 H3 H4]. constructor; auto. Qed.

Lemma linked_update_user s k f :
  (forall u, Borrower.borrowedBooks (f u) = Borrower.borrowedBooks u) ->
  (forall u, Borrower.borrowingHistory (f u) = Borrower.borrowingHistory u) ->
  linked s ->
  linked (Library.set_users (update k f (Library.users s)) s).
Proof.
  intros Hb Hh [H1 H2 H3 H4].
  assert (Hget : forall k' u',
            JsMap.get k' (update k f (Library.users s)) = Some u' ->
            exists u, JsMap.get k' (Library.users s) = Some u
              /\ Borrower.borrowedBooks u' = Borrower.borrowedBooks u
              /\ Borrower.borrowingHistory u' = Borrower.borrowingHistory u).
  { intros k' u'. destruct (String.string_dec k k') as [<-|Hne].
    - rewrite get_update_eq.
      destruct (JsMap.get k (Library.users s)) as [u0|] eqn:E; simpl; [|discriminate].
      intros [= <-]. eauto.
    - rewrite get_update_neq by auto. eauto. }
  constructor.
  - apply (borrowers_registered_users s); auto.
    intros k'. apply get_update_defined.
  - intros k' u' Hu' b. simpl in Hu'.
    destruct (Hget k' u' Hu') as (u & Hu & E1 & _). rewrite E1.
    apply (H2 k' u Hu b).
  - intros k' u' Hu'. simpl in Hu'.
    destruct (Hget k' u' Hu') as (u & Hu & E1 & _). rewrite E1. eauto.
  - intros k' u' Hu'. simpl in Hu'.
    destruct (Hget k' u' Hu') as (u & Hu & _ & E2). rewrite E2.
    apply (H4 k' u Hu).
Qed.

Lemma linked_register s userData userId now1 now2 :
  JsMap.get userId (Library.users s) = None ->
  consistent s -> linked s ->
  linked
    (Library.set_users
       (JsMap.set userId
          (Borrower.new userId (ud_name userData) (ud_firstname userData)
             (ud_email userData) (ud_phone userData) (ud_address userData)
             now1 now2)
          (Library.users s)) s).
Proof.
  intros Hfresh Hc [H1 H2 H3 H4].
  assert (Hnone : forall k r,
            JsMap.get k (Library.borrowingRecords s) = Some r ->
            BorrowingRecord.borrowerId r <> userId).
  { intros k r Hr E. destruct (H1 k r Hr) as [u Hu]. congruence. }
  constructor.
  - apply (borrowers_registered_users s); auto.
    intros k. apply get_set_defined.
  - intros k u. simpl. destruct (String.string_dec userId k) as [<-|Hne].
    + rewrite get_set_eq. intros [= <-] b. simpl. split; [tauto|].
      intros (kr & r & Hr & _ & Hu & _). now apply (Hnone kr r).
    + rewrite get_set_neq by auto. intros Hu b. apply (H2 k u Hu b).
  - intros k u. simpl. destruct (String.string_dec userId k) as [<-|Hne].
    + rewrite get_set_eq. intros [= <-]. constructor.
    + rewrite get_set_neq by auto. eauto.
  - intros k u. simpl. destruct (String.string_dec userId k) as [<-|Hne].
    + rewrite get_set_eq. intros [= <-]. simpl. symmetry.
      apply records_of_none. intros kr r Hin.
      apply (Hnone kr r). now apply (In_get _ _ _ (ledger_wf s Hc)).
    + rewrite get_set_neq by auto. apply H4.
Qed.

Lemma linked_borrow zone s bookId borrowerId now1 recordId book u books' :
  JsMap.get bookId (Library.books s) = Some book ->
  JsMap.get borrowerId (Library.users s) = Some u ->
  Book.isAvailable book = true ->
  JsMap.get recordId (Library.borrowingRecords s) = None ->
  consistent s -> linked s ->
  linked
    (Library.mk books'
       (JsMap.set borrowerId (borrower_lent bookId recordId u) (Library.users s))
       (JsMap.set recordId
          (BorrowingRecord.new recordId bookId borrowerId now1
             (calculateDueDate zone now1))
          (Library.borrowingRecords s))).
Proof.
  intros Hb Hu Hav Hfresh Hc Hl.
  destruct Hl as [H1 H2 H3 H4].
  set (s' := Library.mk books'
       (JsMap.set borrowerId (borrower_lent bookId recordId u) (Library.users s))
       (JsMap.set recordId
          (BorrowingRecord.new recordId bookId borrowerId now1
             (calculateDueDate zone now1))
          (Library.borrowingRecords s))).
  assert (Hact : forall userId k,
            holds_active s' userId k <->
            holds_active s userId k \/ (userId = borrowerId /\ k = bookId)).
  { apply (holds_active_set_new s s' recordId bookId borrowerId now1
             (calculateDueDate zone now1)); auto. }
  assert (Hnot : ~ In bookId (Borrower.borrowedBooks u)).
  { intros Hin. apply (H2 borrowerId u Hu) in Hin.
    destruct Hin as (kr & r & Hr & Hrb & _ & Hst).
    destruct (active_unavailable s Hc kr r Hr Hst) as (b & Hb' & Hav').
    congruence. }
  constructor.
  - intros k r. simpl. destruct (String.string_dec recordId k) as [<-|Hne].
    + rewrite get_set_eq. intros [= <-]. simpl. rewrite get_set_eq. eauto.
    + rewrite get_set_neq by auto. intros Hr. destruct (H1 k r Hr) as [u0 Hu0].
      destruct (JsMap.get (BorrowingRecord.borrowerId r)
                  (JsMap.set borrowerId (borrower_lent bookId recordId u)
                     (Library.users s))) as [u'|] eqn:E; eauto.
      exfalso. revert E. apply get_set_defined. congruence.
  - intros k u'. simpl. destruct (String.string_dec borrowerId k) as [<-|Hne].
    + rewrite get_set_eq. intros [= <-] b. simpl.
      rewrite in_app_iff, Hact, (H2 borrowerId u Hu b). simpl.
      split; intros [H | H]; auto.
      * destruct H as [<- | []]. auto.
      * destruct H as [_ ->]. auto.
    + rewrite get_set_neq by auto. intros Hu' b.
      rewrite Hact, (H2 k u' Hu' b). split; [auto|].
      intros [H | [E _]]; [exact H | congruence].
  - intros k u'. simpl. destruct (String.string_dec borrowerId k) as [<-|Hne].
    + rewrite get_set_eq. intros [= <-]. simpl.
      apply NoDup_app; eauto.
      * constructor; [simpl; tauto | constructor].
      * intros x Hx [<- | []]. auto.
    + rewrite get_set_neq by auto. eauto.
  - intros k u'. simpl. rewrite (set_absent _ _ _ Hfresh), records_of_app.
    destruct (String.string_dec borrowerId k) as [<-|Hne].
    + rewrite get_set_eq. intros [= <-]. simpl.
      rewrite (H4 borrowerId u Hu). unfold records_of at 3. simpl.
      now rewrite String.eqb_refl.
    + rewrite get_set_neq by auto. intros Hu'.
      rewrite (H4 k u' Hu'). unfold records_of at 3. simpl.
      apply String.eqb_neq in Hne. rewrite Hne. simpl. now rewrite app_nil_r.
Qed.

Lemma linked_return s bookId borrowerId now1 u key r books' :
  JsMap.get borrowerId (Library.users s) = Some u ->
  JsMap.find (is_active_loan_of bookId borrowerId) (Library.borrowingRecords s)
    = Some (key, r) ->
  consistent s -> linked s ->
  linked
    (Library.mk books'
       (JsMap.set borrowerId (borrower_returned bookId u) (Library.users s))
       (update key (record_returned now1) (Library.borrowingRecords s))).
Proof.
  intros Hu Hfind Hc [H1 H2 H3 H4].
  destruct (find_Some _ _ _ _ Hfind) as [Hin Hp].
  apply is_active_loan_of_true in Hp. destruct Hp as (Hrb & Hru & Hract).
  pose proof (In_get _ _ _ (ledger_wf s Hc) Hin) as Hr.
  set (s' := Library.mk books'
       (JsMap.set borrowerId (borrower_returned bookId u) (Library.users s))
       (update key (record_returned now1) (Library.borrowingRecords s))).
  assert (Hact : forall userId k,
            holds_active s' userId k <->
            holds_active s userId k /\ k <> bookId).
  { intros userId k. rewrite <- Hrb.
    apply (holds_active_returned s s' key r now1); auto. }
  assert (Hother : forall userId k,
            userId <> borrowerId -> holds_active s userId k -> k <> bookId).
  { intros userId k Hne (kr & x & Hx & Hxb & Hxu & Hxst) ->.
    assert (kr = key) by (apply (active_unique s Hc kr x key r); auto; congruence).
    subst kr. congruence. }
  constructor.
  - intros k x. simpl.
    assert (Hdef : forall y,
              (exists u0, JsMap.get (BorrowingRecord.borrowerId y) (Library.users s) = Some u0) ->
              exists u', JsMap.get (BorrowingRecord.borrowerId y)
                           (JsMap.set borrowerId (borrower_returned bookId u)
                              (Library.users s)) = Some u').
    { intros y [u0 Hu0].
      destruct (JsMap.get (BorrowingRecord.borrowerId y)
                  (JsMap.set borrowerId (borrower_returned bookId u)
                     (Library.users s))) as [u'|] eqn:E; eauto.
      exfalso. revert E. apply get_set_defined. congruence. }
    destruct (String.string_dec key k) as [<-|Hne].
    + rewrite get_update_eq, Hr. simpl. intros [= <-]. simpl.
      apply (Hdef r). eauto.
    + rewrite get_update_neq by auto. intros Hx. apply Hdef. eauto.
  - intros k u'. simpl. destruct (String.string_dec borrowerId k) as [<-|Hne].
    + rewrite get_set_eq. intros [= <-] b. simpl.
      rewrite filter_In, Hact, (H2 borrowerId u Hu b).
      rewrite negb_true_iff, String.eqb_neq. tauto.
    + rewrite get_set_neq by auto. intros Hu' b.
      rewrite Hact, (H2 k u' Hu' b). split; [|tauto].
      intros H. split; auto. apply (Hother k b); auto.
  - intros k u'. simpl. destruct (String.string_dec borrowerId k) as [<-|Hne].
    + rewrite get_set_eq. intros [= <-]. simpl. apply NoDup_filter. eauto.
    + rewrite get_set_neq by auto. eauto.
  - intros k u'. simpl. rewrite records_of_update by reflexivity.
    destruct (String.string_dec borrowerId k) as [<-|Hne].
    + rewrite get_set_eq. intros [= <-]. simpl. apply (H4 borrowerId u Hu).
    + rewrite get_set_neq by auto. apply H4.
Qed.

Lemma outcome_linked s a s' :
  outcome s a s' -> fresh_uuid s a -> consistent s -> linked s -> linked s'.
Proof.
  intros Ho Hfresh Hc Hl. destruct Ho; auto.
  - now apply (linked_books s).
  - now apply (linked_books s).
  - apply linked_register; auto. now apply has_false_get.
  - apply (linked_borrow zone s bookId borrowerId now1 recordId book u); auto.
    now apply has_false_get.
  - now apply (linked_return s bookId borrowerId now1 u key r).
  - now apply linked_update_user.
  - now apply linked_update_user.
  - now apply (linked_books s).
  - now apply (linked_books s).
Qed.

Lemma reachable_linked P s : reachable P s -> linked s.
Proof.
  induction 1 as [|s a Hr IH Hfresh Hadd].
  - apply linked_new.
  - eapply outcome_linked; eauto using exec_outcome, reachable_consistent.
Qed.

End LinkedInvariant.

(** ** The catalog and the roster *)

Section CatalogAndRoster.
Import JsMapFacts JsMapMoreFacts.

Lemma getBook_run bookId s :
  getBook bookId s =
  match JsMap.get bookId (Library.books s) with
  | Some book => (inr book, s)
  | None => (inl (BookNotFound bookId), s)
  end.
Proof.
  unfold getBook, bind, gets. simpl.
  now destruct (JsMap.get bookId (Library.books s)).
Qed.

Lemma getUser_run userId s :
  getUser userId s =
  match JsMap.get userId (Library.users s) with
  | Some user => (inr user, s)
  | None => (inl (UserNotFound userId), s)
  end.
Proof.
  unfold getUser, bind, gets. simpl.
  now destruct (JsMap.get userId (Library.users s)).
Qed.

(** X1: an entry whose id the catalog does not hold is stored by [addBook]
    as it was given: [getBook] of its id returns it, [getAllBooks] lists it
    after the entries that were there, and the lookups of the other ids,
    the roster and the ledger are as before. *)
Theorem addBook_then_getBook s book :
  JsMap.has (Book.id book) (Library.books s) = false ->
  fst (addBook book s) = inr tt
  /\ getBook (Book.id book) (exec (AddBook book) s)
     = (inr book, exec (AddBook book) s)
  /\ getAllBooks (exec (AddBook book) s)
     = (inr (JsMap.values (Library.books s) ++ [book]), exec (AddBook book) s)
  /\ (forall k, k <> Book.id book ->
        fst (getBook k (exec (AddBook book) s)) = fst (getBook k s))
  /\ Library.users (exec (AddBook book) s) = Library.users s
  /\ Library.borrowingRecords (exec (AddBook book) s)
     = Library.borrowingRecords s.
Proof.
  intros H. unfold exec. cbn [perform]. rewrite addBook_run, H. simpl.
  repeat split.
  - rewrite getBook_run. simpl. now rewrite get_set_eq.
  - unfold getAllBooks, gets. simpl.
    now rewrite values_set_absent by now apply has_false_get.
  - intros k Hne. rewrite !getBook_run. simpl.
    rewrite get_set_neq by congruence.
    now destruct (JsMap.get k (Library.books s)).
Qed.

Lemma addBook_then_getBook_witness :
  getBook "book-001" (exec (AddBook (testBook "book-001" TECHNOLOGY)) Library.new)
  = (inr (testBook "book-001" TECHNOLOGY),
     exec (AddBook (testBook "book-001" TECHNOLOGY)) Library.new).
Proof.
  destruct (addBook_then_getBook Library.new (testBook "book-001" TECHNOLOGY)
              eq_refl) as (_ & H & _).
  exact H.
Defined.

(** X2: [addBook] never replaces an entry: whatever the first call did, a
    second call with the same id throws and leaves the store as it was,
    and every entry that [getBook] found before a call is the one it finds
    after it. *)
Theorem addBook_never_overwrites s book :
  (forall book', Book.id book' = Book.id book ->
     addBook book' (exec (AddBook book) s)
     = (inl (BookAlreadyExists (Book.id book)), exec (AddBook book) s))
  /\ (forall k b, fst (getBook k s) = inr b ->
        fst (getBook k (exec (AddBook book) s)) = inr b).
Proof.
  unfold exec. cbn [perform]. rewrite addBook_run.
  destruct (JsMap.has (Book.id book) (Library.books s)) eqn:E; simpl; split.
  - intros book' Hid. rewrite addBook_run, Hid, E. reflexivity.
  - auto.
  - intros book' Hid. rewrite addBook_run, Hid. simpl.
    unfold JsMap.has. now rewrite get_set_eq.
  - intros k b. rewrite !getBook_run. simpl.
    destruct (JsMap.get k (Library.books s)) as [b0|] eqn:Hk; [|discriminate].
    assert (Hne : Book.id book <> k).
    { intros Heq. apply has_false_get in E. rewrite Heq in E. congruence. }
    rewrite get_set_neq by exact Hne. now rewrite Hk.
Qed.

(** X3: removing an entry right after it was added under an id the catalog
    did not hold gives back the store as it was before the two calls, when
    the entry was handed over available; an entry handed over unavailable
    cannot be removed. *)
Theorem addBook_then_removeBook s book :
  JsMap.has (Book.id book) (Library.books s) = false ->
  removeBook (Book.id book) (exec (AddBook book) s)
  = if Book.isAvailable book then (inr tt, s)
    else (inl CannotRemoveBorrowedBook, exec (AddBook book) s).
Proof.
  intros H. unfold exec. cbn [perform]. rewrite addBook_run, H. simpl.
  rewrite removeBook_run. simpl. rewrite get_set_eq.
  destruct (Book.isAvailable book); [|reflexivity].
  rewrite delete_set_absent by now apply has_false_get.
  now destruct s.
Qed.

Lemma addBook_then_removeBook_witness :
  removeBook "book-002"
    (exec (AddBook (testBook "book-002" FICTION)) s_member)
  = (inr tt, s_member).
Proof.
  exact (addBook_then_removeBook s_member (testBook "book-002" FICTION) eq_refl).
Defined.

(** X4: an account registered under an id the roster does not hold is the
    one [getUser] returns for that id; [getAllUsers] lists it after the
    accounts that were there; it is not authorized and holds no book; the
    lookups of the other ids, the catalog and the ledger are as before. *)
Theorem registerUser_then_getUser s userData userId now1 now2 :
  JsMap.has userId (Library.users s) = false ->
  exists u,
    registerUser userData userId now1 now2 s
    = (inr u, exec (RegisterUser userData userId now1 now2) s)
    /\ getUser userId (exec (RegisterUser userData userId now1 now2) s)
       = (inr u, exec (RegisterUser userData userId now1 now2) s)
    /\ getAllUsers (exec (RegisterUser userData userId now1 now2) s)
       = (inr (JsMap.values (Library.users s) ++ [u]),
          exec (RegisterUser userData userId now1 now2) s)
    /\ (forall k, k <> userId ->
          fst (getUser k (exec (RegisterUser userData userId now1 now2) s))
          = fst (getUser k s))
    /\ BorrowerMethods.getId u = userId
    /\ Borrower.isAuthorized u = false
    /\ Borrower.borrowedBooks u = []
    /\ Library.books (exec (RegisterUser userData userId now1 now2) s)
       = Library.books s
    /\ Library.borrowingRecords (exec (RegisterUser userData userId now1 now2) s)
       = Library.borrowingRecords s.
Proof.
  intros H. eexists. unfold exec. cbn [perform].
  rewrite snd_bind_ret, registerUser_run. simpl.
  split; [reflexivity|]. repeat split.
  - rewrite getUser_run. simpl. now rewrite get_set_eq.
  - unfold getAllUsers, gets. simpl.
    now rewrite values_set_absent by now apply has_false_get.
  - intros k Hne. rewrite !getUser_run. simpl.
    rewrite get_set_neq by congruence.
    now destruct (JsMap.get k (Library.users s)).
Qed.

Lemma registerUser_then_getUser_witness :
  exists u,
    getUser "user-002"
      (exec (RegisterUser testUserData "user-002" (day 1) (day 1)) s_member)
    = (inr u, exec (RegisterUser testUserData "user-002" (day 1) (day 1)) s_member)
    /\ Borrower.isAuthorized u = false.
Proof.
  destruct (registerUser_then_getUser s_member testUserData "user-002"
              (day 1) (day 1) eq_refl) as (u & _ & H1 & _ & _ & _ & H2 & _).
  exists u. split; [exact H1 | exact H2].
Defined.

End CatalogAndRoster.

(** ** The methods of an account *)

Section Account.

Lemma assign_if_defined_twice {A : Type} (a b : option A) (x : A) :
  BorrowerMethods.assign_if_defined b (BorrowerMethods.assign_if_defined a x)
  = BorrowerMethods.assign_if_defined
      (match b with Some _ => b | None => a end) x.
Proof. now destruct a, b. Qed.

(** X5: writing back the profile that [getProfile] returned changes
    nothing; two calls of [updateProfile] amount to one call with the two
    arguments merged, the later one first; and [updateProfile] leaves the
    id, the last login and what [isActive] and [canBorrow] compute as they
    were, whatever its argument holds for them. *)
Theorem updateProfile_getProfile now u p q :
  BorrowerMethods.updateProfile
    (PartialUserProfile.of_profile (BorrowerMethods.getProfile now u)) u = u
  /\ BorrowerMethods.updateProfile q (BorrowerMethods.updateProfile p u)
     = BorrowerMethods.updateProfile (PartialUserProfile.merge p q) u
  /\ UserProfile.id (BorrowerMethods.getProfile now (BorrowerMethods.updateProfile p u))
     = Borrower.id u
  /\ UserProfile.isActive
       (BorrowerMethods.getProfile now (BorrowerMethods.updateProfile p u))
     = Borrower.isActive now u
  /\ UserProfile.lastLogin
       (BorrowerMethods.getProfile now (BorrowerMethods.updateProfile p u))
     = Borrower.lastLogin u
  /\ Borrower.canBorrow now (BorrowerMethods.updateProfile p u)
     = Borrower.canBorrow now u.
Proof.
  repeat split.
  - now destruct u.
  - unfold BorrowerMethods.updateProfile, PartialUserProfile.merge. simpl.
    now rewrite !assign_if_defined_twice.
Qed.

(** X6: time alone lifts a suspension and never imposes one: an account
    that is not suspended, is active or can borrow at one clock reading is
    so at every later one, as long as nothing is written to it. *)
Theorem isSuspended_monotone t t' u :
  t <= t' ->
  (Borrower.isSuspended t u = false -> Borrower.isSuspended t' u = false)
  /\ (Borrower.isActive t u = true -> Borrower.isActive t' u = true)
  /\ (Borrower.canBorrow t u = true -> Borrower.canBorrow t' u = true).
Proof.
  intros Hle.
  assert (H : Borrower.isSuspended t u = false ->
              Borrower.isSuspended t' u = false).
  { unfold Borrower.isSuspended.
    destruct (Borrower.suspensionEndDate u) as [endDate|]; auto.
    rewrite !Z.ltb_ge. lia. }
  split; [exact H|]. split.
  - unfold Borrower.isActive. rewrite !andb_true_iff, !negb_true_iff.
    intros [H1 H2]. auto.
  - unfold Borrower.canBorrow. rewrite !andb_true_iff, !negb_true_iff.
    intros [H1 H2]. auto.
Qed.

Lemma isSuspended_monotone_witness :
  Borrower.isSuspended (day 8)
    (Borrower.set_suspensionEndDate (Some (day 7))
       (Borrower.new "user-001" "Dupont" "Marie" "marie.dupont@example.com"
          "+33612345678" "10 rue Test" (day 0) (day 0))) = false.
Proof.
  apply (isSuspended_monotone (day 7) (day 8)).
  - unfold day, MS_PER_DAY. lia.
  - reflexivity.
Defined.

(** X7: [borrowBook] reaches its last throw, the one that stands for the
    call of the library, exactly for an authorized account that is not
    suspended and holds fewer books than its cap; it throws for the
    missing authorization exactly for an account that is not authorized,
    not suspended and under its cap. *)
Theorem borrowBook_guards now bookId u :
  (Borrower.borrowBook now bookId u = Borrower.BorrowingServiceNotIntegrated
   <-> Borrower.isAuthorized u = true
       /\ Borrower.isSuspended now u = false
       /\ Z.of_nat (List.length (Borrower.borrowedBooks u))
          < Borrower.maxBooksAllowed u)
  /\ (Borrower.borrowBook now bookId u = Borrower.AccountNotAuthorized
      <-> Borrower.isAuthorized u = false
          /\ Borrower.isSuspended now u = false
          /\ Z.of_nat (List.length (Borrower.borrowedBooks u))
             < Borrower.maxBooksAllowed u).
Proof.
  unfold Borrower.borrowBook, Borrower.canBorrow,
    Borrower.isActive_method_reference.
  rewrite andb_true_r.
  destruct (Z.ltb_spec (Z.of_nat (List.length (Borrower.borrowedBooks u)))
              (Borrower.maxBooksAllowed u)) as [Hlt|Hge];
    destruct (Borrower.isSuspended now u), (Borrower.isAuthorized u); simpl;
    split; split; try discriminate; try tauto;
    try (intros (? & ? & ?); first [discriminate | lia]).
Qed.

(** X8: [returnBook] of a book the account holds takes the book out of
    [borrowedBooks], leaves the other books there in their order, and
    then throws; of a book the account does not hold it throws at once
    and writes nothing. *)
Theorem returnBook_writes_then_throws bookId u :
  (In bookId (Borrower.borrowedBooks u) ->
     fst (BorrowerMethods.returnBook bookId u)
     = BorrowerMethods.ReturnServiceNotIntegrated
     /\ Borrower.borrowedBooks (snd (BorrowerMethods.returnBook bookId u))
        = filter (fun id => negb (String.eqb id bookId))
            (Borrower.borrowedBooks u)
     /\ ~ In bookId
          (Borrower.borrowedBooks (snd (BorrowerMethods.returnBook bookId u))))
  /\ (~ In bookId (Borrower.borrowedBooks u) ->
        BorrowerMethods.returnBook bookId u
        = (BorrowerMethods.CannotReturnNotBorrowed, u)).
Proof.
  unfold BorrowerMethods.returnBook, BorrowerMethods.includes.
  split; intros H.
  - assert (E : existsb (fun id => String.eqb id bookId)
                  (Borrower.borrowedBooks u) = true).
    { apply existsb_exists. exists bookId. split; auto. apply String.eqb_refl. }
    rewrite E. simpl. repeat split.
    rewrite filter_In, negb_true_iff, String.eqb_neq. tauto.
  - destruct (existsb _ _) eqn:E; [|reflexivity].
    apply existsb_exists in E. destruct E as (x & Hin & Hx).
    apply String.eqb_eq in Hx. subst x. contradiction.
Qed.

End Account.

(** ** Loans in the states the engine reaches *)

Section Loans.
Import JsMapFacts JsMapMoreFacts.

Lemma is_active_loan_of_intro bookId borrowerId r :
  BorrowingRecord.bookId r = bookId ->
  BorrowingRecord.borrowerId r = borrowerId ->
  BorrowingRecord.status r = ACTIVE ->
  is_active_loan_of bookId borrowerId r = true.
Proof.
  intros <- <- Hst. unfold is_active_loan_of.
  now rewrite !String.eqb_refl, Hst.
Qed.

Lemma find_active_None s bookId borrowerId :
  consistent s ->
  (JsMap.find (is_active_loan_of bookId borrowerId) (Library.borrowingRecords s)
   = None
   <-> ~ holds_active s borrowerId bookId).
Proof.
  intros Hc. split.
  - intros Hf (k & r & Hr & Hb & Hu & Hst).
    pose proof (find_None _ _ Hf k r (get_In _ _ _ Hr)) as E.
    now rewrite (is_active_loan_of_intro bookId borrowerId r) in E.
  - intros Hn.
    destruct (JsMap.find _ _) as [[k r]|] eqn:Hf; [|reflexivity].
    exfalso. apply Hn. destruct (find_Some _ _ _ _ Hf) as [Hin Hp].
    apply is_active_loan_of_true in Hp. destruct Hp as (Hb & Hu & Hst).
    exists k, r. repeat split; auto.
    now apply (In_get _ _ _ (ledger_wf s Hc)).
Qed.

Lemma keys_update {V : Type} k (f : V -> V) (m : JsMap.t V) :
  JsMap.keys (update k f m) = JsMap.keys m.
Proof.
  unfold update. destruct (JsMap.get k m) as [v|] eqn:E; auto.
  now apply (keys_set_present k (f v) v).
Qed.

Lemma outcome_as_made s a s' :
  outcome s a s' ->
  in_fixed_zone a ->
  (forall k r, JsMap.get k (Library.borrowingRecords s) = Some r -> as_made r) ->
  forall k r, JsMap.get k (Library.borrowingRecords s') = Some r -> as_made r.
Proof.
  intros Ho Hz H. destruct Ho; auto; intros k x; simpl.
  - destruct (String.string_dec recordId k) as [<-|Hne].
    + rewrite get_set_eq. intros [= <-]. destruct Hz as [Hfixed Hrange].
      split; [|split; reflexivity]. simpl.
      now apply calculateDueDate_fixed.
    + rewrite get_set_neq by auto. apply H.
  - destruct (String.string_dec key k) as [<-|Hne].
    + rewrite get_update_eq.
      destruct (JsMap.get key (Library.borrowingRecords s)) as [r0|] eqn:E;
        [|discriminate].
      simpl. intros [= <-]. apply (H key r0 E).
    + rewrite get_update_neq by auto. apply H.
Qed.

Lemma reachable_by_reachable Q s : reachable_by Q s -> reachable any_entry s.
Proof.
  induction 1 as [|s a Hr IH Hfresh Hq].
  - constructor.
  - constructor; auto. now destruct a.
Qed.

Lemma reachable_by_run Q l s :
  reachable_by Q s -> run_ok_by Q l s -> reachable_by Q (run l s).
Proof.
  revert s. induction l as [|a l IH]; simpl; intros s Hr Hok; auto.
  destruct Hok as [Hf [Ha Hok]].
  apply IH; auto. now constructor.
Qed.

Lemma reachable_as_made s :
  reachable_by in_fixed_zone s ->
  forall k r, JsMap.get k (Library.borrowingRecords s) = Some r -> as_made r.
Proof.
  induction 1 as [|s a Hr IH Hfresh Hz].
  - intros k r. discriminate.
  - eapply outcome_as_made; [apply exec_outcome | exact Hz | exact IH].
Qed.

(** X9: in the states the engine reaches, [processReturn] of an entry by
    an account returns exactly when the ledger holds an Active record of
    that entry for that account; then the entry and the account exist,
    whatever the restriction of the entry and the authorization or the
    suspension of the account. *)
Theorem processReturn_returns_iff_active P s bookId borrowerId now1 now2 :
  reachable P s ->
  (fst (processReturn bookId borrowerId now1 now2 s) = inr tt
   <-> holds_active s borrowerId bookId).
Proof.
  intros Hr.
  pose proof (reachable_consistent P s Hr) as Hc.
  pose proof (reachable_linked P s Hr) as Hl.
  rewrite processReturn_run. split.
  - destruct (JsMap.get bookId (Library.books s)) as [book|]; [|discriminate].
    destruct (JsMap.get borrowerId (Library.users s)) as [u|]; [|discriminate].
    destruct (JsMap.find _ _) as [[key r]|] eqn:Hf; [|discriminate].
    intros _. destruct (find_Some _ _ _ _ Hf) as [Hin Hp].
    apply is_active_loan_of_true in Hp. destruct Hp as (Hb & Hu & Hst).
    exists key, r. repeat split; auto.
    now apply (In_get _ _ _ (ledger_wf s Hc)).
  - intros Hact. pose proof Hact as (k & r & Hget & Hb & Hu & Hst).
    destruct (active_unavailable s Hc k r Hget Hst) as (book & Hbook & _).
    destruct (linked_borrowers s Hl k r Hget) as [u Huser].
    rewrite Hb in Hbook. rewrite Hu in Huser. rewrite Hbook, Huser.
    destruct (JsMap.find _ _) as [[key r']|] eqn:Hf; [reflexivity|].
    exfalso. now apply (find_active_None s bookId borrowerId Hc).
Qed.

Lemma processReturn_returns_iff_active_witness :
  fst (processReturn "book-001" "user-001" (day 3) (day 3) s_on_loan) = inr tt
  <-> holds_active s_on_loan "user-001" "book-001".
Proof.
  apply (processReturn_returns_iff_active any_entry).
  apply (reachable_run any_entry (member_actions TECHNOLOGY
           ++ [ProcessBorrowing TimeZone.UTC "book-001" "user-001" (day 0) "rec-001" (day 0)])
           Library.new); [constructor|].
  simpl. repeat split.
Defined.

(** X10: in the states the engine reaches, a return that succeeded cannot
    be repeated: the same call again throws for the missing Active record
    and leaves the store as the first call left it. *)
Theorem processReturn_twice P s bookId borrowerId now1 now2 now3 now4 :
  reachable P s ->
  fst (processReturn bookId borrowerId now1 now2 s) = inr tt ->
  processReturn bookId borrowerId now3 now4
    (exec (ProcessReturn bookId borrowerId now1 now2) s)
  = (inl NoActiveBorrowingRecord,
     exec (ProcessReturn bookId borrowerId now1 now2) s).
Proof.
  intros Hr Hok.
  pose proof (reachable_consistent P s Hr) as Hc.
  assert (Hr' : reachable P (exec (ProcessReturn bookId borrowerId now1 now2) s)).
  { constructor; simpl; auto. }
  pose proof (reachable_consistent P _ Hr') as Hc'.
  revert Hok Hc'. unfold exec. cbn [perform]. rewrite processReturn_run.
  destruct (JsMap.get bookId (Library.books s)) as [book|]; [|discriminate].
  destruct (JsMap.get borrowerId (Library.users s)) as [u|]; [|discriminate].
  destruct (JsMap.find _ _) as [[key r]|] eqn:Hf; [|discriminate].
  simpl. intros _ Hc'. rewrite processReturn_run. simpl.
  rewrite !get_set_eq.
  destruct (find_Some _ _ _ _ Hf) as [Hin Hp].
  apply is_active_loan_of_true in Hp. destruct Hp as (Hb & Hu & Hst).
  pose proof (In_get _ _ _ (ledger_wf s Hc) Hin) as Hget.
  match goal with
  | |- context [JsMap.find ?p ?m] => destruct (JsMap.find p m) as [[key' r']|] eqn:Hf'
  end; [|reflexivity].
  exfalso.
  pose proof (proj2 (find_active_None _ bookId borrowerId Hc')) as Hnone.
  simpl in Hnone. rewrite Hnone in Hf'; [discriminate|].
  match goal with
  | |- ~ holds_active ?s' _ _ =>
      intros Hact;
      apply (proj1 (holds_active_returned s s' key r now1 Hc eq_refl Hget Hst
                      borrowerId bookId)) in Hact
  end.
  destruct Hact as [_ Hne]. congruence.
Qed.

Lemma processReturn_twice_witness :
  processReturn "book-001" "user-001" (day 4) (day 4)
    (exec (ProcessReturn "book-001" "user-001" (day 3) (day 3)) s_on_loan)
  = (inl NoActiveBorrowingRecord,
     exec (ProcessReturn "book-001" "user-001" (day 3) (day 3)) s_on_loan).
Proof.
  apply (processReturn_twice any_entry); [|reflexivity].
  apply (reachable_run any_entry (member_actions TECHNOLOGY
           ++ [ProcessBorrowing TimeZone.UTC "book-001" "user-001" (day 0) "rec-001" (day 0)])
           Library.new); [constructor|].
  simpl. repeat split.
Defined.

(** X11: in the states the engine reaches, an entry with an Active record
    cannot be removed: [removeBook] throws and leaves the store as it
    was. *)
Theorem removeBook_on_loan_throws P s userId bookId :
  reachable P s ->
  holds_active s userId bookId ->
  removeBook bookId s = (inl CannotRemoveBorrowedBook, s).
Proof.
  intros Hr (k & r & Hget & Hb & _ & Hst).
  destruct (active_unavailable s (reachable_consistent P s Hr) k r Hget Hst)
    as (book & Hbook & Hav).
  rewrite removeBook_run. rewrite Hb in Hbook. now rewrite Hbook, Hav.
Qed.

Lemma removeBook_on_loan_throws_witness :
  removeBook "book-001" s_on_loan = (inl CannotRemoveBorrowedBook, s_on_loan).
Proof.
  apply (removeBook_on_loan_throws any_entry s_on_loan "user-001").
  - apply (reachable_run any_entry (member_actions TECHNOLOGY
           ++ [ProcessBorrowing TimeZone.UTC "book-001" "user-001" (day 0) "rec-001" (day 0)])
           Library.new); [constructor|].
    simpl. repeat split.
  - exists "rec-001". eexists. repeat split.
Defined.

(** X12: in the states reached when every entry is handed to [addBook]
    available, an entry of the catalog with no Active record can be
    removed; after that [getBook] of its id throws, the lookups of the
    other ids are as before, and the roster and the ledger, its Returned
    records of the entry included, are untouched. *)
Theorem removeBook_not_on_loan s bookId book :
  reachable available_entry s ->
  JsMap.get bookId (Library.books s) = Some book ->
  (forall userId, ~ holds_active s userId bookId) ->
  removeBook bookId s = (inr tt, exec (RemoveBook bookId) s)
  /\ getBook bookId (exec (RemoveBook bookId) s)
     = (inl (BookNotFound bookId), exec (RemoveBook bookId) s)
  /\ (forall k, k <> bookId ->
        fst (getBook k (exec (RemoveBook bookId) s)) = fst (getBook k s))
  /\ Library.users (exec (RemoveBook bookId) s) = Library.users s
  /\ Library.borrowingRecords (exec (RemoveBook bookId) s)
     = Library.borrowingRecords s.
Proof.
  intros Hr Hbook Hnone.
  assert (Hav : Book.isAvailable book = true).
  { destruct (Book.isAvailable book) eqn:E; [reflexivity|]. exfalso.
    destruct (reachable_unavailable_active s Hr bookId book Hbook E)
      as (kr & r & Hget & Hb & Hst).
    apply (Hnone (BorrowingRecord.borrowerId r)). exists kr, r. auto. }
  unfold exec. cbn [perform]. rewrite removeBook_run, Hbook, Hav. simpl.
  repeat split.
  - rewrite getBook_run. simpl. now rewrite get_delete_eq.
  - intros k Hne. rewrite !getBook_run. simpl.
    rewrite get_delete_neq by congruence.
    now destruct (JsMap.get k (Library.books s)).
Qed.

Lemma removeBook_not_on_loan_witness :
  getBook "book-001" (exec (RemoveBook "book-001") s_member)
  = (inl (BookNotFound "book-001"), exec (RemoveBook "book-001") s_member).
Proof.
  refine (proj1 (proj2 (removeBook_not_on_loan s_member "book-001" _ _ eq_refl _))).
  - apply (reachable_run available_entry (member_actions TECHNOLOGY) Library.new);
      [constructor|].
    simpl. repeat split.
  - intros userId (k & r & Hget & _). discriminate.
Defined.

(** X13: in the states the engine reaches, [processBorrowing] returns
    exactly when [getAvailableBooks] lists an entry of the id asked for
    and the account exists, is authorized and holds fewer than three
    books. *)
Theorem processBorrowing_returns_iff_listed P s zone bookId borrowerId now1
    recordId now2 :
  reachable P s ->
  ((exists record,
      fst (processBorrowing zone bookId borrowerId now1 recordId now2 s) = inr record)
   <-> (exists l book, fst (getAvailableBooks s) = inr l
          /\ In book l /\ Book.id book = bookId)
       /\ (exists u, fst (getUser borrowerId s) = inr u
             /\ Borrower.isAuthorized u = true
             /\ Z.of_nat (List.length (Borrower.borrowedBooks u)) < 3)).
Proof.
  intros Hr.
  pose proof (reachable_consistent P s Hr) as Hc.
  pose proof (reachable_well_keyed P s Hr) as Hw.
  rewrite processBorrowing_run, getUser_run.
  unfold getAvailableBooks, gets. simpl. split.
  - destruct (JsMap.get bookId (Library.books s)) as [book|] eqn:Hb;
      [|intros [? [=]]].
    destruct (JsMap.get borrowerId (Library.users s)) as [u|] eqn:Hu;
      [|intros [? [=]]].
    destruct (Book.isAvailable book) eqn:Hav; simpl; [|intros [? [=]]].
    destruct (Book.isRestricted book) eqn:Hre; simpl; [intros [? [=]]|].
    destruct (Borrower.isAuthorized u) eqn:Hau; simpl; [|intros [? [=]]].
    destruct (Z.leb_spec (Borrower.maxBooksAllowed u)
                (Z.of_nat (List.length (Borrower.borrowedBooks u))))
      as [Hle|Hlt]; [intros [? [=]]|].
    intros _. split.
    + eexists. exists book. split; [reflexivity|]. split.
      * apply filter_In. split.
        -- apply In_values. exists bookId. now apply get_In.
        -- now rewrite Hav, Hre.
      * apply (catalog_keys s Hc bookId book Hb).
    + exists u. repeat split; auto.
      rewrite (cap_default s Hw borrowerId u Hu) in Hlt. exact Hlt.
  - intros [(l & book & [= <-] & Hin & Hid) (u & Hu & Hau & Hlt)].
    apply filter_In in Hin. destruct Hin as [Hin Hflags].
    apply andb_true_iff in Hflags. destruct Hflags as [Hav Hre].
    apply negb_true_iff in Hre.
    apply (In_values_get _ _ (books_wf s Hw)) in Hin. destruct Hin as [k Hk].
    pose proof (catalog_keys s Hc k book Hk) as E. rewrite Hid in E. subst k.
    rewrite Hk.
    destruct (JsMap.get borrowerId (Library.users s)) as [u0|] eqn:Hu0;
      [|discriminate].
    injection Hu as ->. rewrite Hav, Hre, Hau. simpl.
    rewrite (cap_default s Hw borrowerId u Hu0).
    destruct (Z.leb_spec 3 (Z.of_nat (List.length (Borrower.borrowedBooks u))));
      [lia|]. eexists. reflexivity.
Qed.

Lemma processBorrowing_returns_iff_listed_witness :
  (exists record,
     fst (processBorrowing TimeZone.UTC "book-001" "user-001" (day 0) "rec-001" (day 0) s_member)
     = inr record)
  <-> (exists l book, fst (getAvailableBooks s_member) = inr l
         /\ In book l /\ Book.id book = "book-001")
      /\ (exists u, fst (getUser "user-001" s_member) = inr u
            /\ Borrower.isAuthorized u = true
            /\ Z.of_nat (List.length (Borrower.borrowedBooks u)) < 3).
Proof.
  apply (processBorrowing_returns_iff_listed any_entry).
  apply (reachable_run any_entry (member_actions TECHNOLOGY) Library.new);
    [constructor|].
  simpl. repeat split.
Defined.

End Loans.

(** ** The roster and the ledger agree *)

Section Agreement.
Import JsMapFacts JsMapMoreFacts.

Lemma map_id_values {V : Type} (id : V -> UUID) (m : JsMap.t V) :
  (forall k v, In (k, v) m -> id v = k) ->
  map id (JsMap.values m) = JsMap.keys m.
Proof.
  induction m as [|[k0 v0] m IH]; simpl; intros H; auto.
  rewrite (H k0 v0) by now left. f_equal. apply IH.
  intros k v Hin. apply H. now right.
Qed.

(** X14: in the states the engine reaches, every object is stored under
    its own id and no listing holds an id twice: not the one of
    [getAllBooks], not the one of [getAllUsers], not the ledger; what
    [getBook] and [getUser] return has the id that was asked for. *)
Theorem listings_hold_each_id_once P s :
  reachable P s ->
  (forall l, fst (getAllBooks s) = inr l -> NoDup (map Book.id l))
  /\ (forall l, fst (getAllUsers s) = inr l ->
        NoDup (map BorrowerMethods.getId l))
  /\ NoDup (map BorrowingRecord.id (JsMap.values (Library.borrowingRecords s)))
  /\ (forall k b, fst (getBook k s) = inr b -> Book.id b = k)
  /\ (forall k u, fst (getUser k s) = inr u -> BorrowerMethods.getId u = k).
Proof.
  intros Hr.
  pose proof (reachable_consistent P s Hr) as Hc.
  pose proof (reachable_well_keyed P s Hr) as Hw.
  repeat split.
  - intros l [= <-]. rewrite map_id_values; [apply (books_wf s Hw)|].
    intros k v Hin. apply (catalog_keys s Hc).
    now apply (In_get _ _ _ (books_wf s Hw)).
  - intros l [= <-]. unfold BorrowerMethods.getId.
    rewrite map_id_values; [apply (users_wf s Hw)|].
    intros k v Hin. apply (users_keys s Hw).
    now apply (In_get _ _ _ (users_wf s Hw)).
  - rewrite map_id_values; [apply (ledger_wf s Hc)|].
    intros k v Hin. apply (ledger_keys s Hw).
    now apply (In_get _ _ _ (ledger_wf s Hc)).
  - intros k b. rewrite getBook_run.
    destruct (JsMap.get k (Library.books s)) as [b0|] eqn:E; [|discriminate].
    intros [= <-]. apply (catalog_keys s Hc k b0 E).
  - intros k u. rewrite getUser_run.
    destruct (JsMap.get k (Library.users s)) as [u0|] eqn:E; [|discriminate].
    intros [= <-]. apply (users_keys s Hw k u0 E).
Qed.

Lemma listings_hold_each_id_once_witness :
  NoDup (map BorrowingRecord.id (JsMap.values (Library.borrowingRecords s_at_cap))).
Proof.
  refine (proj1 (proj2 (proj2 (listings_hold_each_id_once any_entry s_at_cap _)))).
  apply reachable_run; [constructor|]. simpl. repeat split.
Defined.

(** X15: in the states the engine reaches, the books an account holds are
    the entries of its Active records, each of them once, and each of them
    an entry of the catalog that is not available. *)
Theorem borrowedBooks_are_active_loans P s userId u :
  reachable P s ->
  fst (getUser userId s) = inr u ->
  NoDup (Borrower.borrowedBooks u)
  /\ (forall bookId,
        In bookId (Borrower.borrowedBooks u) <-> holds_active s userId bookId)
  /\ (forall bookId, In bookId (Borrower.borrowedBooks u) ->
        exists book, fst (getBook bookId s) = inr book
          /\ Book.isAvailable book = false).
Proof.
  intros Hr. rewrite getUser_run.
  destruct (JsMap.get userId (Library.users s)) as [u0|] eqn:Hu; [|discriminate].
  intros [= <-].
  pose proof (reachable_consistent P s Hr) as Hc.
  pose proof (reachable_linked P s Hr) as Hl.
  split; [apply (linked_nodup s Hl userId u0 Hu)|]. split.
  - apply (linked_loans s Hl userId u0 Hu).
  - intros bookId Hin. apply (linked_loans s Hl userId u0 Hu) in Hin.
    destruct Hin as (k & r & Hget & Hb & _ & Hst).
    destruct (active_unavailable s Hc k r Hget Hst) as (book & Hbook & Hav).
    exists book. rewrite getBook_run. rewrite Hb in Hbook.
    now rewrite Hbook.
Qed.

Lemma borrowedBooks_are_active_loans_witness :
  holds_active s_at_cap "user-001" "book-002".
Proof.
  assert (Hr : reachable any_entry s_at_cap).
  { apply reachable_run; [constructor|]. simpl. repeat split. }
  destruct (borrowedBooks_are_active_loans any_entry s_at_cap "user-001" _ Hr
              eq_refl) as (_ & H & _).
  apply H. simpl. auto.
Defined.

(** X16: in the states the engine reaches, the history of an account is
    the list of the keys of its records in the ledger, in the order of the
    ledger: what [getMyBorrowingHistory] returns names every loan the
    account ever made, returned or not, and nothing else. *)
Theorem history_lists_ledger_records P s userId u :
  reachable P s ->
  fst (getUser userId s) = inr u ->
  BorrowerMethods.getMyBorrowingHistory u
  = records_of userId (Library.borrowingRecords s).
Proof.
  intros Hr. rewrite getUser_run.
  destruct (JsMap.get userId (Library.users s)) as [u0|] eqn:Hu; [|discriminate].
  intros [= <-]. apply (linked_history s (reachable_linked P s Hr) userId u0 Hu).
Qed.

Lemma history_lists_ledger_records_witness :
  exists u, fst (getUser "user-001" s_at_cap) = inr u
    /\ BorrowerMethods.getMyBorrowingHistory u = ["rec-001"; "rec-002"; "rec-003"].
Proof.
  assert (Hr : reachable any_entry s_at_cap).
  { apply reachable_run; [constructor|]. simpl. repeat split. }
  eexists. split; [reflexivity|].
  exact (history_lists_ledger_records any_entry s_at_cap "user-001" _ Hr eq_refl).
Defined.

(** X17: no method writes the cap of an account: in the states the engine
    reaches it is the three of the constructor, which is the policy
    constant, so that no account holds more than three books. *)
Theorem cap_is_policy_constant P s userId u :
  reachable P s ->
  fst (getUser userId s) = inr u ->
  Borrower.maxBooksAllowed u = BORROWING_POLICIES.MAX_BOOKS_PER_USER
  /\ (List.length (Borrower.borrowedBooks u) <= 3)%nat.
Proof.
  intros Hr. rewrite getUser_run.
  destruct (JsMap.get userId (Library.users s)) as [u0|] eqn:Hu; [|discriminate].
  intros [= <-].
  pose proof (cap_default s (reachable_well_keyed P s Hr) userId u0 Hu) as Hcap.
  split; [exact Hcap|].
  pose proof (reachable_within_cap P s Hr userId u0 Hu) as H.
  rewrite Hcap in H. lia.
Qed.

Lemma cap_is_policy_constant_witness :
  exists u, fst (getUser "user-001" s_at_cap) = inr u
    /\ Borrower.maxBooksAllowed u = BORROWING_POLICIES.MAX_BOOKS_PER_USER.
Proof.
  assert (Hr : reachable any_entry s_at_cap).
  { apply reachable_run; [constructor|]. simpl. repeat split. }
  eexists. split; [reflexivity|].
  exact (proj1 (cap_is_policy_constant any_entry s_at_cap "user-001" _ Hr eq_refl)).
Defined.

(** X18: [returnBook] of an account of the roster writes before it throws,
    and the write is not taken back: after the call on an account that
    holds an Active record of the entry, the record is still Active and
    the account no longer lists the entry, so the books of the accounts
    are no longer the entries of their Active records. *)
Theorem call_returnBook_breaks_link P s userId bookId :
  reachable P s ->
  holds_active s userId bookId ->
  holds_active (call_returnBook userId bookId s) userId bookId
  /\ (exists u', fst (getUser userId (call_returnBook userId bookId s)) = inr u'
        /\ ~ In bookId (Borrower.borrowedBooks u'))
  /\ ~ loans_match (call_returnBook userId bookId s).
Proof.
  intros Hr Hact.
  pose proof (reachable_linked P s Hr) as Hl.
  pose proof Hact as (k & r & Hget & Hb & Hu & Hst).
  destruct (linked_borrowers s Hl k r Hget) as [u Huser]. rewrite Hu in Huser.
  pose proof (proj2 (linked_loans s Hl userId u Huser bookId) Hact) as Hin.
  assert (Hs' : call_returnBook userId bookId s
                = Library.set_users
                    (JsMap.set userId (borrower_returned bookId u)
                       (Library.users s)) s).
  { unfold call_returnBook. rewrite Huser.
    unfold BorrowerMethods.returnBook, BorrowerMethods.includes.
    assert (E : existsb (fun id => String.eqb id bookId)
                  (Borrower.borrowedBooks u) = true).
    { apply existsb_exists. exists bookId. split; auto. apply String.eqb_refl. }
    now rewrite E. }
  rewrite Hs'.
  assert (Hout : ~ In bookId (Borrower.borrowedBooks (borrower_returned bookId u))).
  { simpl. rewrite filter_In, negb_true_iff, String.eqb_neq. tauto. }
  assert (Hstill : holds_active
                     (Library.set_users
                        (JsMap.set userId (borrower_returned bookId u)
                           (Library.users s)) s) userId bookId).
  { exact Hact. }
  split; [exact Hstill|]. split.
  - exists (borrower_returned bookId u). split; [|exact Hout].
    rewrite getUser_run. simpl. now rewrite get_set_eq.
  - intros Hm. apply Hout.
    apply (Hm userId (borrower_returned bookId u)); [|exact Hstill].
    simpl. apply get_set_eq.
Qed.

Lemma call_returnBook_breaks_link_witness :
  ~ loans_match (call_returnBook "user-001" "book-001" s_on_loan).
Proof.
  refine (proj2 (proj2 (call_returnBook_breaks_link any_entry s_on_loan
                          "user-001" "book-001" _ _))).
  - apply (reachable_run any_entry (member_actions TECHNOLOGY
           ++ [ProcessBorrowing TimeZone.UTC "book-001" "user-001" (day 0) "rec-001" (day 0)])
           Library.new); [constructor|].
    simpl. repeat split.
  - exists "rec-001". eexists. repeat split.
Defined.

End Agreement.

(** ** What an action leaves alone *)

Section Frames.
Import JsMapFacts JsMapMoreFacts.

(** X19: an action writes to no entry of the catalog but the one it names
    and to no account but the one it names: the lookups of all the other
    ids are as before, whether the action returned or threw. *)
Theorem exec_frame s a :
  (forall k, book_of_action a <> Some k ->
     JsMap.get k (Library.books (exec a s)) = JsMap.get k (Library.books s))
  /\ (forall k, user_of_action a <> Some k ->
        JsMap.get k (Library.users (exec a s)) = JsMap.get k (Library.users s)).
Proof.
  generalize (exec_outcome s a). generalize (exec a s). intros s' Ho.
  destruct Ho; simpl; split; intros k Hne; auto.
  - apply get_set_neq. congruence.
  - apply get_delete_neq. congruence.
  - apply get_set_neq. congruence.
  - apply get_set_neq. congruence.
  - apply get_set_neq. congruence.
  - apply get_set_neq. congruence.
  - apply get_set_neq. congruence.
  - apply get_update_neq. congruence.
  - apply get_update_neq. congruence.
  - apply get_update_neq. congruence.
  - apply get_update_neq. congruence.
Qed.

(** X20: in the states the engine reaches the ledger only grows at its
    end: an action keeps the keys of the ledger in their order, adding at
    most new ones after them; every record stays under its key with the
    fields that identify the loan; and a Returned record is never written
    again. *)
Theorem ledger_append_only P s a :
  reachable P s ->
  fresh_uuid s a ->
  (exists tail,
     JsMap.keys (Library.borrowingRecords (exec a s))
     = JsMap.keys (Library.borrowingRecords s) ++ tail)
  /\ (forall k r,
        JsMap.get k (Library.borrowingRecords s) = Some r ->
        exists r',
          JsMap.get k (Library.borrowingRecords (exec a s)) = Some r'
          /\ same_loan r r'
          /\ (BorrowingRecord.status r = RETURNED -> r' = r)).
Proof.
  intros Hr. pose proof (reachable_consistent P s Hr) as Hc.
  generalize (exec_outcome s a). generalize (exec a s). intros s' Ho Hfresh.
  assert (Hsame : forall r, same_loan r r) by (intros r; repeat split).
  assert (Hkeep : Library.borrowingRecords s' = Library.borrowingRecords s ->
            (exists tail,
               JsMap.keys (Library.borrowingRecords s')
               = JsMap.keys (Library.borrowingRecords s) ++ tail)
            /\ (forall k r,
                  JsMap.get k (Library.borrowingRecords s) = Some r ->
                  exists r',
                    JsMap.get k (Library.borrowingRecords s') = Some r'
                    /\ same_loan r r'
                    /\ (BorrowingRecord.status r = RETURNED -> r' = r))).
  { intros ->. split.
    - exists []. now rewrite app_nil_r.
    - intros k r Hget. exists r. auto. }
  destruct Ho; try (apply Hkeep; reflexivity); simpl in *.
  - apply has_false_get in Hfresh. split.
    + exists [recordId]. rewrite (set_absent _ _ _ Hfresh).
      unfold JsMap.keys. now rewrite map_app.
    + intros k x Hget. exists x. rewrite get_set_neq by congruence. auto.
  - destruct (find_Some _ _ _ _ H1) as [Hin Hp].
    apply is_active_loan_of_true in Hp. destruct Hp as (_ & _ & Hst).
    pose proof (In_get _ _ _ (ledger_wf s Hc) Hin) as Hkey. split.
    + exists []. now rewrite keys_update, app_nil_r.
    + intros k x Hget. destruct (String.string_dec key k) as [<-|Hne].
      * exists (record_returned now1 x). rewrite get_update_eq, Hget. simpl.
        split; [reflexivity|]. split; [repeat split|].
        intros Hret. congruence.
      * exists x. rewrite get_update_neq by exact Hne. auto.
Qed.

(** X20 for a second borrow, which adds its key after the one of the
    ledger, and for the return of the first of two loans, which rewrites
    the record under its key. *)
Lemma ledger_append_only_witness :
  (exists tail,
     tail <> []
     /\ JsMap.keys (Library.borrowingRecords
           (exec (ProcessBorrowing TimeZone.UTC "book-002" "user-001" (day 1)
                    "rec-002" (day 1)) s_one_loan))
        = JsMap.keys (Library.borrowingRecords s_one_loan) ++ tail)
  /\ (exists r',
        JsMap.get "rec-001"
          (Library.borrowingRecords
             (exec (ProcessReturn "book-001" "user-001" (day 3) (day 3))
                s_two_loans))
        = Some r'
        /\ BorrowingRecord.status r' = RETURNED
        /\ same_loan
             (BorrowingRecord.new "rec-001" "book-001" "user-001" (day 0) (day 14))
             r').
Proof.
  split.
  - destruct (ledger_append_only any_entry s_one_loan
                (ProcessBorrowing TimeZone.UTC "book-002" "user-001" (day 1)
                   "rec-002" (day 1))) as [[tail Htail] _].
    + apply reachable_run; [constructor|]. simpl. repeat split.
    + reflexivity.
    + exists tail. split; [|exact Htail].
      intros ->. discriminate Htail.
  - destruct (ledger_append_only any_entry s_two_loans
                (ProcessReturn "book-001" "user-001" (day 3) (day 3)))
      as [_ Hrec].
    + apply reachable_run; [constructor|]. simpl. repeat split.
    + exact I.
    + destruct (Hrec "rec-001"
                  (BorrowingRecord.new "rec-001" "book-001" "user-001" (day 0)
                     (day 14)) eq_refl) as (r' & Hget & Hsame & _).
      exists r'. split; [exact Hget|]. split; [|exact Hsame].
      cbv in Hget. injection Hget as <-. reflexivity.
Defined.

(** X21 for the removal of an entry the catalog does not hold. *)
Lemma perform_throws_unchanged_witness :
  exec (RemoveBook "book-009") s_member = s_member.
Proof.
  exact (perform_throws_unchanged (RemoveBook "book-009") s_member
           (BookNotFound "book-009") eq_refl).
Defined.

End Frames.

(** ** Overdue loans *)

Section OverdueLoans.
Import JsMapFacts JsMapMoreFacts.

(** X22: as long as the borrows are made on a host whose zone has a fixed
    offset, at clock readings whose due date is a valid date, every record
    of the ledger is due fourteen days of 24 hours after its borrow date
    and was never extended, so that [getOverdueBorrowings] lists exactly
    the Active records of the ledger that were made more than fourteen
    such days before its clock reading. *)
Theorem overdue_iff_active_past_period s now l r :
  reachable_by in_fixed_zone s ->
  fst (getOverdueBorrowings now s) = inr l ->
  (In r l
   <-> In r (JsMap.values (Library.borrowingRecords s))
       /\ BorrowingRecord.status r = ACTIVE
       /\ addDays (BorrowingRecord.borrowDate r)
            TIME_POLICIES.DEFAULT_BORROWING_PERIOD < now)
  /\ (In r (JsMap.values (Library.borrowingRecords s)) -> as_made r).
Proof.
  intros Hr. rewrite getOverdueBorrowings_run. intros [= <-].
  pose proof (reachable_consistent _ s (reachable_by_reachable _ s Hr)) as Hc.
  assert (Hmade : In r (JsMap.values (Library.borrowingRecords s)) -> as_made r).
  { intros Hin. apply (In_values_get _ _ (ledger_wf s Hc)) in Hin.
    destruct Hin as [k Hget]. apply (reachable_as_made s Hr k r Hget). }
  split; [|exact Hmade].
  rewrite filter_In. split.
  - intros [Hin Hov]. apply is_overdue_true in Hov.
    destruct Hov as (Hst & _ & Hdue). destruct (Hmade Hin) as (Hd & _).
    rewrite Hd in Hdue. auto.
  - intros (Hin & Hst & Hdue). split; [exact Hin|].
    destruct (Hmade Hin) as (Hd & _).
    apply (In_values_get _ _ (ledger_wf s Hc)) in Hin. destruct Hin as [k Hget].
    destruct (ledger_status s Hc k r Hget) as [[_ Hret] | [Hst' _]];
      [|congruence].
    apply is_overdue_true. rewrite Hd. auto.
Qed.

(** X22 for the loans made on day 0 and on day 1 in UTC, at the clock
    reading of day 14 and a half: the first loan is overdue, the second one
    is not. *)
Lemma overdue_iff_active_past_period_witness :
  exists l,
    fst (getOverdueBorrowings (day 14 + 43200000) s_two_loans) = inr l
    /\ In (BorrowingRecord.new "rec-001" "book-001" "user-001" (day 0) (day 14)) l
    /\ ~ In (BorrowingRecord.new "rec-002" "book-002" "user-001" (day 1) (day 15)) l.
Proof.
  assert (Hr : reachable_by in_fixed_zone s_two_loans).
  { apply (reachable_by_run in_fixed_zone two_loans_actions Library.new);
      [constructor|].
    assert (Hutc : TimeZone.fixed TimeZone.UTC) by (exists 0; reflexivity).
    unfold two_loans_actions. cbn [run_ok_by in_fixed_zone].
    repeat split; try exact Hutc; try reflexivity;
      unfold in_Date_range, addDays, MAX_TIME_VALUE, day, MS_PER_DAY,
        TIME_POLICIES.DEFAULT_BORROWING_PERIOD; lia. }
  eexists. split; [reflexivity|]. split.
  - apply (proj1 (overdue_iff_active_past_period s_two_loans
                    (day 14 + 43200000) _ _ Hr eq_refl)).
    split; [simpl; auto|]. split; [reflexivity|].
    unfold addDays, day, MS_PER_DAY, TIME_POLICIES.DEFAULT_BORROWING_PERIOD.
    simpl BorrowingRecord.borrowDate. lia.
  - intros Hin.
    apply (proj1 (overdue_iff_active_past_period s_two_loans
                    (day 14 + 43200000) _ _ Hr eq_refl)) in Hin.
    destruct Hin as (_ & _ & Hlt).
    unfold addDays, day, MS_PER_DAY, TIME_POLICIES.DEFAULT_BORROWING_PERIOD in Hlt.
    simpl BorrowingRecord.borrowDate in Hlt. lia.
Defined.

(** Across a change of the offset the loan period is not fourteen days of
    24 hours: in the zone of Paris a loan made on 2024-03-20 at 12:00 UTC
    is due on 2024-04-03 at 11:00 UTC, an hour earlier. *)
Example calculateDueDate_across_offset_change :
  calculateDueDate TimeZone.CET_to_CEST_2024 1710936000000 = 1712142000000
  /\ addDays 1710936000000 TIME_POLICIES.DEFAULT_BORROWING_PERIOD
     = 1712142000000 + 3600000.
Proof. split; reflexivity. Qed.

End OverdueLoans.

(** ** Reminders *)

Section Reminders.
Import JsMapFacts JsMapMoreFacts.

Lemma ceil_div_eq a b n :
  0 < b -> (ceil_div a b = n <-> (n - 1) * b < a <= n * b).
Proof.
  intros Hb. unfold ceil_div.
  pose proof (Z.div_mod (- a) b ltac:(lia)) as Hdiv.
  pose proof (Z.mod_pos_bound (- a) b Hb) as Hmod.
  split; intros H; nia.
Qed.

(** The representation of the invalid date behaves as NaN does in the two
    places where the code reads a due date: a record with an invalid due
    date is not overdue and gets no reminder, at any valid clock reading. *)
Lemma INVALID_DATE_compares_as_NaN now r :
  in_Date_range now ->
  BorrowingRecord.dueDate r = INVALID_DATE ->
  is_overdue now r = false
  /\ is_reminder_day (daysUntilDue now r) = false.
Proof.
  unfold in_Date_range. intros Hnow Hdue.
  assert (Hlate : now + 3 * (1000 * 60 * 60 * 24) < INVALID_DATE).
  { unfold INVALID_DATE, MAX_TIME_VALUE in *. lia. }
  split.
  - destruct (is_overdue now r) eqn:E; [|reflexivity].
    apply is_overdue_true in E. destruct E as (_ & _ & Hlt). lia.
  - destruct (is_reminder_day (daysUntilDue now r)) eqn:E; [|reflexivity].
    unfold is_reminder_day in E. apply existsb_exists in E.
    destruct E as (d & Hin & Hd). apply Z.eqb_eq in Hd.
    unfold daysUntilDue in Hd. rewrite Hdue in Hd.
    apply (ceil_div_eq _ (1000 * 60 * 60 * 24)) in Hd; [|lia].
    destruct Hin as [<- | [<- | []]]; lia.
Qed.

(** X23: [sendDueDateReminders] returns, writes nothing to the store and
    reminds of the unreturned Active records that fall due within the next
    day, or after more than two and at most three days; a record it
    reminds of is not among the overdue ones at the same clock reading. *)
Theorem sendDueDateReminders_window now s :
  exists l,
    sendDueDateReminders now s = (inr l, s)
    /\ forall d b,
         In (d, b) l
         <-> exists r,
               In r (JsMap.values (Library.borrowingRecords s))
               /\ daysUntilDue now r = d
               /\ BorrowingRecord.borrowerId r = b
               /\ BorrowingRecord.status r = ACTIVE
               /\ BorrowingRecord.returnDate r = None
               /\ (now < BorrowingRecord.dueDate r <= addDays now 1
                   \/ addDays now 2 < BorrowingRecord.dueDate r <= addDays now 3)
               /\ is_overdue now r = false.
Proof.
  eexists. split; [reflexivity|]. intros d b. rewrite in_map_iff.
  assert (Hwin : forall x,
            is_unreturned x && is_reminder_day (daysUntilDue now x) = true
            <-> BorrowingRecord.status x = ACTIVE
                /\ BorrowingRecord.returnDate x = None
                /\ (now < BorrowingRecord.dueDate x <= addDays now 1
                    \/ addDays now 2 < BorrowingRecord.dueDate x <= addDays now 3)).
  { intros x. unfold is_unreturned, is_reminder_day, daysUntilDue.
    rewrite andb_true_iff, negb_true_iff, orb_false_iff, negb_false_iff,
      BorrowingStatus_eqb_eq.
    unfold TIME_POLICIES.REMINDER_DAYS_BEFORE_DUE. simpl existsb.
    rewrite orb_false_r, orb_true_iff, !Z.eqb_eq.
    rewrite !(ceil_div_eq _ (1000 * 60 * 60 * 24)) by lia.
    unfold addDays, MS_PER_DAY.
    destruct (BorrowingRecord.returnDate x); split.
    - intros [[_ [=]] _].
    - intros (_ & [=] & _).
    - intros [[Hst _] Hd]. repeat split; auto. lia.
    - intros (Hst & _ & Hd). repeat split; auto. lia. }
  split.
  - intros (r & Heq & Hin). injection Heq as Hd Hb.
    apply filter_In in Hin. destruct Hin as [Hin Hf].
    apply Hwin in Hf. destruct Hf as (Hst & Hret & Hd').
    exists r. repeat split; auto.
    destruct (is_overdue now r) eqn:E; [|reflexivity].
    apply is_overdue_true in E. destruct E as (_ & _ & Hlt).
    unfold addDays, MS_PER_DAY in Hd'. lia.
  - intros (r & Hin & Hd & Hb & Hst & Hret & Hd' & _).
    exists r. split; [now rewrite Hd, Hb|].
    apply filter_In. split; [exact Hin|]. apply Hwin. auto.
Qed.

End Reminders.
